(** * DriveSight dashboard client: the real-time synchronisation core

    A shallow embedding of the browser-side JavaScript of DriveSight:
    - [DriveSightSocket]  the WebSocket client (connection handlers and the
                          listener registry with [on], [off], [emit], [_notify]);
    - [DriveSightAlerts]  the alert panel ([fetchAlerts], [_prependAlert]);
    - [DriveSightMap]     the heat layer and marker layer ([updateHeatmap]);
    - [App]               the main controller ([initDashboard], the three
                          loaders, [refreshAll], the push handlers);
    - [MapView], [AlertPanel], [DriveSightCameras], [Charts]
                          the rest of the page: the view of the map and the
                          camera markers, the info panel, the camera roster
                          and the charts.

    JavaScript runs on one thread: socket frames, timer ticks, clicks and the
    continuations of awaited fetches each run to completion, one after the
    other.  The embedding therefore is a state monad with exceptions and a
    trace of the console lines and callback invocations; an awaited fetch is a
    pending request whose continuation runs when the environment settles it. *)

From Stdlib Require Import List String ZArith Bool Arith Lia PrimFloat.
Import ListNotations.
Open Scope string_scope.
Open Scope list_scope.

(** ** JavaScript values as the code reads them *)

(** What a [catch (e)] receives. *)
Inductive Error : Type :=
| TypeError (what : string)      (* property access or call on a wrong value *)
| NetworkError                   (* [fetch] rejected *)
| SyntaxError                    (* [resp.json()] rejected *)
| Raised (tag : string).         (* any other exception *)

(** A JavaScript number is a binary64 float.  In a boolean context [0], [-0]
    and [NaN] are falsy, every other number is truthy. *)
Definition truthy_number (x : float) : bool :=
  negb (PrimFloat.eqb x 0%float || PrimFloat.is_nan x).

(** An alert as the panel reads it. *)
Record Alert : Type := mkAlert {
  alert_type   : string;
  latitude     : float;
  longitude    : float;
  title        : string;
  message      : string;
  notified_chp : bool;
  created_at   : string
}.

(** An incident as the marker layer reads it. *)
Record Incident : Type := mkIncident {
  severity       : string;
  incident_type  : string;
  inc_latitude   : float;
  inc_longitude  : float;
  camera_name    : option string;
  description    : option string;
  confidence     : float;
  inc_created_at : string
}.

(** A weighted point as delivered; [intensity] may be absent. *)
Record HeatPoint : Type := mkHeatPoint {
  lat       : float;
  lng       : float;
  intensity : option float
}.

(** A JSON object seen through the properties the code reads; [None] is a
    property that is absent ([undefined]). *)
Record Obj : Type := mkObj {
  o_alerts          : option (list Alert);
  o_heatmap         : option (list HeatPoint);
  o_incidents       : option (list Incident);
  o_total           : option Z;
  o_incident        : option Incident;
  o_alert           : option Alert;
  o_connected       : option bool;
  o_message         : option string;
  o_active_alerts   : option Z;
  o_cameras_active  : option Z;
  o_incidents_today : option Z
}.

Definition empty_obj : Obj :=
  mkObj None None None None None None None None None None None.

(** The argument of a socket event or the result of [resp.json()];
    [Undefined] stands for [undefined] and for [null]. *)
Inductive Data : Type :=
| Undefined
| Object (o : Obj).

(** [l || []] for a property that is an array when present: an array, even
    an empty one, is truthy. *)
Definition or_empty {X} (l : option (list X)) : list X :=
  match l with
  | Some l => l
  | None => []
  end.

(** ** The monad of the embedding *)

Inductive Res (A : Type) : Type :=
| Ok (a : A)
| Err (e : Error).
Arguments Ok {A} a.
Arguments Err {A} e.

Section Monad.
Context {S Act : Type}.

(** The outcome of running a piece of code from a state: how it completed,
    the state it left (effects before a throw persist) and what it did. *)
#[projections(primitive)]
Record Outcome (A : Type) : Type := mkOutcome {
  result : Res A;
  final  : S;
  trace  : list Act
}.
Arguments mkOutcome {A}.
Arguments result {A}.
Arguments final {A}.
Arguments trace {A}.

Definition M (A : Type) : Type := S -> Outcome A.

Definition ret {A} (a : A) : M A := fun s => mkOutcome (Ok a) s [].

Definition bind {A B} (m : M A) (k : A -> M B) : M B := fun s =>
  let o := m s in
  match result o with
  | Ok a =>
      let o' := k a (final o) in
      mkOutcome (result o') (final o') (trace o ++ trace o')
  | Err e => mkOutcome (Err e) (final o) (trace o)
  end.

Definition throw {A} (e : Error) : M A := fun s => mkOutcome (Err e) s [].

Definition tell (a : Act) : M unit := fun s => mkOutcome (Ok tt) s [a].

Definition gets {A} (f : S -> A) : M A := fun s => mkOutcome (Ok (f s)) s [].

Definition modify (f : S -> S) : M unit := fun s => mkOutcome (Ok tt) (f s) [].

(** [try { body } catch (e) { handler e }] *)
Definition try_catch {A} (body : M A) (handler : Error -> M A) : M A := fun s =>
  let o := body s in
  match result o with
  | Ok a => o
  | Err e =>
      let o' := handler e (final o) in
      mkOutcome (result o') (final o') (trace o ++ trace o')
  end.

(** [xs.forEach(f)]: a throwing [f] ends the loop. *)
Fixpoint forEach {X} (xs : list X) (f : X -> M unit) : M unit :=
  match xs with
  | [] => ret tt
  | x :: rest => bind (f x) (fun _ => forEach rest f)
  end.
End Monad.

Arguments Outcome S Act A : clear implicits.
Arguments M S Act A : clear implicits.
Arguments mkOutcome {S Act A}.
Arguments result {S Act A}.
Arguments final {S Act A}.
Arguments trace {S Act A}.

Declare Scope js_scope.
Delimit Scope js_scope with js.
Notation "x <- m ;; k" := (bind m (fun x => k))
  (at level 61, m at next level, right associativity) : js_scope.
Notation "m ;; k" := (bind m (fun _ => k))
  (at level 61, right associativity) : js_scope.
Open Scope js_scope.

(** ** part_000: the WebSocket client *)

Module DriveSightSocket.

(** The options passed to [io]. *)
Record IoOptions : Type := mkIoOptions {
  reconnection         : bool;
  reconnectionDelay    : Z;
  reconnectionAttempts : Z
}.

(** A socket.io socket: the transport the library opened for one [io] call,
    the events the code bound with [socket.on], and what was emitted on it. *)
Record Transport : Type := mkTransport {
  opts      : IoOptions;
  bound     : list string;
  connected : bool;
  sent      : list (string * Data)
}.

(** The [.connection-status] element. *)
Record Indicator : Type := mkIndicator {
  dot_class    : string;
  text_content : string;
  border_color : string
}.

Section Client.
(** [Cb] names the callbacks given to [on]; two names are the same callback
    ([===]) when [cb_eqb] says so.  [App] is the state of the rest of the
    page. *)
Context {Cb App : Type}.
Variable cb_eqb : Cb -> Cb -> bool.

(** The object literal [listeners]: five own properties, each an array. *)
Record Listeners : Type := mkListeners {
  new_incident      : list Cb;
  alert_update      : list Cb;
  heatmap_update    : list Cb;
  stats_update      : list Cb;
  connection_change : list Cb
}.

Record World : Type := mkWorld {
  socket    : option nat;          (* [let socket = null] *)
  listeners : Listeners;
  sockets   : list Transport;      (* every socket [io] has returned *)
  indicator : option Indicator;    (* [None]: not in the document *)
  app       : App
}.

#[warnings="-register-all"]
Inductive Action : Type :=
| ConsoleLog (line : string)
| ConsoleError (line : string) (e : Error)
| Invoke (cb : Cb) (data : Data) (threw : option Error) (did : list Action).

Definition JS (A : Type) : Type := M World Action A.

(** What a registered callback does when called; it may change any part
    of the page. *)
Variable call : Cb -> Data -> JS unit.

Definition set_socket (k : option nat) (w : World) : World :=
  mkWorld k (listeners w) (sockets w) (indicator w) (app w).
Definition set_listeners (l : Listeners) (w : World) : World :=
  mkWorld (socket w) l (sockets w) (indicator w) (app w).
Definition set_sockets (ts : list Transport) (w : World) : World :=
  mkWorld (socket w) (listeners w) ts (indicator w) (app w).
Definition set_indicator (i : option Indicator) (w : World) : World :=
  mkWorld (socket w) (listeners w) (sockets w) i (app w).
Definition set_app (a : App) (w : World) : World :=
  mkWorld (socket w) (listeners w) (sockets w) (indicator w) a.

(** The property names every object literal inherits from
    [Object.prototype]; reading one of them yields a function (or, for
    [__proto__], the prototype object): a truthy value that is no array. *)
Definition object_prototype_keys : list string :=
  [ "constructor"; "hasOwnProperty"; "isPrototypeOf";
    "propertyIsEnumerable"; "toLocaleString"; "toString"; "valueOf";
    "__proto__"; "__defineGetter__"; "__defineSetter__";
    "__lookupGetter__"; "__lookupSetter__" ].

Inductive Slot : Type :=
| Own (cbs : list Cb)     (* one of the five arrays *)
| Inherited               (* a truthy value without [push]/[filter]/[forEach] *)
| Missing.                (* [undefined] *)

(** [listeners[event]] *)
Definition get (l : Listeners) (event : string) : Slot :=
  if event =? "new_incident" then Own (new_incident l)
  else if event =? "alert_update" then Own (alert_update l)
  else if event =? "heatmap_update" then Own (heatmap_update l)
  else if event =? "stats_update" then Own (stats_update l)
  else if event =? "connection_change" then Own (connection_change l)
  else if existsb (String.eqb event) object_prototype_keys then Inherited
  else Missing.

(** [listeners[event] = cbs], for an [event] that is an own property. *)
Definition set (l : Listeners) (event : string) (cbs : list Cb) : Listeners :=
  if event =? "new_incident" then
    mkListeners cbs (alert_update l) (heatmap_update l) (stats_update l) (connection_change l)
  else if event =? "alert_update" then
    mkListeners (new_incident l) cbs (heatmap_update l) (stats_update l) (connection_change l)
  else if event =? "heatmap_update" then
    mkListeners (new_incident l) (alert_update l) cbs (stats_update l) (connection_change l)
  else if event =? "stats_update" then
    mkListeners (new_incident l) (alert_update l) (heatmap_update l) cbs (connection_change l)
  else if event =? "connection_change" then
    mkListeners (new_incident l) (alert_update l) (heatmap_update l) (stats_update l) cbs
  else l.

(** *** socket.io, as far as the client uses it *)

(** [io(window.location.origin, o)]: a new socket, not yet connected. *)
Definition io (o : IoOptions) : JS nat := fun w =>
  mkOutcome (Ok (List.length (sockets w)))
            (set_sockets (sockets w ++ [mkTransport o [] false []]) w) [].

Fixpoint update_nth {X} (k : nat) (f : X -> X) (xs : list X) : list X :=
  match xs, k with
  | [], _ => []
  | x :: rest, O => f x :: rest
  | x :: rest, Datatypes.S k' => x :: update_nth k' f rest
  end.

(** A method call on the value of the variable [socket]; on [null] it is a
    [TypeError]. *)
Definition on_socket (f : Transport -> Transport) : JS unit :=
  s <- gets socket ;;
  match s with
  | None => throw (TypeError "socket is null")
  | Some k => modify (fun w => set_sockets (update_nth k f (sockets w)) w)
  end.

(** [socket.on(name, ...)] *)
Definition socket_on (name : string) : JS unit :=
  on_socket (fun t => mkTransport (opts t) (bound t ++ [name]) (connected t) (sent t)).

(** [socket.emit(name, data)] *)
Definition socket_emit (name : string) (data : Data) : JS unit :=
  on_socket (fun t => mkTransport (opts t) (bound t) (connected t) (sent t ++ [(name, data)])).

(** *** The registry *)

(** [cb(data)], recorded in the trace with how it completed and what the
    callback itself did. *)
Definition invoke (cb : Cb) (data : Data) : JS unit := fun w =>
  let o := call cb data w in
  match result o with
  | Ok _ => mkOutcome (Ok tt) (final o) [Invoke cb data None (trace o)]
  | Err e => mkOutcome (Err e) (final o) [Invoke cb data (Some e) (trace o)]
  end.

Definition on (event : string) (callback : Cb) : JS unit :=
  l <- gets listeners ;;
  match get l event with
  | Own cbs => modify (set_listeners (set l event (cbs ++ [callback])))
  | Inherited => throw (TypeError "listeners[event].push is not a function")
  | Missing => ret tt
  end.

Definition off (event : string) (callback : Cb) : JS unit :=
  l <- gets listeners ;;
  match get l event with
  | Own cbs =>
      modify (set_listeners (set l event (filter (fun cb => negb (cb_eqb cb callback)) cbs)))
  | Inherited => throw (TypeError "listeners[event].filter is not a function")
  | Missing => ret tt
  end.

Definition emit (event : string) (data : Data) : JS unit :=
  s <- gets socket ;;
  ts <- gets sockets ;;
  match s with
  | None => ret tt
  | Some k =>
      match nth_error ts k with
      | Some t => if connected t then socket_emit event data else ret tt
      | None => ret tt
      end
  end.

(** [`[WS] Listener error for ${event}:`] *)
Definition listener_error (event : string) : string :=
  String.append "[WS] Listener error for " (String.append event ":").

(** [forEach] walks the array that [listeners[event]] held when the loop
    began: [on] only appends to it and [off] stores a new array, so a
    callback that registers or removes callbacks does not change which
    callbacks this dispatch calls. *)
Definition _notify (event : string) (data : Data) : JS unit :=
  l <- gets listeners ;;
  match get l event with
  | Own cbs =>
      forEach cbs (fun cb =>
        try_catch (invoke cb data)
                  (fun e => tell (ConsoleError (listener_error event) e)))
  | Inherited => throw (TypeError "listeners[event].forEach is not a function")
  | Missing => ret tt
  end.

(** The element is created when the document has none; either way its dot,
    text and border are then overwritten. *)
Definition _updateConnectionUI (connected : bool) : JS unit :=
  modify (fun w =>
    set_indicator
      (Some (if connected
             then mkIndicator "connection-dot connected" "Live" "rgba(46, 196, 182, 0.2)"
             else mkIndicator "connection-dot disconnected" "Reconnecting..."
                              "rgba(230, 57, 70, 0.2)"))
      w).

(** *** [connect] and the handlers it binds *)

Definition payload_connected (b : bool) : Data :=
  Object (mkObj None None None None None None (Some b) None None None None).

(** The arrow functions of [connect], by the event they are bound to. *)
Definition on_connect : JS unit :=
  tell (ConsoleLog "[WS] Connected to DriveSight server") ;;
  socket_emit "subscribe_alerts" Undefined ;;
  socket_emit "subscribe_heatmap" Undefined ;;
  _notify "connection_change" (payload_connected true) ;;
  _updateConnectionUI true.

Definition on_disconnect : JS unit :=
  tell (ConsoleLog "[WS] Disconnected") ;;
  _notify "connection_change" (payload_connected false) ;;
  _updateConnectionUI false.

(** [data.message] is read for the log line. *)
Definition on_connection_ack (data : Data) : JS unit :=
  match data with
  | Undefined => throw (TypeError "cannot read properties of undefined")
  | Object _ => tell (ConsoleLog "[WS] Server acknowledged:")
  end.

Definition on_new_incident (data : Data) : JS unit :=
  tell (ConsoleLog "[WS] New incident:") ;;
  _notify "new_incident" data.

Definition on_alert_update (data : Data) : JS unit :=
  tell (ConsoleLog "[WS] Alert update:") ;;
  _notify "alert_update" data.

Definition on_heatmap_update (data : Data) : JS unit :=
  tell (ConsoleLog "[WS] Heatmap update") ;;
  _notify "heatmap_update" data.

Definition on_stats_update (data : Data) : JS unit :=
  _notify "stats_update" data.

Definition socket_handler (name : string) (data : Data) : option (JS unit) :=
  if name =? "connect" then Some on_connect
  else if name =? "disconnect" then Some on_disconnect
  else if name =? "connection_ack" then Some (on_connection_ack data)
  else if name =? "new_incident" then Some (on_new_incident data)
  else if name =? "alert_update" then Some (on_alert_update data)
  else if name =? "heatmap_update" then Some (on_heatmap_update data)
  else if name =? "stats_update" then Some (on_stats_update data)
  else None.

Definition connect : JS nat :=
  k <- io (mkIoOptions true 2000 20) ;;
  modify (set_socket (Some k)) ;;
  socket_on "connect" ;;
  socket_on "disconnect" ;;
  socket_on "connection_ack" ;;
  socket_on "new_incident" ;;
  socket_on "alert_update" ;;
  socket_on "heatmap_update" ;;
  socket_on "stats_update" ;;
  s <- gets socket ;;
  match s with
  | Some k' => ret k'
  | None => throw (TypeError "socket is null")
  end.

(** *** The library delivering an event on socket [k] *)

(** socket.io sets [connected] before it fires ["connect"] and clears it
    before it fires ["disconnect"]; then the bound handler runs. *)
Definition set_connected (b : bool) (t : Transport) : Transport :=
  mkTransport (opts t) (bound t) b (sent t).

Definition mark_connected (k : nat) (name : string) (w : World) : World :=
  if name =? "connect" then
    set_sockets (update_nth k (set_connected true) (sockets w)) w
  else if name =? "disconnect" then
    set_sockets (update_nth k (set_connected false) (sockets w)) w
  else w.

Definition deliver (k : nat) (name : string) (data : Data) : JS unit := fun w =>
  match nth_error (sockets w) k with
  | None => ret tt w
  | Some t =>
      if existsb (String.eqb name) (bound t) then
        match socket_handler name data with
        | Some h => h (mark_connected k name w)
        | None => ret tt w
        end
      else ret tt w
  end.

Definition initial (a : App) : World :=
  mkWorld None (mkListeners [] [] [] [] []) [] None a.
End Client.
End DriveSightSocket.

Arguments DriveSightSocket.Listeners Cb : clear implicits.
Arguments DriveSightSocket.World Cb App : clear implicits.
Arguments DriveSightSocket.Action Cb : clear implicits.
Arguments DriveSightSocket.JS Cb App A : clear implicits.

(** ** The page: the state of the other modules *)

(** The callbacks the page registers with [DriveSightSocket.on]. *)
Inductive HandlerId : Type :=
| AlertsNewIncident    (* alerts.js, [init]: new_incident *)
| AlertsAlertUpdate    (* alerts.js, [init]: alert_update *)
| AppHeatmapUpdate     (* [initDashboard]: heatmap_update *)
| AppStatsUpdate       (* [initDashboard]: stats_update *)
| AppNewIncident.      (* [initDashboard]: new_incident *)

Definition HandlerId_eqb (a b : HandlerId) : bool :=
  match a, b with
  | AlertsNewIncident, AlertsNewIncident
  | AlertsAlertUpdate, AlertsAlertUpdate
  | AppHeatmapUpdate, AppHeatmapUpdate
  | AppStatsUpdate, AppStatsUpdate
  | AppNewIncident, AppNewIncident => true
  | _, _ => false
  end.

(** [innerHTML] of [#alerts-container]. *)
Inductive Panel : Type :=
| PanelStatic                       (* what the page was served with *)
| PanelAllClear                     (* "No active alerts - all clear" *)
| PanelList (items : list Alert)    (* one [.dash-alert-item] per alert *)
| PanelError.                       (* "Failed to load alerts. Retrying..." *)

(** [textContent] of a counter element. *)
Inductive Text : Type :=
| Static
| Shown (n : Z).

(** The elements the code looks up; [None] (or [false]) is an element the
    document does not have. *)
Record Document : Type := mkDocument {
  alerts_container     : option Panel;
  alert_count_badge    : option Text;
  dash_active_alerts   : option Text;
  dash_cameras_online  : option Text;
  dash_incidents_today : option Text;
  mockup_alerts        : option Text;
  timerange_select     : option Z;     (* [parseInt(select.value)] *)
  refresh_btn          : bool;
  heatmap_div          : bool
}.

(** The snapshot requests. *)
Inductive Pull : Type :=
| PullAlerts                  (* /api/alerts?active=true *)
| PullHeatmap (hours : Z)     (* /api/heatmap?hours= *)
| PullIncidents (hours : Z)   (* /api/incidents?hours=&limit=200 *)
| PullStats.                  (* /api/stats *)

(** What [initDashboard] still has to do once the loader it awaits is done. *)
Inductive Cont : Type :=
| Detached
| InitAfterHeatmap
| InitAfterIncidents
| InitAfterStats.

(** A fetch in flight: its request and who awaits the loader that issued it. *)
Record Pending : Type := mkPending {
  pull : Pull;
  cont : Cont
}.

(** How [await fetch(...)] followed by [await resp.json()] settles. *)
Inductive Response : Type :=
| FetchRejected
| JsonRejected
| Json (data : Data).

Record Dashboard : Type := mkDashboard {
  alerts               : list Alert;                            (* alerts.js *)
  heatLayer            : option (list (float * float * float)); (* heatmap.js; [None] is [null] *)
  markerLayer          : option (list Incident);                (* heatmap.js; [None] is [null] *)
  document             : Document;
  pending              : list Pending;
  dashboardInitialized : bool;
  autoRefresh          : bool      (* [setInterval(refreshAll, 30000)] is running and the
                                      refresh button and the selector are bound *)
}.

Definition set_alerts (l : list Alert) (d : Dashboard) : Dashboard :=
  mkDashboard l (heatLayer d) (markerLayer d) (document d) (pending d)
              (dashboardInitialized d) (autoRefresh d).
Definition set_heatLayer (h : option (list (float * float * float))) (d : Dashboard) : Dashboard :=
  mkDashboard (alerts d) h (markerLayer d) (document d) (pending d)
              (dashboardInitialized d) (autoRefresh d).
Definition set_markerLayer (m : option (list Incident)) (d : Dashboard) : Dashboard :=
  mkDashboard (alerts d) (heatLayer d) m (document d) (pending d)
              (dashboardInitialized d) (autoRefresh d).
Definition set_document (doc : Document) (d : Dashboard) : Dashboard :=
  mkDashboard (alerts d) (heatLayer d) (markerLayer d) doc (pending d)
              (dashboardInitialized d) (autoRefresh d).
Definition set_pending (p : list Pending) (d : Dashboard) : Dashboard :=
  mkDashboard (alerts d) (heatLayer d) (markerLayer d) (document d) p
              (dashboardInitialized d) (autoRefresh d).
Definition set_dashboardInitialized (b : bool) (d : Dashboard) : Dashboard :=
  mkDashboard (alerts d) (heatLayer d) (markerLayer d) (document d) (pending d)
              b (autoRefresh d).
Definition set_autoRefresh (b : bool) (d : Dashboard) : Dashboard :=
  mkDashboard (alerts d) (heatLayer d) (markerLayer d) (document d) (pending d)
              (dashboardInitialized d) b.

Definition set_alerts_container (p : Panel) (doc : Document) : Document :=
  mkDocument (Some p) (alert_count_badge doc) (dash_active_alerts doc)
             (dash_cameras_online doc) (dash_incidents_today doc) (mockup_alerts doc)
             (timerange_select doc) (refresh_btn doc) (heatmap_div doc).
Definition set_alert_count_badge (t : Text) (doc : Document) : Document :=
  mkDocument (alerts_container doc) (Some t) (dash_active_alerts doc)
             (dash_cameras_online doc) (dash_incidents_today doc) (mockup_alerts doc)
             (timerange_select doc) (refresh_btn doc) (heatmap_div doc).
Definition set_dash_active_alerts (t : Text) (doc : Document) : Document :=
  mkDocument (alerts_container doc) (alert_count_badge doc) (Some t)
             (dash_cameras_online doc) (dash_incidents_today doc) (mockup_alerts doc)
             (timerange_select doc) (refresh_btn doc) (heatmap_div doc).
Definition set_dash_cameras_online (t : Text) (doc : Document) : Document :=
  mkDocument (alerts_container doc) (alert_count_badge doc) (dash_active_alerts doc)
             (Some t) (dash_incidents_today doc) (mockup_alerts doc)
             (timerange_select doc) (refresh_btn doc) (heatmap_div doc).
Definition set_dash_incidents_today (t : Text) (doc : Document) : Document :=
  mkDocument (alerts_container doc) (alert_count_badge doc) (dash_active_alerts doc)
             (dash_cameras_online doc) (Some t) (mockup_alerts doc)
             (timerange_select doc) (refresh_btn doc) (heatmap_div doc).
Definition set_mockup_alerts (t : Text) (doc : Document) : Document :=
  mkDocument (alerts_container doc) (alert_count_badge doc) (dash_active_alerts doc)
             (dash_cameras_online doc) (dash_incidents_today doc) (Some t)
             (timerange_select doc) (refresh_btn doc) (heatmap_div doc).
Definition set_timerange_select (h : Z) (doc : Document) : Document :=
  mkDocument (alerts_container doc) (alert_count_badge doc) (dash_active_alerts doc)
             (dash_cameras_online doc) (dash_incidents_today doc) (mockup_alerts doc)
             (Some h) (refresh_btn doc) (heatmap_div doc).

(** Code of the page modules: a computation on the [Dashboard]. *)
Definition D (A : Type) : Type := M Dashboard (DriveSightSocket.Action HandlerId) A.

(** Code that also uses the WebSocket client: a computation on the whole page. *)
Definition JS (A : Type) : Type := DriveSightSocket.JS HandlerId Dashboard A.

(** Code of a page module, run on the page. *)
Definition in_app {A} (m : D A) : JS A := fun w =>
  let o := m (DriveSightSocket.app w) in
  mkOutcome (result o) (DriveSightSocket.set_app (final o) w) (trace o).

(** [el.textContent = n], for an element looked up by [find] that may be
    absent: [if (el) el.textContent = n]. *)
Definition write_text (find : Document -> option Text)
    (store : Text -> Document -> Document) (n : Z) : D unit :=
  modify (fun d =>
    match find (document d) with
    | Some _ => set_document (store (Shown n) (document d)) d
    | None => d
    end).

(** The two awaits of a loader: the settled fetch, then its JSON body. *)
Definition await_json (r : Response) : D Data :=
  match r with
  | FetchRejected => throw NetworkError
  | JsonRejected => throw SyntaxError
  | Json data => ret data
  end.

(** [data.p]: reading a property of [undefined] or [null] is a [TypeError]. *)
Definition properties (data : Data) : D Obj :=
  match data with
  | Undefined => throw (TypeError "cannot read properties of undefined")
  | Object o => ret o
  end.

(** The fetch a loader starts before it suspends. *)
Definition fetch (p : Pull) (k : Cont) : D unit :=
  modify (fun d => set_pending (pending d ++ [mkPending p k]) d).

(** ** alerts.js: the alert panel *)

Module DriveSightAlerts.

Definition _render : D unit :=
  d <- gets (fun d => d) ;;
  match alerts_container (document d) with
  | None => ret tt
  | Some _ =>
      write_text alert_count_badge set_alert_count_badge (Z.of_nat (List.length (alerts d))) ;;
      write_text dash_active_alerts set_dash_active_alerts (Z.of_nat (List.length (alerts d))) ;;
      if Nat.eqb (List.length (alerts d)) 0 then
        modify (fun d => set_document (set_alerts_container PanelAllClear (document d)) d)
      else
        modify (fun d => set_document (set_alerts_container (PanelList (alerts d)) (document d)) d)
  end.

Definition _renderError : D unit :=
  modify (fun d =>
    match alerts_container (document d) with
    | Some _ => set_document (set_alerts_container PanelError (document d)) d
    | None => d
    end).

(** [alerts.unshift(alert); if (alerts.length > 30) alerts = alerts.slice(0, 30)] *)
Definition unshift_and_trim (alert : Alert) (alerts : list Alert) : list Alert :=
  let alerts := alert :: alerts in
  if Nat.ltb 30 (List.length alerts) then firstn 30 alerts else alerts.

(** The one-second [alertFlash] animation of the first item is styling only
    and leaves no trace in this state. *)
Definition _prependAlert (alert : Alert) : D unit :=
  modify (fun d => set_alerts (unshift_and_trim alert (alerts d)) d) ;;
  _render.

(** [async function fetchAlerts]: up to its first [await] ... *)
Definition fetchAlerts (k : Cont) : D unit :=
  fetch PullAlerts k.

(** ... and from there on, once the fetch has settled. *)
Definition fetchAlerts_resume (r : Response) : D unit :=
  try_catch
    (data <- await_json r ;;
     o <- properties data ;;
     modify (set_alerts (or_empty (o_alerts o))) ;;
     _render)
    (fun err =>
       tell (DriveSightSocket.ConsoleError "[Alerts] Fetch error:" err) ;;
       _renderError).

(** The two listeners of [init]. *)
Definition on_new_incident (data : Data) : D unit :=
  o <- properties data ;;
  match o_alert o with
  | Some alert => _prependAlert alert
  | None => ret tt
  end.

Definition on_alert_update (data : Data) : D unit :=
  fetchAlerts Detached.

Definition init : JS unit :=
  in_app (fetchAlerts Detached) ;;
  DriveSightSocket.on "new_incident" AlertsNewIncident ;;
  DriveSightSocket.on "alert_update" AlertsAlertUpdate.

End DriveSightAlerts.

(** ** heatmap.js: the Leaflet layers *)

Module DriveSightMap.

(** [L.map(containerId, ...)] throws when the document has no such element;
    then the two layers are created empty. *)
Definition init : D unit :=
  d <- gets (fun d => d) ;;
  if heatmap_div (document d) then
    modify (set_heatLayer (Some [])) ;;
    modify (set_markerLayer (Some []))
  else throw (Raised "Map container not found.").

(** [[point.lat, point.lng, point.intensity || 0.5]] *)
Definition latLng (point : HeatPoint) : float * float * float :=
  (lat point, lng point,
   match intensity point with
   | Some x => if truthy_number x then x else 0.5%float
   | None => 0.5%float
   end).

(** [heatmapData] is [None] when the caller passes [undefined]; an array,
    empty or not, is truthy. *)
Definition updateHeatmap (heatmapData : option (list HeatPoint)) : D unit :=
  d <- gets (fun d => d) ;;
  match heatLayer d, heatmapData with
  | Some _, Some points => modify (set_heatLayer (Some (map latLng points)))
  | _, _ => ret tt
  end.

(** [markerLayer.clearLayers()], then one marker per incident. *)
Definition addIncidentMarkers (incidents : list Incident) : D unit :=
  d <- gets (fun d => d) ;;
  match markerLayer d with
  | Some _ => modify (set_markerLayer (Some incidents))
  | None => ret tt
  end.

End DriveSightMap.

(** ** part_001: the main controller *)

Module App.

Definition getSelectedHours : D Z :=
  gets (fun d => match timerange_select (document d) with Some h => h | None => 24%Z end).

Definition loadHeatmapData (k : Cont) : D unit :=
  hours <- getSelectedHours ;;
  fetch (PullHeatmap hours) k.

Definition loadHeatmapData_resume (r : Response) : D unit :=
  try_catch
    (data <- await_json r ;;
     o <- properties data ;;
     DriveSightMap.updateHeatmap (Some (or_empty (o_heatmap o))))
    (fun err => tell (DriveSightSocket.ConsoleError "[App] Heatmap load error:" err)).

Definition loadIncidents (k : Cont) : D unit :=
  hours <- getSelectedHours ;;
  fetch (PullIncidents hours) k.

Definition loadIncidents_resume (r : Response) : D unit :=
  try_catch
    (data <- await_json r ;;
     o <- properties data ;;
     DriveSightMap.addIncidentMarkers (or_empty (o_incidents o)) ;;
     write_text dash_incidents_today set_dash_incidents_today
                (match o_total o with Some n => n | None => 0%Z end))
    (fun err => tell (DriveSightSocket.ConsoleError "[App] Incidents load error:" err)).

(** [if (el && value !== undefined) el.textContent = value] *)
Definition show (find : Document -> option Text)
    (store : Text -> Document -> Document) (value : option Z) : D unit :=
  match value with
  | Some n => write_text find store n
  | None => ret tt
  end.

Definition updateStatDisplays (data : Data) : D unit :=
  o <- properties data ;;
  show dash_active_alerts set_dash_active_alerts (o_active_alerts o) ;;
  show dash_cameras_online set_dash_cameras_online (o_cameras_active o) ;;
  show dash_incidents_today set_dash_incidents_today (o_incidents_today o) ;;
  show mockup_alerts set_mockup_alerts (o_incidents_today o).

Definition loadStats (k : Cont) : D unit :=
  fetch PullStats k.

(** [updateCharts] redraws the three Chart.js charts from the same record;
    the charts are drawn by Chart.js and hold no state of this page. *)
Definition loadStats_resume (r : Response) : D unit :=
  try_catch
    (data <- await_json r ;;
     updateStatDisplays data)
    (fun err => tell (DriveSightSocket.ConsoleError "[App] Stats load error:" err)).

(** The four loaders start in this order; each suspends at its fetch.  The
    spinning of the refresh button is styling. *)
Definition refreshAll : D unit :=
  loadHeatmapData Detached ;;
  loadIncidents Detached ;;
  loadStats Detached ;;
  DriveSightAlerts.fetchAlerts Detached.

Definition setupAutoRefresh : D unit :=
  modify (set_autoRefresh true).

(** The three listeners of [initDashboard]. *)
Definition on_heatmap_update (data : Data) : D unit :=
  o <- properties data ;;
  match o_heatmap o with
  | Some heatmap => DriveSightMap.updateHeatmap (Some heatmap)
  | None => ret tt
  end.

Definition on_stats_update (data : Data) : D unit :=
  updateStatDisplays data.

Definition on_new_incident (data : Data) : D unit :=
  o <- properties data ;;
  match o_incident o with
  | Some incident => DriveSightMap.addIncidentMarkers [incident]
  | None => ret tt
  end.

(** The callbacks by name. *)
Definition call (cb : HandlerId) (data : Data) : JS unit :=
  match cb with
  | AlertsNewIncident => in_app (DriveSightAlerts.on_new_incident data)
  | AlertsAlertUpdate => in_app (DriveSightAlerts.on_alert_update data)
  | AppHeatmapUpdate => in_app (on_heatmap_update data)
  | AppStatsUpdate => in_app (on_stats_update data)
  | AppNewIncident => in_app (on_new_incident data)
  end.

(** [async function initDashboard], up to [await loadHeatmapData()].  The
    camera roster is left out: [DriveSightCameras.init] starts one fetch whose
    continuation fills the camera list, adds the camera markers and writes
    the camera count into [#dash-cameras-online]; it touches neither the
    registry, the sockets, the alerts nor the two layers. *)
Definition initDashboard : JS unit :=
  tell (DriveSightSocket.ConsoleLog "[App] Initializing dashboard...") ;;
  in_app DriveSightMap.init ;;
  _ <- DriveSightSocket.connect ;;
  DriveSightAlerts.init ;;
  in_app (loadHeatmapData InitAfterHeatmap).

(** The rest of [initDashboard], from the loader that has just finished.
    After the last one come [initCharts] (the Chart.js charts, which hold no
    state of this page), the timer, the click and change listeners of the
    two controls, and the three listeners on the socket. *)
Definition initDashboard_resume (k : Cont) : JS unit :=
  match k with
  | Detached => ret tt
  | InitAfterHeatmap => in_app (loadIncidents InitAfterIncidents)
  | InitAfterIncidents => in_app (loadStats InitAfterStats)
  | InitAfterStats =>
      in_app setupAutoRefresh ;;
      DriveSightSocket.on "heatmap_update" AppHeatmapUpdate ;;
      DriveSightSocket.on "stats_update" AppStatsUpdate ;;
      DriveSightSocket.on "new_incident" AppNewIncident
  end.

Definition loader_resume (p : Pull) (r : Response) : D unit :=
  match p with
  | PullAlerts => DriveSightAlerts.fetchAlerts_resume r
  | PullHeatmap _ => loadHeatmapData_resume r
  | PullIncidents _ => loadIncidents_resume r
  | PullStats => loadStats_resume r
  end.

(** *** What can happen to the page *)

Inductive Event : Type :=
| EnterDashboard                                  (* #dashboard scrolls into view, or its link is clicked *)
| Frame (k : nat) (name : string) (data : Data)   (* socket [k] fires [name] *)
| Settle (i : nat) (r : Response)                 (* the [i]-th fetch in flight settles *)
| Tick                                            (* the 30 s interval *)
| ClickRefresh
| SelectHours (h : Z).

Fixpoint remove_nth {X} (i : nat) (xs : list X) : list X :=
  match xs, i with
  | [], _ => []
  | _ :: rest, O => rest
  | x :: rest, S i' => x :: remove_nth i' rest
  end.

Definition step (e : Event) : JS unit := fun w =>
  let d := DriveSightSocket.app w in
  match e with
  | EnterDashboard =>
      if dashboardInitialized d then ret tt w
      else (in_app (modify (set_dashboardInitialized true)) ;; initDashboard) w
  | Frame k name data => DriveSightSocket.deliver call k name data w
  | Settle i r =>
      match nth_error (pending d) i with
      | Some p =>
          (in_app (modify (fun d => set_pending (remove_nth i (pending d)) d)) ;;
           in_app (loader_resume (pull p) r) ;;
           initDashboard_resume (cont p)) w
      | None => ret tt w
      end
  | Tick =>
      if autoRefresh d then in_app refreshAll w else ret tt w
  | ClickRefresh =>
      if autoRefresh d && refresh_btn (document d) then in_app refreshAll w else ret tt w
  | SelectHours h =>
      match timerange_select (document d) with
      | Some _ =>
          (in_app (modify (fun d => set_document (set_timerange_select h (document d)) d)) ;;
           if autoRefresh d then in_app refreshAll else ret tt) w
      | None => ret tt w
      end
  end.

(** Events one after the other; an uncaught exception of one event is
    reported by the browser and the next event still runs. *)
Fixpoint run (es : list Event) (w : DriveSightSocket.World HandlerId Dashboard)
    : DriveSightSocket.World HandlerId Dashboard :=
  match es with
  | [] => w
  | e :: rest => run rest (final (step e w))
  end.

(** The page as loaded, before the dashboard is initialised. *)
Definition boot (doc : Document) : DriveSightSocket.World HandlerId Dashboard :=
  DriveSightSocket.initial (mkDashboard [] None None doc [] false false).

End App.

(** ** The rest of the page *)

(** What the flows above leave alone: the view of the map and the camera
    markers (heatmap.js), the camera roster (cameras.js), the info panel
    next to the map (alerts.js, [focusAlert]), the relative times of both
    modules and the three Chart.js charts (part_001). *)

(** A camera as the roster reads it. *)
Record Camera : Type := mkCamera {
  cam_id          : Z;
  cam_name        : string;
  cam_latitude    : float;
  cam_longitude   : float;
  cam_route       : option string;
  cam_direction   : option string;
  cam_district    : option string;
  cam_caltrans_id : option string;
  cam_is_active   : bool
}.

(** Where the Leaflet map looks. *)
Inductive View : Type :=
| InitialView                               (* as [L.map] was created *)
| FlownTo (lat lng : float) (zoom : Z).     (* [map.flyTo([lat, lng], zoom, ...)] *)

(** The variables [map] and [cameraMarkers] of heatmap.js.  [cameraMarkers]
    is an object used as a map from camera id to marker; ids are numbers, so
    no property the object inherits is ever looked up.  A marker is known by
    the camera it was made from.  Coordinates are JSON numbers, which Leaflet
    accepts. *)
Record Leaflet : Type := mkLeaflet {
  leaflet_map   : option View;              (* [None] is [null] *)
  cameraMarkers : list (Z * Camera)
}.

(** [innerHTML] of [#cameras-container]. *)
Inductive CameraPanel : Type :=
| CamerasStatic                                         (* what the page was served with *)
| NoCamerasFound                                        (* "No cameras found" *)
| CameraItems (displayed : list Camera) (more : option nat)
                                                        (* the items, and "+n more cameras" *)
| CamerasFailed.                                        (* "Failed to load cameras." *)

(** The variables of cameras.js and the elements only it writes;
    [#camera-count-text] shows its number followed by " active". *)
Record Roster : Type := mkRoster {
  cameras           : list Camera;
  filteredCameras   : list Camera;
  cameras_container : option CameraPanel;
  camera_count_text : option Text;
  mockup_cameras    : option Text;
  stat_cameras      : option Text
}.

(** [innerHTML] of [#info-panel-body]: the rows [focusAlert] writes are a
    function of the alert found and of the coordinates clicked; those
    [_loadCameraDetail] writes, of the camera, of the number of its recent
    incidents, of the class that number is shown in, and of the incidents
    listed. *)
Inductive Details : Type :=
| DetailsStatic
| AlertDetails (alert : Alert) (lat lng : float)
| CameraDetails (camera : Camera) (count : nat) (level : string) (listed : list Incident).

(** The info panel next to the map; [None] is an element the document does
    not have. *)
Record InfoPanel : Type := mkInfoPanel {
  map_info_panel   : option bool;             (* [style.display] is ['block'] *)
  info_panel_title : option (option string);  (* [textContent], once written *)
  info_panel_body  : option Details
}.

Record Site : Type := mkSite {
  dashboard : Dashboard;
  leaflet   : Leaflet;
  roster    : Roster;
  info      : InfoPanel
}.

Definition set_dashboard (d : Dashboard) (s : Site) : Site :=
  mkSite d (leaflet s) (roster s) (info s).
Definition set_leaflet (l : Leaflet) (s : Site) : Site :=
  mkSite (dashboard s) l (roster s) (info s).
Definition set_roster (r : Roster) (s : Site) : Site :=
  mkSite (dashboard s) (leaflet s) r (info s).
Definition set_info (i : InfoPanel) (s : Site) : Site :=
  mkSite (dashboard s) (leaflet s) (roster s) i.

(** Code that reaches beyond the [Dashboard]. *)
Definition SiteJS (A : Type) : Type := M Site (DriveSightSocket.Action HandlerId) A.

(** Code of the alert, heat-map and stats flows, run on the site. *)
Definition in_dashboard {A} (m : D A) : SiteJS A := fun s =>
  let o := m (dashboard s) in
  mkOutcome (result o) (set_dashboard (final o) s) (trace o).

(** What [_formatTime] returns. *)
Inductive TimeLabel : Type :=
| Blank                          (* [''] *)
| JustNow                        (* ['Just now'] *)
| MinutesAgo (n : Z)             (* [`${n} min ago`]; heatmap.js: [`${n}m ago`] *)
| HoursAgo (n : Z)               (* [`${n}h ago`] *)
| LocaleDate (date : option Z).  (* [date.toLocaleString()]; heatmap.js:
                                    [toLocaleDateString()]; [None] is an invalid date *)

(** [(now - date) / 1000] compared and divided, on the time values in
    milliseconds.  Time values are integers below 2^53 in magnitude;
    a difference that matters to the comparisons is below 86400000, so
    the division by 1000, the comparisons with 60, 3600 and 86400 and
    [Math.floor] of the quotients are exact and equal these on integers.
    An invalid date makes the difference [NaN]: every comparison is false. *)
Definition relative_label (now : Z) (date : option Z) : TimeLabel :=
  match date with
  | None => LocaleDate None
  | Some t =>
      let ms := (now - t)%Z in
      if (ms <? 60000)%Z then JustNow
      else if (ms <? 3600000)%Z then MinutesAgo (ms / 60000)
      else if (ms <? 86400000)%Z then HoursAgo (ms / 3600000)
      else LocaleDate (Some t)
  end.

(** ** heatmap.js, the rest of [DriveSightMap] *)

Module MapView.

(** [if (map) map.flyTo([lat, lng], zoom, { duration: 1.5 })] *)
Definition flyTo (lat lng : float) (zoom : Z) : SiteJS unit :=
  modify (fun s =>
    match leaflet_map (leaflet s) with
    | Some _ => set_leaflet (mkLeaflet (Some (FlownTo lat lng zoom)) (cameraMarkers (leaflet s))) s
    | None => s
    end).

(** [cameraMarkers[id]] *)
Fixpoint marker_of (id : Z) (markers : list (Z * Camera)) : option Camera :=
  match markers with
  | [] => None
  | (k, camera) :: rest => if (k =? id)%Z then Some camera else marker_of id rest
  end.

(** A camera that has a marker is skipped; [L.marker(...).addTo(map)] on a
    [null] map is a [TypeError], which ends the [forEach]. *)
Definition addCameraMarkers (cameras : list Camera) : SiteJS unit :=
  forEach cameras (fun camera =>
    l <- gets leaflet ;;
    match marker_of (cam_id camera) (cameraMarkers l) with
    | Some _ => ret tt
    | None =>
        match leaflet_map l with
        | None => throw (TypeError "cannot read properties of null (reading 'addLayer')")
        | Some _ =>
            modify (fun s =>
              set_leaflet (mkLeaflet (leaflet_map (leaflet s))
                                     (cameraMarkers (leaflet s) ++ [(cam_id camera, camera)])) s)
        end
    end).

(** [parse] is [new Date(isoString)] read as a time value, [now] the clock;
    [None] and the empty string are falsy. *)
Definition _formatTime (parse : string -> option Z) (now : Z) (isoString : option string)
    : TimeLabel :=
  match isoString with
  | None => Blank
  | Some EmptyString => Blank
  | Some s => relative_label now (parse s)
  end.

End MapView.

(** ** alerts.js, the rest of [DriveSightAlerts] *)

Module AlertPanel.

(** [a.latitude === lat && a.longitude === lng]: equality of numbers, under
    which [NaN] equals nothing and [0] equals [-0]. *)
Definition at_coordinates (lat lng : float) (a : Alert) : bool :=
  PrimFloat.eqb (latitude a) lat && PrimFloat.eqb (longitude a) lng.

(** Assigning to a property of an element the document lacks is a
    [TypeError]. *)
Definition focusAlert (lat lng : float) : SiteJS unit :=
  MapView.flyTo lat lng 13 ;;
  s <- gets (fun s => s) ;;
  match map_info_panel (info s) with
  | None => ret tt
  | Some _ =>
      modify (fun s => set_info (mkInfoPanel (Some true) (info_panel_title (info s))
                                             (info_panel_body (info s))) s) ;;
      match find (at_coordinates lat lng) (alerts (dashboard s)) with
      | None => ret tt
      | Some alert =>
          (match info_panel_title (info s) with
           | None => throw (TypeError "cannot set properties of null (setting 'textContent')")
           | Some _ =>
               modify (fun s => set_info (mkInfoPanel (map_info_panel (info s))
                                                      (Some (Some (title alert)))
                                                      (info_panel_body (info s))) s)
           end) ;;
          match info_panel_body (info s) with
          | None => throw (TypeError "cannot set properties of null (setting 'innerHTML')")
          | Some _ =>
              modify (fun s => set_info (mkInfoPanel (map_info_panel (info s))
                                                     (info_panel_title (info s))
                                                     (Some (AlertDetails alert lat lng))) s)
          end
      end
  end.

(** [${x}] in the [onclick] attribute, read back as a number when the
    attribute runs: the number [x] itself, except that [-0] is written ["0"]. *)
Definition through_text (x : float) : float := (x + 0)%float.

(** The [onclick] of the [i]-th item of the list [_render] drew:
    [DriveSightAlerts.focusAlert(${alert.latitude}, ${alert.longitude})]. *)
Definition click_item (i : nat) : SiteJS unit :=
  s <- gets (fun s => s) ;;
  match nth_error (alerts (dashboard s)) i with
  | Some a => focusAlert (through_text (latitude a)) (through_text (longitude a))
  | None => ret tt
  end.

Definition _formatTime (parse : string -> option Z) (now : Z) (isoString : option string)
    : TimeLabel :=
  match isoString with
  | None => Blank
  | Some EmptyString => Blank
  | Some s => relative_label now (parse s)
  end.

End AlertPanel.

(** ** cameras.js: the camera roster *)

(** The string methods [_filterCameras] calls. *)
Record StringOps : Type := mkStringOps {
  trim        : string -> string;
  toLowerCase : string -> string;
  includes    : string -> string -> bool     (* [includes s q] is [s.includes(q)] *)
}.

(** What [await fetch(...)] followed by [await resp.json()] gave, for a body
    read through its property [cameras]. *)
Inductive CamerasResponse : Type :=
| CamerasFetchRejected
| CamerasJsonRejected
| CamerasNull                                      (* the body is [null] *)
| CamerasBody (cameras : option (list Camera)).    (* [data.cameras] *)


Module DriveSightCameras.

Definition set_container (p : CameraPanel) (r : Roster) : Roster :=
  mkRoster (cameras r) (filteredCameras r) (Some p) (camera_count_text r)
           (mockup_cameras r) (stat_cameras r).

(** At most 50 items; the rest is counted in a note. *)
Definition _render : SiteJS unit :=
  modify (fun s =>
    let r := roster s in
    match cameras_container r with
    | None => s
    | Some _ =>
        if Nat.eqb (List.length (filteredCameras r)) 0 then
          set_roster (set_container NoCamerasFound r) s
        else
          set_roster
            (set_container
               (CameraItems (firstn 50 (filteredCameras r))
                            (if Nat.ltb 50 (List.length (filteredCameras r))
                             then Some (List.length (filteredCameras r) - 50)
                             else None))
               r) s
    end).

Definition _renderError : SiteJS unit :=
  modify (fun s =>
    match cameras_container (roster s) with
    | Some _ => set_roster (set_container CamerasFailed (roster s)) s
    | None => s
    end).

(** [(x || '')] *)
Definition or_blank (x : option string) : string :=
  match x with
  | Some s => s
  | None => EmptyString
  end.

Definition matches (ops : StringOps) (q : string) (cam : Camera) : bool :=
  includes ops (toLowerCase ops (cam_name cam)) q
  || includes ops (toLowerCase ops (or_blank (cam_route cam))) q
  || includes ops (toLowerCase ops (or_blank (cam_district cam))) q
  || includes ops (toLowerCase ops (or_blank (cam_caltrans_id cam))) q.

Definition _filterCameras (ops : StringOps) (query : string) : SiteJS unit :=
  modify (fun s =>
    let r := roster s in
    set_roster
      (mkRoster (cameras r)
                (match trim ops query with
                 | EmptyString => cameras r
                 | _ => filter (matches ops (toLowerCase ops query)) (cameras r)
                 end)
                (cameras_container r) (camera_count_text r) (mockup_cameras r) (stat_cameras r))
      s) ;;
  _render.

(** [if (el) el.textContent = n] on an element of the roster. *)
Definition write_count (find : Roster -> option Text)
    (store : Text -> Roster -> Roster) (n : Z) : SiteJS unit :=
  modify (fun s =>
    match find (roster s) with
    | Some _ => set_roster (store (Shown n) (roster s)) s
    | None => s
    end).

Definition set_camera_count_text (t : Text) (r : Roster) : Roster :=
  mkRoster (cameras r) (filteredCameras r) (cameras_container r) (Some t)
           (mockup_cameras r) (stat_cameras r).
Definition set_mockup_cameras (t : Text) (r : Roster) : Roster :=
  mkRoster (cameras r) (filteredCameras r) (cameras_container r) (camera_count_text r)
           (Some t) (stat_cameras r).
Definition set_stat_cameras (t : Text) (r : Roster) : Roster :=
  mkRoster (cameras r) (filteredCameras r) (cameras_container r) (camera_count_text r)
           (mockup_cameras r) (Some t).

Definition await_cameras (r : CamerasResponse) : SiteJS (option (list Camera)) :=
  match r with
  | CamerasFetchRejected => throw NetworkError
  | CamerasJsonRejected => throw SyntaxError
  | CamerasNull => throw (TypeError "cannot read properties of null")
  | CamerasBody l => ret l
  end.

(** [async function fetchCameras], from its settled fetch on. *)
Definition fetchCameras_resume (r : CamerasResponse) : SiteJS unit :=
  try_catch
    (l <- await_cameras r ;;
     modify (fun s =>
       let ro := roster s in
       set_roster (mkRoster (or_empty l) (or_empty l) (cameras_container ro)
                            (camera_count_text ro) (mockup_cameras ro) (stat_cameras ro)) s) ;;
     _render ;;
     n <- gets (fun s => Z.of_nat (List.length (cameras (roster s)))) ;;
     write_count camera_count_text set_camera_count_text n ;;
     in_dashboard (write_text dash_cameras_online set_dash_cameras_online n) ;;
     write_count mockup_cameras set_mockup_cameras n ;;
     write_count stat_cameras set_stat_cameras n ;;
     cs <- gets (fun s => cameras (roster s)) ;;
     MapView.addCameraMarkers cs)
    (fun err =>
       tell (DriveSightSocket.ConsoleError "[Cameras] Fetch error:" err) ;;
       _renderError).




End DriveSightCameras.

(** ** part_001: the charts *)

Module Charts.

Record TypeCounts : Type := mkTypeCounts {
  tc_swerving        : option Z;
  tc_speed_variance  : option Z;
  tc_aggressive      : option Z;
  tc_stopped_vehicle : option Z;
  tc_wrong_way       : option Z
}.

Record SeverityCounts : Type := mkSeverityCounts {
  sc_critical : option Z;
  sc_warning  : option Z;
  sc_moderate : option Z;
  sc_low      : option Z
}.

Record TrendPoint : Type := mkTrendPoint {
  tp_date  : string;
  tp_count : Z
}.

(** The stats body as [updateCharts] reads it. *)
Record ChartData : Type := mkChartData {
  type_counts     : option TypeCounts;
  severity_counts : option SeverityCounts;
  daily_trend     : option (list TrendPoint)
}.

(** [chart.data.labels] and [chart.data.datasets[0].data]. *)
Record Chart : Type := mkChart {
  labels  : list string;
  dataset : list Z
}.

(** The three variables; [None] is [null]. *)
Record State : Type := mkState {
  incidentTypeChart : option Chart;
  severityChart     : option Chart;
  trendChart        : option Chart
}.

(** The three canvases the document may have. *)
Record Canvases : Type := mkCanvases {
  incident_type_chart : bool;
  severity_chart      : bool;
  trend_chart         : bool
}.

(** [let incidentTypeChart = null; ...] *)
Definition no_charts : State := mkState None None None.

Definition initCharts (doc : Canvases) (c : State) : State :=
  mkState
    (if incident_type_chart doc
     then Some (mkChart ["Swerving"; "Speed"; "Aggressive"; "Stopped"; "Wrong-Way"]
                        [0; 0; 0; 0; 0]%Z)
     else incidentTypeChart c)
    (if severity_chart doc
     then Some (mkChart ["Critical"; "Warning"; "Moderate"; "Low"] [0; 0; 0; 0]%Z)
     else severityChart c)
    (if trend_chart doc then Some (mkChart [] []) else trendChart c).

(** [n || 0] for a count that may be absent. *)
Definition or_zero (n : option Z) : Z :=
  match n with
  | Some n => n
  | None => 0%Z
  end.

(** [short_date] is [new Date(d.date).toLocaleDateString('en-US',
    { month: 'short', day: 'numeric' })]. *)
Definition updateCharts (short_date : string -> string) (data : ChartData) (c : State) : State :=
  mkState
    (match incidentTypeChart c, type_counts data with
     | Some chart, Some t =>
         Some (mkChart (labels chart)
                       [ or_zero (tc_swerving t); or_zero (tc_speed_variance t);
                         or_zero (tc_aggressive t); or_zero (tc_stopped_vehicle t);
                         or_zero (tc_wrong_way t) ])
     | chart, _ => chart
     end)
    (match severityChart c, severity_counts data with
     | Some chart, Some s =>
         Some (mkChart (labels chart)
                       [ or_zero (sc_critical s); or_zero (sc_warning s);
                         or_zero (sc_moderate s); or_zero (sc_low s) ])
     | chart, _ => chart
     end)
    (match trendChart c, daily_trend data with
     | Some _, Some trend =>
         Some (mkChart (List.map (fun d => short_date (tp_date d)) trend)
                       (List.map tp_count trend))
     | chart, _ => chart
     end).

End Charts.

(** ** Reading a trace *)

Section Observations.
Context {Cb : Type}.

(** The callbacks a piece of code called itself, in order, with their argument. *)
Fixpoint invoked (tr : list (DriveSightSocket.Action Cb)) : list (Cb * Data) :=
  match tr with
  | [] => []
  | DriveSightSocket.Invoke cb data _ _ :: rest => (cb, data) :: invoked rest
  | _ :: rest => invoked rest
  end.

(** The exceptions those calls ended with. *)
Fixpoint thrown (tr : list (DriveSightSocket.Action Cb)) : list Error :=
  match tr with
  | [] => []
  | DriveSightSocket.Invoke _ _ (Some e) _ :: rest => e :: thrown rest
  | _ :: rest => thrown rest
  end.

(** The [console.error] lines the code wrote itself. *)
Fixpoint logged (tr : list (DriveSightSocket.Action Cb)) : list (string * Error) :=
  match tr with
  | [] => []
  | DriveSightSocket.ConsoleError line e :: rest => (line, e) :: logged rest
  | _ :: rest => logged rest
  end.

(** The callbacks of [call] with every exception swallowed inside the callback. *)
Definition quiet {App} (call : Cb -> Data -> DriveSightSocket.JS Cb App unit)
    (cb : Cb) (data : Data) : DriveSightSocket.JS Cb App unit :=
  try_catch (call cb data) (fun _ => ret tt).

End Observations.

Section Dispatch.
Context {Cb App : Type}.

(** One turn of the loop of [_notify]: the callback inside its [try]. *)
Definition guarded (call : Cb -> Data -> DriveSightSocket.JS Cb App unit)
    (event : string) (data : Data) (cb : Cb) : DriveSightSocket.JS Cb App unit :=
  try_catch (DriveSightSocket.invoke call cb data)
            (fun e => tell (DriveSightSocket.ConsoleError
                              (DriveSightSocket.listener_error event) e)).

End Dispatch.

(** ** The pages the dashboard can be in *)

Definition Page : Type := DriveSightSocket.World HandlerId Dashboard.

(** Every page the events can produce from a freshly loaded document. *)
Inductive reachable : Page -> Prop :=
| reachable_boot (doc : Document) : reachable (App.boot doc)
| reachable_step (e : App.Event) (w : Page) :
    reachable w -> reachable (final (App.step e w)).

Definition is_detached (k : Cont) : bool :=
  match k with
  | Detached => true
  | _ => false
  end.

(** The loaders in flight that [initDashboard] is waiting for. *)
Definition awaited (d : Dashboard) : list Cont :=
  filter (fun k => negb (is_detached k)) (map cont (pending d)).

Definition layers_ready (d : Dashboard) : bool :=
  match heatLayer d, markerLayer d with
  | Some _, Some _ => true
  | _, _ => false
  end.

(** The events [connect] binds on its socket. *)
Definition bound_events : list string :=
  [ "connect"; "disconnect"; "connection_ack"; "new_incident";
    "alert_update"; "heatmap_update"; "stats_update" ].

Definition no_listeners : DriveSightSocket.Listeners HandlerId :=
  DriveSightSocket.mkListeners [] [] [] [] [].

(** The registry after [DriveSightAlerts.init] ... *)
Definition alerts_listeners : DriveSightSocket.Listeners HandlerId :=
  DriveSightSocket.mkListeners [AlertsNewIncident] [AlertsAlertUpdate] [] [] [].

(** ... and when [initDashboard] has run to its end. *)
Definition all_listeners : DriveSightSocket.Listeners HandlerId :=
  DriveSightSocket.mkListeners [AlertsNewIncident; AppNewIncident] [AlertsAlertUpdate]
                               [AppHeatmapUpdate] [AppStatsUpdate] [].

(** What decides how the page reacts to an event, apart from the views. *)
Record Shape : Type := mkShape {
  shape_listeners   : DriveSightSocket.Listeners HandlerId;
  shape_bound       : list (list string);
  shape_socket      : option nat;
  shape_initialized : bool;
  shape_awaited     : list Cont;
  shape_layers      : bool
}.

Definition dashboard_shape (d : Dashboard) : bool * list Cont * bool :=
  (dashboardInitialized d, awaited d, layers_ready d).

Definition shape (w : Page) : Shape :=
  let d := DriveSightSocket.app w in
  mkShape (DriveSightSocket.listeners w)
          (map DriveSightSocket.bound (DriveSightSocket.sockets w))
          (DriveSightSocket.socket w)
          (dashboardInitialized d) (awaited d) (layers_ready d).

(** The three stages of a page: before [initDashboard] has got past the map
    (or after the map failed), while it awaits its loaders, and after it. *)
Inductive Stage : Type :=
| Idle
| Loading (k : Cont)
| Ready.

Definition in_stage (s : Stage) (w : Page) : Prop :=
  match s with
  | Idle =>
      DriveSightSocket.listeners w = no_listeners /\
      DriveSightSocket.sockets w = [] /\
      pending (DriveSightSocket.app w) = [] /\
      autoRefresh (DriveSightSocket.app w) = false
  | Loading k =>
      is_detached k = false /\
      shape w = mkShape alerts_listeners [bound_events] (Some 0) true [k] true
  | Ready =>
      shape w = mkShape all_listeners [bound_events] (Some 0) true [] true
  end.

(** ** The views *)

Definition alert_view (w : Page) : list Alert :=
  alerts (DriveSightSocket.app w).

Definition heatmap_view (w : Page) : option (list (float * float * float)) :=
  heatLayer (DriveSightSocket.app w).

(** The four counters [updateStatDisplays] writes. *)
Definition stats_view (w : Page) : option Text * option Text * option Text * option Text :=
  let doc := document (DriveSightSocket.app w) in
  (dash_active_alerts doc, dash_cameras_online doc, dash_incidents_today doc, mockup_alerts doc).

(** ** Sample data *)

Definition a1 : Alert :=
  mkAlert "critical" 34.5%float (-118.25)%float "a1" "Wrong-way driver on I-5" true
          "2024-05-01T10:00:00Z".

Definition a2 : Alert :=
  mkAlert "warning" 37.75%float (-122.5)%float "a2" "Swerving vehicle on US-101" false
          "2024-05-01T10:05:00Z".

(** The [n]-th alert of a burst. *)
Definition alert_no (n : nat) : Alert :=
  mkAlert "warning" 36.5%float (-119.5)%float
          (String (Ascii.ascii_of_nat (48 + n)) EmptyString) "burst" false "2024-05-01T11:00:00Z".

Definition incident1 : Incident :=
  mkIncident "critical" "wrong_way" 34.5%float (-118.25)%float (Some "I-5 North") None
             0.75%float "2024-05-01T10:00:00Z".

(** A document with every element the code looks up. *)
Definition full_document : Document :=
  mkDocument (Some PanelStatic) (Some Static) (Some Static) (Some Static) (Some Static)
             (Some Static) (Some 24%Z) true true.

Definition alerts_body (l : list Alert) : Data :=
  Object (mkObj (Some l) None None None None None None None None None None).

Definition heatmap_body (l : list HeatPoint) : Data :=
  Object (mkObj None (Some l) None None None None None None None None None).

Definition stats_body (active cameras today : Z) : Data :=
  Object (mkObj None None None None None None None None (Some active) (Some cameras) (Some today)).

Definition incident_push (i : Incident) (a : option Alert) : Data :=
  Object (mkObj None None None None (Some i) a None None None None None).

(** The page once [initDashboard] has run to its end and every fetch it
    started has settled with an empty body. *)
Definition ready_page : Page :=
  App.run [ App.EnterDashboard;
            App.Settle 0 (Json (Object empty_obj));
            App.Settle 0 (Json (Object empty_obj));
            App.Settle 0 (Json (Object empty_obj));
            App.Settle 0 (Json (Object empty_obj)) ]
          (App.boot full_document).

(** ** Vocabulary of the statements *)

Section Keeps.
Context {S Act X : Type}.

(** A computation that leaves the observation [f] of the state as it was,
    however it completes. *)
Definition keeps (f : S -> X) {A} (m : M S Act A) : Prop :=
  forall s, f (final (m s)) = f s.

End Keeps.

Section Succeeds.
Context {S Act : Type}.

(** A computation that never throws. *)
Definition succeeds {A} (m : M S Act A) : Prop :=
  forall s, exists a, result (m s) = Ok a.

End Succeeds.

(** The two subscriptions, appended to what a socket has emitted. *)
Definition announce (t : DriveSightSocket.Transport) : DriveSightSocket.Transport :=
  DriveSightSocket.mkTransport
    (DriveSightSocket.opts t) (DriveSightSocket.bound t) (DriveSightSocket.connected t)
    (DriveSightSocket.sent t ++ [("subscribe_alerts", Undefined); ("subscribe_heatmap", Undefined)]).

(** [socket.on(name, ...)] on one socket. *)
Definition bind_on (name : string) (t : DriveSightSocket.Transport) : DriveSightSocket.Transport :=
  DriveSightSocket.mkTransport
    (DriveSightSocket.opts t) (DriveSightSocket.bound t ++ [name])
    (DriveSightSocket.connected t) (DriveSightSocket.sent t).

(** The indicator as [_updateConnectionUI] leaves it. *)
Definition live : DriveSightSocket.Indicator :=
  DriveSightSocket.mkIndicator "connection-dot connected" "Live" "rgba(46, 196, 182, 0.2)".

Definition reconnecting : DriveSightSocket.Indicator :=
  DriveSightSocket.mkIndicator "connection-dot disconnected" "Reconnecting..."
                               "rgba(230, 57, 70, 0.2)".

(** The page with the [i]-th fetch taken off the list of fetches in flight ... *)
Definition unqueued (w : Page) (i : nat) : Dashboard :=
  set_pending (App.remove_nth i (pending (DriveSightSocket.app w))) (DriveSightSocket.app w).

(** ... and after the loader [p] that awaited it has run on the response [r]. *)
Definition settled (w : Page) (i : nat) (r : Response) (p : Pending) : Page :=
  DriveSightSocket.set_app (final (App.loader_resume (pull p) r (unqueued w i))) w.

(** A fetch whose body never became an object. *)
Definition failed (r : Response) : option Error :=
  match r with
  | FetchRejected => Some NetworkError
  | JsonRejected => Some SyntaxError
  | Json Undefined => Some (TypeError "cannot read properties of undefined")
  | Json (Object _) => None
  end.

(** [_renderError] on a document. *)
Definition with_error_panel (doc : Document) : Document :=
  match alerts_container doc with
  | Some _ => set_alerts_container PanelError doc
  | None => doc
  end.

(** The alert a push carries, if any. *)
Definition pushed_alert (data : Data) : option Alert :=
  match data with
  | Object o => o_alert o
  | Undefined => None
  end.

(** The alert view after [new_incident] fires with [data] on socket [k]. *)
Definition after_push (w : Page) (k : nat) (data : Data) : list Alert :=
  match nth_error (DriveSightSocket.sockets w) k, pushed_alert data with
  | Some _, Some a => firstn 30 (a :: alert_view w)
  | _, _ => alert_view w
  end.

(** Pushes of [new_incident], each on a socket and with a payload. *)
Definition new_incident_frames (pushes : list (nat * Data)) : list App.Event :=
  map (fun p => App.Frame (fst p) "new_incident" (snd p)) pushes.

(** Payloads pushed on the socket [connect] opened. *)
Definition on_socket_0 (payloads : list Data) : list (nat * Data) :=
  map (fun data => (0, data)) payloads.

(** The alerts number 1 to [n]. *)
Definition burst (n : nat) : list Alert := map alert_no (seq 1 n).

(** A push that carries the sample incident and the alert [a]. *)
Definition alert_push (a : Alert) : Data := incident_push incident1 (Some a).

(** Every counter the document has shows [n]. *)
Definition shows (e : option Text) (n : Z) : Prop :=
  match e with
  | Some t => t = Shown n
  | None => True
  end.

(** The indicator that goes with the state of a socket. *)
Definition shown_connection (t : DriveSightSocket.Transport) : DriveSightSocket.Indicator :=
  if DriveSightSocket.connected t then live else reconnecting.

(** No socket and no indicator yet; or one socket that has seen no
    connection event; or one socket and the indicator that goes with it. *)
Definition connection_shown (w : Page) : Prop :=
  match DriveSightSocket.sockets w, DriveSightSocket.indicator w with
  | [], None => True
  | [t], None => DriveSightSocket.connected t = false
  | [t], Some i => i = shown_connection t
  | _, _ => False
  end.

(** The sockets and the indicator of a page. *)
Definition wire (w : Page) : list DriveSightSocket.Transport * option DriveSightSocket.Indicator :=
  (DriveSightSocket.sockets w, DriveSightSocket.indicator w).

(** The events the server pushes. *)
Definition push_events : list string :=
  ["new_incident"; "alert_update"; "heatmap_update"; "stats_update"].


(** The heat points a push carries, if any. *)
Definition pushed_heatmap (data : Data) : option (list HeatPoint) :=
  match data with
  | Object o => o_heatmap o
  | Undefined => None
  end.

(** A counter after [if (el && value !== undefined) el.textContent = value]. *)
Definition counter_after (el : option Text) (value : option Z) : option Text :=
  match el, value with
  | Some _, Some n => Some (Shown n)
  | _, _ => el
  end.

(** The line a loader logs when its pull fails. *)
Definition load_error (p : Pull) : string :=
  match p with
  | PullAlerts => "[Alerts] Fetch error:"
  | PullHeatmap _ => "[App] Heatmap load error:"
  | PullIncidents _ => "[App] Incidents load error:"
  | PullStats => "[App] Stats load error:"
  end.

(** [innerHTML] of the alert panel for the list [l]. *)
Definition alerts_panel (l : list Alert) : Panel :=
  if Nat.eqb (List.length l) 0 then PanelAllClear else PanelList l.

(** A document in which the alert panel and its two counters show the
    list [l]; a document without [#alerts-container] is left as it is. *)
Definition rendered (l : list Alert) (doc : Document) : Document :=
  match alerts_container doc with
  | None => doc
  | Some _ =>
      mkDocument (Some (alerts_panel l))
                 (counter_after (alert_count_badge doc) (Some (Z.of_nat (List.length l))))
                 (counter_after (dash_active_alerts doc) (Some (Z.of_nat (List.length l))))
                 (dash_cameras_online doc) (dash_incidents_today doc) (mockup_alerts doc)
                 (timerange_select doc) (refresh_btn doc) (heatmap_div doc)
  end.

(** The window the selector shows. *)
Definition selected_hours (d : Dashboard) : Z :=
  match timerange_select (document d) with
  | Some h => h
  | None => 24%Z
  end.

(** The four fetches one [refreshAll] starts. *)
Definition refresh_pulls (hours : Z) : list Pending :=
  [ mkPending (PullHeatmap hours) Detached; mkPending (PullIncidents hours) Detached;
    mkPending PullStats Detached; mkPending PullAlerts Detached ].



(** The markers once [addCameraMarkers] has looked at one camera. *)
Definition place (markers : list (Z * Camera)) (camera : Camera) : list (Z * Camera) :=
  match MapView.marker_of (cam_id camera) markers with
  | Some _ => markers
  | None => markers ++ [(cam_id camera, camera)]
  end.

Definition has_id (id : Z) (camera : Camera) : bool := (cam_id camera =? id)%Z.

(** A camera pull whose body never became an object. *)
Definition failed_cameras (r : CamerasResponse) : option Error :=
  match r with
  | CamerasFetchRejected => Some NetworkError
  | CamerasJsonRejected => Some SyntaxError
  | CamerasNull => Some (TypeError "cannot read properties of null")
  | CamerasBody _ => None
  end.


(** The camera has a marker. *)
Definition marked (markers : list (Z * Camera)) (camera : Camera) : bool :=
  match MapView.marker_of (cam_id camera) markers with
  | Some _ => true
  | None => false
  end.

(** The exception an event ends with on the page [w], if any. *)
Definition uncaught (w : Page) (e : App.Event) : option Error :=
  match e with
  | App.EnterDashboard =>
      if dashboardInitialized (DriveSightSocket.app w)
         || heatmap_div (document (DriveSightSocket.app w))
      then None
      else Some (Raised "Map container not found.")
  | App.Frame k name data =>
      match nth_error (DriveSightSocket.sockets w) k, data with
      | Some _, Undefined =>
          if name =? "connection_ack"
          then Some (TypeError "cannot read properties of undefined")
          else None
      | _, _ => None
      end
  | _ => None
  end.

(** The number a camera panel leaves to its note. *)
Definition noted (more : option nat) : nat :=
  match more with
  | Some m => m
  | None => 0
  end.

(** [innerHTML] of the camera panel for the list [l]. *)
Definition cameras_panel (l : list Camera) : CameraPanel :=
  if Nat.eqb (List.length l) 0 then NoCamerasFound
  else CameraItems (firstn 50 l)
                   (if Nat.ltb 50 (List.length l) then Some (List.length l - 50) else None).

(** A camera panel that shows the list [l]: its first 50 cameras, and a
    note that counts the others. *)
Definition shows_cameras (panel : CameraPanel) (l : list Camera) : Prop :=
  match panel with
  | NoCamerasFound => l = []
  | CameraItems displayed more =>
      l <> [] /\
      displayed = firstn 50 l /\
      List.length displayed <= 50 /\
      List.length displayed + noted more = List.length l /\
      (more = None <-> List.length l <= 50)
  | _ => False
  end.

(** The charts the document has canvases for exist, and each has the shape
    its chart type needs. *)
Definition charts_well_formed (doc : Charts.Canvases) (c : Charts.State) : Prop :=
  match Charts.incidentTypeChart c with
  | Some chart =>
      Charts.incident_type_chart doc = true /\
      Charts.labels chart = ["Swerving"; "Speed"; "Aggressive"; "Stopped"; "Wrong-Way"] /\
      List.length (Charts.dataset chart) = 5
  | None => Charts.incident_type_chart doc = false
  end /\
  match Charts.severityChart c with
  | Some chart =>
      Charts.severity_chart doc = true /\
      Charts.labels chart = ["Critical"; "Warning"; "Moderate"; "Low"] /\
      List.length (Charts.dataset chart) = 4
  | None => Charts.severity_chart doc = false
  end /\
  match Charts.trendChart c with
  | Some chart =>
      Charts.trend_chart doc = true /\
      List.length (Charts.labels chart) = List.length (Charts.dataset chart)
  | None => Charts.trend_chart doc = false
  end.

(** ** More sample data *)

(** The socket [connect] opens. *)
Definition socket_0 : DriveSightSocket.Transport :=
  DriveSightSocket.mkTransport (DriveSightSocket.mkIoOptions true 2000 20) bound_events false [].

(** The page while [initDashboard] awaits its first loader. *)
Definition loading_page : Page :=
  App.run [App.EnterDashboard] (App.boot full_document).

(** The ready page once its socket has connected. *)
Definition live_page : Page :=
  App.run [App.Frame 0 "connect" Undefined] ready_page.

(** A document without the map container. *)
Definition mapless_document : Document :=
  mkDocument (Some PanelStatic) (Some Static) (Some Static) (Some Static) (Some Static)
             (Some Static) (Some 24%Z) true false.


(** The string methods on ASCII text, for running [_filterCameras]. *)
Definition ascii_is_space (c : Ascii.ascii) : bool :=
  let n := Ascii.nat_of_ascii c in
  Nat.eqb n 32 || (Nat.leb 9 n && Nat.leb n 13).

Fixpoint ascii_trim_start (s : string) : string :=
  match s with
  | String c rest => if ascii_is_space c then ascii_trim_start rest else s
  | EmptyString => EmptyString
  end.

Fixpoint ascii_reverse (s acc : string) : string :=
  match s with
  | String c rest => ascii_reverse rest (String c acc)
  | EmptyString => acc
  end.

Definition ascii_trim (s : string) : string :=
  ascii_reverse (ascii_trim_start (ascii_reverse (ascii_trim_start s) EmptyString)) EmptyString.

Definition ascii_lower (c : Ascii.ascii) : Ascii.ascii :=
  let n := Ascii.nat_of_ascii c in
  if Nat.leb 65 n && Nat.leb n 90 then Ascii.ascii_of_nat (n + 32) else c.

Fixpoint ascii_toLowerCase (s : string) : string :=
  match s with
  | String c rest => String (ascii_lower c) (ascii_toLowerCase rest)
  | EmptyString => EmptyString
  end.

Fixpoint ascii_includes (s q : string) : bool :=
  String.prefix q s ||
  match s with
  | String _ rest => ascii_includes rest q
  | EmptyString => false
  end.

Definition ascii_ops : StringOps := mkStringOps ascii_trim ascii_toLowerCase ascii_includes.

(** The [n]-th camera of a district. *)
Definition camera_no (n : nat) : Camera :=
  mkCamera (Z.of_nat n) "I-5 at Main St" 34.5%float (-118.25)%float (Some "I-5") (Some "N")
           (Some "District 7") None true.

Definition camera_101 : Camera :=
  mkCamera 101 "US-101 at Oak Ave" 37.75%float (-122.5)%float (Some "US-101") (Some "S")
           (Some "District 4") (Some "C101") true.

(** Two alerts raised at the same camera. *)
Definition a3 : Alert :=
  mkAlert "critical" 34.5%float (-118.25)%float "a3" "Stopped vehicle on I-5" false
          "2024-05-01T10:10:00Z".

(** A site whose map was never initialised. *)
Definition mapless_site : Site :=
  mkSite (mkDashboard [] None None mapless_document [] true false)
         (mkLeaflet None [])
         (mkRoster [] [] (Some CamerasStatic) (Some Static) (Some Static) (Some Static))
         (mkInfoPanel (Some false) (Some None) (Some DetailsStatic)).

(** A site whose document has every element, with the map initialised. *)
Definition full_site (l : list Alert) : Site :=
  mkSite (mkDashboard l (Some []) (Some []) full_document [] true true)
         (mkLeaflet (Some InitialView) [])
         (mkRoster [] [] (Some CamerasStatic) (Some Static) (Some Static) (Some Static))
         (mkInfoPanel (Some false) (Some None) (Some DetailsStatic)).

(** * Properties *)

(** ** The monad *)

Section MonadFacts.
Context {S Act : Type}.

Lemma bind_assoc {A B C} (m : M S Act A) (k : A -> M S Act B) (h : B -> M S Act C) s :
  bind (bind m k) h s = bind m (fun a => bind (k a) h) s.
Proof.
  unfold bind. destruct (result (m s)) as [a|e]; cbn; [|reflexivity].
  destruct (result (k a (final (m s)))) as [b|e]; cbn; [|reflexivity].
  rewrite app_assoc. reflexivity.
Qed.

Lemma bind_runs {A B} (m : M S Act A) (k : A -> M S Act B) s s' a tr :
  m s = mkOutcome (Ok a) s' tr ->
  bind m k s = mkOutcome (result (k a s')) (final (k a s')) (tr ++ trace (k a s')).
Proof. intros E. unfold bind. rewrite E. reflexivity. Qed.

Lemma succeeds_ret {A} (a : A) : succeeds (ret a : M S Act A).
Proof. intros s. exists a. reflexivity. Qed.

Lemma succeeds_tell (a : Act) : succeeds (tell a : M S Act unit).
Proof. intros s. exists tt. reflexivity. Qed.

Lemma succeeds_gets {A} (g : S -> A) : succeeds (gets g : M S Act A).
Proof. intros s. exists (g s). reflexivity. Qed.

Lemma succeeds_modify (g : S -> S) : succeeds (modify g : M S Act unit).
Proof. intros s. exists tt. reflexivity. Qed.

Lemma succeeds_bind {A B} (m : M S Act A) (k : A -> M S Act B) :
  succeeds m -> (forall a, succeeds (k a)) -> succeeds (bind m k).
Proof.
  intros Hm Hk s. unfold bind. destruct (Hm s) as [a Ha]. rewrite Ha. cbn.
  apply Hk.
Qed.

Lemma succeeds_try_catch {A} (m : M S Act A) (h : Error -> M S Act A) :
  (forall e, succeeds (h e)) -> succeeds (try_catch m h).
Proof.
  intros Hh s. unfold try_catch. destruct (result (m s)) as [a|e] eqn:E.
  - exists a. exact E.
  - cbn. apply Hh.
Qed.

Lemma succeeds_unit (m : M S Act unit) s : succeeds m -> result (m s) = Ok tt.
Proof. intros H. destruct (H s) as [[] E]. exact E. Qed.

Context {X : Type}.
Variable f : S -> X.

Lemma keeps_ret {A} (a : A) : keeps f (ret a : M S Act A).
Proof. intros s. reflexivity. Qed.

Lemma keeps_throw {A} (e : Error) : keeps f (throw e : M S Act A).
Proof. intros s. reflexivity. Qed.

Lemma keeps_tell (a : Act) : keeps f (tell a : M S Act unit).
Proof. intros s. reflexivity. Qed.

Lemma keeps_gets {A} (g : S -> A) : keeps f (gets g : M S Act A).
Proof. intros s. reflexivity. Qed.

Lemma keeps_modify (g : S -> S) :
  (forall s, f (g s) = f s) -> keeps f (modify g : M S Act unit).
Proof. intros H s. apply H. Qed.

Lemma keeps_bind {A B} (m : M S Act A) (k : A -> M S Act B) :
  keeps f m -> (forall a, keeps f (k a)) -> keeps f (bind m k).
Proof.
  intros Hm Hk s. unfold bind.
  destruct (result (m s)) as [a|e] eqn:E; cbn.
  - rewrite Hk. apply Hm.
  - apply Hm.
Qed.

Lemma keeps_try_catch {A} (m : M S Act A) (h : Error -> M S Act A) :
  keeps f m -> (forall e, keeps f (h e)) -> keeps f (try_catch m h).
Proof.
  intros Hm Hh s. unfold try_catch.
  destruct (result (m s)) as [a|e] eqn:E; cbn.
  - apply Hm.
  - rewrite Hh. apply Hm.
Qed.

Lemma keeps_forEach {Y} (xs : list Y) (g : Y -> M S Act unit) :
  (forall x, keeps f (g x)) -> keeps f (forEach xs g).
Proof.
  intros Hg. induction xs as [|x xs IH].
  - apply keeps_ret.
  - cbn [forEach]. apply keeps_bind; [apply Hg | intros _; exact IH].
Qed.
End MonadFacts.

(** ** Traces *)

Section TraceFacts.
Context {Cb : Type}.
Implicit Types tr : list (DriveSightSocket.Action Cb).

Lemma invoked_app tr tr' : invoked (tr ++ tr') = invoked tr ++ invoked tr'.
Proof.
  induction tr as [|a tr IH]; [reflexivity|].
  destruct a; simpl; rewrite IH; reflexivity.
Qed.

Lemma thrown_app tr tr' : thrown (tr ++ tr') = thrown tr ++ thrown tr'.
Proof.
  induction tr as [|a tr IH]; [reflexivity|].
  destruct a as [| |cb d [e|] did]; simpl; rewrite IH; reflexivity.
Qed.

Lemma logged_app tr tr' : logged (tr ++ tr') = logged tr ++ logged tr'.
Proof.
  induction tr as [|a tr IH]; [reflexivity|].
  destruct a; simpl; rewrite IH; reflexivity.
Qed.
End TraceFacts.

(** ** Lists updated by index *)

Section UpdateNth.
Context {X : Type}.
Import DriveSightSocket.

Lemma update_nth_last (g : X -> X) (xs : list X) (x : X) :
  update_nth (List.length xs) g (xs ++ [x]) = xs ++ [g x].
Proof.
  induction xs as [|y xs IH]; cbn; [reflexivity | rewrite IH; reflexivity].
Qed.

Lemma update_nth_twice (k : nat) (g h : X -> X) (xs : list X) :
  update_nth k g (update_nth k h xs) = update_nth k (fun x => g (h x)) xs.
Proof.
  revert k. induction xs as [|x xs IH]; intros [|k]; cbn; try reflexivity.
  rewrite IH. reflexivity.
Qed.

Lemma update_nth_ext (k : nat) (g h : X -> X) (xs : list X) :
  (forall x, g x = h x) -> update_nth k g xs = update_nth k h xs.
Proof.
  intros E. revert k. induction xs as [|x xs IH]; intros [|k]; cbn; try reflexivity.
  - rewrite E. reflexivity.
  - rewrite IH. reflexivity.
Qed.

Lemma map_update_nth {Y} (p : X -> Y) (k : nat) (g : X -> X) (xs : list X) :
  (forall x, p (g x) = p x) -> map p (update_nth k g xs) = map p xs.
Proof.
  intros E. revert k. induction xs as [|x xs IH]; intros [|k]; cbn; try reflexivity.
  - rewrite E. reflexivity.
  - rewrite IH. reflexivity.
Qed.
End UpdateNth.

Lemma existsb_In (name : string) (names : list string) :
  In name names -> existsb (String.eqb name) names = true.
Proof.
  intros H. apply existsb_exists. exists name. split; [exact H | apply String.eqb_refl].
Qed.

(** ** The WebSocket client *)

Section SocketFacts.
Context {Cb App : Type}.
Import DriveSightSocket.
Implicit Types (call : Cb -> Data -> JS Cb App unit) (w : World Cb App).

Lemma notify_own call event data w cbs :
  get (listeners w) event = Own cbs ->
  _notify call event data w = forEach cbs (guarded call event data) w.
Proof.
  intros H. unfold _notify, bind, gets. cbn. rewrite H. reflexivity.
Qed.

Lemma guarded_ok call event data cb w :
  result (guarded call event data cb w) = Ok tt.
Proof.
  unfold guarded, try_catch, invoke.
  destruct (result (call cb data w)); reflexivity.
Qed.

Lemma guarded_trace call event data cb w :
  let tr := trace (guarded call event data cb w) in
  invoked tr = [(cb, data)] /\
  logged tr = map (fun e => (listener_error event, e)) (thrown tr).
Proof.
  unfold guarded, try_catch, invoke.
  destruct (result (call cb data w)); cbn; split; reflexivity.
Qed.

Lemma guarded_quiet call event data cb w :
  final (guarded call event data cb w) = final (guarded (quiet call) event data cb w).
Proof.
  unfold guarded, try_catch, invoke, quiet, try_catch.
  destruct (result (call cb data w)) eqn:E; cbn; rewrite ?E; cbn; rewrite ?E; reflexivity.
Qed.

Lemma forEach_guarded call event data cbs : forall w,
  let o := forEach cbs (guarded call event data) w in
  result o = Ok tt /\
  invoked (trace o) = map (fun cb => (cb, data)) cbs /\
  logged (trace o) = map (fun e => (listener_error event, e)) (thrown (trace o)) /\
  final o = final (forEach cbs (guarded (quiet call) event data) w).
Proof.
  induction cbs as [|cb cbs IH]; intros w.
  - cbn. repeat split.
  - cbn [forEach]. unfold bind.
    rewrite !guarded_ok.
    destruct (guarded_trace call event data cb w) as [Hi Hl].
    specialize (IH (final (guarded call event data cb w))).
    cbn zeta in IH. destruct IH as (Hr & Hi' & Hl' & Hf).
    cbn [result final trace].
    rewrite invoked_app, logged_app, thrown_app, map_app, Hi, Hl, Hi', Hl'.
    rewrite <- guarded_quiet. repeat split; assumption.
Qed.

Lemma keeps_invoke {X} (f : World Cb App -> X) call cb data :
  keeps f (call cb data) -> keeps f (invoke call cb data).
Proof.
  intros H w. unfold invoke.
  destruct (result (call cb data w)); cbn; apply H.
Qed.

Lemma keeps_notify {X} (f : World Cb App -> X) call event data :
  (forall cb, keeps f (call cb data)) -> keeps f (_notify call event data).
Proof.
  intros H. unfold _notify. apply keeps_bind; [apply keeps_gets|].
  intros l. destruct (get l event).
  - apply keeps_forEach. intros cb. apply keeps_try_catch.
    + apply keeps_invoke, H.
    + intros e. apply keeps_tell.
  - apply keeps_throw.
  - apply keeps_ret.
Qed.

Lemma socket_emit_at name data w s :
  socket w = Some s ->
  socket_emit name data w =
  mkOutcome (Ok tt)
    (set_sockets (update_nth s (fun t => mkTransport (opts t) (bound t) (connected t)
                                            (sent t ++ [(name, data)])) (sockets w)) w) [].
Proof.
  intros H. unfold socket_emit, on_socket, bind, gets. cbn. rewrite H. reflexivity.
Qed.

Lemma socket_on_at name w s :
  socket w = Some s ->
  socket_on name w =
  mkOutcome (Ok tt)
    (set_sockets (update_nth s (fun t => mkTransport (opts t) (bound t ++ [name]) (connected t)
                                            (sent t)) (sockets w)) w) [].
Proof.
  intros H. unfold socket_on, on_socket, bind, gets. cbn. rewrite H. reflexivity.
Qed.

Lemma socket_on_last name w ts t :
  socket w = Some (List.length ts) -> sockets w = ts ++ [t] ->
  socket_on name w = mkOutcome (Ok tt) (set_sockets (ts ++ [bind_on name t]) w) [].
Proof.
  intros Hs Hts. rewrite (socket_on_at _ _ _ Hs), Hts, update_nth_last. reflexivity.
Qed.

Lemma connect_runs w :
  connect (Cb:=Cb) (App:=App) w =
  mkOutcome (Ok (List.length (sockets w)))
    (set_socket (Some (List.length (sockets w)))
       (set_sockets (sockets w ++ [mkTransport (mkIoOptions true 2000 20) bound_events false []]) w))
    [].
Proof.
  unfold connect.
  erewrite bind_runs by reflexivity.
  erewrite bind_runs by reflexivity.
  repeat (erewrite bind_runs by (apply socket_on_last; reflexivity)).
  erewrite bind_runs by reflexivity.
  reflexivity.
Qed.

Lemma emit_twice w s :
  socket w = Some s ->
  bind (socket_emit "subscribe_alerts" Undefined)
       (fun _ => socket_emit "subscribe_heatmap" Undefined) w =
  mkOutcome (Ok tt) (set_sockets (update_nth s announce (sockets w)) w) [].
Proof.
  intros Hs.
  erewrite bind_runs by (apply socket_emit_at; exact Hs).
  rewrite (socket_emit_at _ _ _ s) by exact Hs. cbn [result final trace sockets set_sockets app].
  unfold set_sockets at 1. cbn [socket listeners sockets indicator app set_sockets].
  rewrite update_nth_twice.
  rewrite (update_nth_ext s _ announce); [reflexivity|].
  intros t. unfold announce. cbn. rewrite <- app_assoc. reflexivity.
Qed.

Lemma on_connect_runs call s w :
  socket w = Some s ->
  let n := _notify call "connection_change" (payload_connected true)
                   (set_sockets (update_nth s announce (sockets w)) w) in
  result n = Ok tt ->
  on_connect call w =
  mkOutcome (Ok tt) (set_indicator (Some live) (final n))
            (ConsoleLog "[WS] Connected to DriveSight server" :: trace n).
Proof.
  intros Hs n Hn. unfold on_connect.
  erewrite bind_runs by reflexivity.
  rewrite <- bind_assoc.
  erewrite (bind_runs (bind _ _)) by (apply emit_twice; exact Hs).
  assert (En : _notify call "connection_change" (payload_connected true)
                 (set_sockets (update_nth s announce (sockets w)) w)
               = mkOutcome (Ok tt) (final n) (trace n)).
  { rewrite <- Hn. reflexivity. }
  erewrite bind_runs by exact En.
  cbn [_updateConnectionUI modify result final trace app]. rewrite app_nil_r. reflexivity.
Qed.

Lemma on_disconnect_runs call w :
  let n := _notify call "connection_change" (payload_connected false) w in
  result n = Ok tt ->
  on_disconnect call w =
  mkOutcome (Ok tt) (set_indicator (Some reconnecting) (final n))
            (ConsoleLog "[WS] Disconnected" :: trace n).
Proof.
  intros n Hn. unfold on_disconnect.
  erewrite bind_runs by reflexivity.
  assert (En : _notify call "connection_change" (payload_connected false) w
               = mkOutcome (Ok tt) (final n) (trace n)).
  { rewrite <- Hn. reflexivity. }
  erewrite bind_runs by exact En.
  cbn [_updateConnectionUI modify result final trace app]. rewrite app_nil_r. reflexivity.
Qed.
End SocketFacts.

(** ** Proof automation for the page modules *)

Create HintDb keeps.
Create HintDb succeeds.
(** The function a computation starts with. *)
Ltac head_of t :=
  match t with
  | ?f _ => head_of f
  | _ => t
  end.

(** The state a [modify] leaves, branch by branch. *)
Ltac keeps_leaf :=
  intros ?;
  repeat match goal with
         | |- context [match ?x with _ => _ end] => destruct x
         end;
  reflexivity.

(** Splits a goal [keeps f m] along the structure of [m]. *)
Ltac keeps_split :=
  match goal with
  | |- keeps _ (bind _ _) => apply keeps_bind; [|intros ?]
  | |- keeps _ (try_catch _ _) => apply keeps_try_catch; [|intros ?]
  | |- keeps _ (forEach _ _) => apply keeps_forEach; intros ?
  | |- keeps _ (ret _) => apply keeps_ret
  | |- keeps _ (throw _) => apply keeps_throw
  | |- keeps _ (tell _) => apply keeps_tell
  | |- keeps _ (gets _) => apply keeps_gets
  | |- keeps _ (modify _) => apply keeps_modify; keeps_leaf
  | |- keeps _ (match ?x with _ => _ end) => destruct x
  | |- keeps _ ?m => let h := head_of m in progress unfold h
  end.

Ltac keeps_auto := repeat first [ solve [auto with keeps nocore] | keeps_split ].

Ltac succeeds_split :=
  match goal with
  | |- succeeds (bind _ _) => apply succeeds_bind; [|intros ?]
  | |- succeeds (try_catch _ _) => apply succeeds_try_catch; intros ?
  | |- succeeds (ret _) => apply succeeds_ret
  | |- succeeds (tell _) => apply succeeds_tell
  | |- succeeds (gets _) => apply succeeds_gets
  | |- succeeds (modify _) => apply succeeds_modify
  | |- succeeds (match ?x with _ => _ end) => destruct x
  | |- succeeds ?m => let h := head_of m in progress unfold h
  end.

Ltac succeeds_auto := repeat first [ solve [auto with succeeds nocore] | succeeds_split ].

(** ** The page modules leave the shape of the page alone *)

Lemma awaited_detached (d : Dashboard) (p : Pull) :
  awaited (set_pending (pending d ++ [mkPending p Detached]) d) = awaited d.
Proof.
  unfold awaited. cbn [pending set_pending]. rewrite map_app, filter_app. cbn. apply app_nil_r.
Qed.

Lemma awaited_fetch (d : Dashboard) (p : Pull) (k : Cont) :
  is_detached k = false ->
  awaited (set_pending (pending d ++ [mkPending p k]) d) = awaited d ++ [k].
Proof.
  intros Hk. unfold awaited. cbn [pending set_pending]. rewrite map_app, filter_app. cbn.
  rewrite Hk. reflexivity.
Qed.

Lemma keeps_fetch_detached (p : Pull) : keeps dashboard_shape (fetch p Detached).
Proof.
  intros d. unfold dashboard_shape. cbn [fetch modify final].
  rewrite awaited_detached. reflexivity.
Qed.

Lemma keeps_updateHeatmap h : keeps dashboard_shape (DriveSightMap.updateHeatmap h).
Proof. intros d. destruct d as [? [?|] [?|] ? ? ? ?], h; reflexivity. Qed.

Lemma keeps_addIncidentMarkers l : keeps dashboard_shape (DriveSightMap.addIncidentMarkers l).
Proof. intros d. destruct d as [? [?|] [?|] ? ? ? ?]; reflexivity. Qed.

#[local] Hint Resolve keeps_fetch_detached keeps_updateHeatmap keeps_addIncidentMarkers : keeps.

Lemma keeps_loader_resume p r : keeps dashboard_shape (App.loader_resume p r).
Proof. destruct p; cbn [App.loader_resume]; keeps_auto. Qed.

Lemma keeps_refreshAll : keeps dashboard_shape App.refreshAll.
Proof. keeps_auto. Qed.

Lemma loader_resume_ok p r d : result (App.loader_resume p r d) = Ok tt.
Proof. apply succeeds_unit. destruct p; cbn [App.loader_resume]; succeeds_auto. Qed.

(** Code of a page module changes the page only. *)
Lemma shape_set_app (w : Page) (d : Dashboard) :
  dashboard_shape d = dashboard_shape (DriveSightSocket.app w) ->
  shape (DriveSightSocket.set_app d w) = shape w.
Proof.
  unfold dashboard_shape, shape. cbn. intros E. injection E as -> -> ->. reflexivity.
Qed.

Lemma keeps_in_app {A} (m : D A) :
  keeps dashboard_shape m -> keeps shape (in_app m).
Proof.
  intros H w. unfold in_app. cbn [final]. apply shape_set_app, H.
Qed.

Lemma keeps_call cb data : keeps shape (App.call cb data).
Proof. destruct cb; cbn [App.call]; apply keeps_in_app; keeps_auto. Qed.

Section PageSocket.
Import DriveSightSocket.

Lemma keeps_on_socket f :
  (forall t, bound (f t) = bound t) -> keeps shape (on_socket (Cb:=HandlerId) (App:=Dashboard) f).
Proof.
  intros Hf w. unfold on_socket, bind, gets. cbn [result final].
  destruct (socket w); [|reflexivity].
  cbn [modify final result]. unfold shape. cbn [sockets set_sockets listeners socket app].
  rewrite (map_update_nth bound _ f _ Hf). reflexivity.
Qed.

Lemma keeps_socket_emit name data :
  keeps shape (socket_emit (Cb:=HandlerId) (App:=Dashboard) name data).
Proof. apply keeps_on_socket. reflexivity. Qed.

Lemma keeps_updateConnectionUI b :
  keeps shape (_updateConnectionUI (Cb:=HandlerId) (App:=Dashboard) b).
Proof. intros w. reflexivity. Qed.

Lemma keeps_notify_page event data : keeps shape (_notify App.call event data).
Proof. apply keeps_notify. intros cb. apply keeps_call. Qed.

#[local] Hint Resolve keeps_socket_emit keeps_updateConnectionUI keeps_notify_page : keeps.

Lemma keeps_socket_handler name data h :
  socket_handler App.call name data = Some h -> keeps shape h.
Proof.
  unfold socket_handler.
  repeat match goal with
         | |- (if ?c then _ else _) = _ -> _ => destruct c
         end;
    intros E; inversion E; subst h; clear E.
  - unfold on_connect. keeps_auto.
  - unfold on_disconnect. keeps_auto.
  - unfold on_connection_ack. keeps_auto.
  - unfold on_new_incident. keeps_auto.
  - unfold on_alert_update. keeps_auto.
  - unfold on_heatmap_update. keeps_auto.
  - unfold on_stats_update. keeps_auto.
Qed.

Lemma shape_mark_connected k name (w : Page) : shape (mark_connected k name w) = shape w.
Proof.
  unfold mark_connected.
  repeat match goal with |- context [if ?c then _ else _] => destruct c end;
    try reflexivity;
    unfold shape; cbn [sockets set_sockets listeners socket app];
    rewrite map_update_nth by reflexivity; reflexivity.
Qed.

Lemma keeps_deliver k name data : keeps shape (deliver App.call k name data).
Proof.
  intros w. unfold deliver.
  destruct (nth_error (sockets w) k) as [t|]; [|reflexivity].
  destruct (existsb (String.eqb name) (bound t)); [|reflexivity].
  destruct (socket_handler App.call name data) as [h|] eqn:E; [|reflexivity].
  rewrite (keeps_socket_handler _ _ _ E). apply shape_mark_connected.
Qed.
End PageSocket.

(** ** The stages of the page *)

Section Stages.
Import DriveSightSocket.

Lemma awaited_remove_detached (ps : list Pending) (i : nat) (p : Pending) :
  nth_error ps i = Some p -> cont p = Detached ->
  filter (fun k => negb (is_detached k)) (map cont (App.remove_nth i ps)) =
  filter (fun k => negb (is_detached k)) (map cont ps).
Proof.
  revert i. induction ps as [|q ps IH]; intros [|i] H Hp; cbn in *; try discriminate.
  - injection H as ->. rewrite Hp. reflexivity.
  - rewrite (IH i H Hp). reflexivity.
Qed.

Lemma awaited_remove_awaited (ps : list Pending) (i : nat) (p : Pending) (k : Cont) :
  nth_error ps i = Some p -> is_detached (cont p) = false ->
  filter (fun k => negb (is_detached k)) (map cont ps) = [k] ->
  cont p = k /\
  filter (fun k => negb (is_detached k)) (map cont (App.remove_nth i ps)) = [].
Proof.
  revert i. induction ps as [|q ps IH]; intros [|i] H Hp Hk; cbn in *; try discriminate.
  - injection H as ->. rewrite Hp in Hk. cbn in Hk. injection Hk as -> E. split; [reflexivity|exact E].
  - destruct (is_detached (cont q)) eqn:Eq; cbn in Hk.
    + destruct (IH i H Hp Hk) as [E1 E2]. split; [exact E1|]. exact E2.
    + injection Hk as _ Hnil.
      assert (Hin : In (cont p) (filter (fun k => negb (is_detached k)) (map cont ps))).
      { apply filter_In. split.
        - apply in_map. eapply nth_error_In; eassumption.
        - rewrite Hp. reflexivity. }
      rewrite Hnil in Hin. destruct Hin.
Qed.

Lemma awaited_none_detached (ps : list Pending) (i : nat) (p : Pending) :
  nth_error ps i = Some p ->
  filter (fun k => negb (is_detached k)) (map cont ps) = [] ->
  cont p = Detached.
Proof.
  intros H Hnil.
  destruct (is_detached (cont p)) eqn:Hp.
  - destruct (cont p); try discriminate; reflexivity.
  - assert (Hin : In (cont p) (filter (fun k => negb (is_detached k)) (map cont ps))).
    { apply filter_In. split.
      - apply in_map. eapply nth_error_In; eassumption.
      - rewrite Hp. reflexivity. }
    rewrite Hnil in Hin. destruct Hin.
Qed.

(** A page is in a stage or not whatever its views show. *)
Lemma in_stage_shape (s : Stage) (w w' : Page) :
  s <> Idle -> shape w' = shape w -> in_stage s w -> in_stage s w'.
Proof.
  destruct s; intros Hs E H; cbn in *; [congruence | | ]; rewrite E; exact H.
Qed.

Lemma idle_enter (w : Page) :
  in_stage Idle w -> dashboardInitialized (app w) = false ->
  let w' := final (App.step App.EnterDashboard w) in
  in_stage Idle w' \/ in_stage (Loading InitAfterHeatmap) w'.
Proof.
  destruct w as [so l ss ind d]. destruct d as [al hl ml doc pe di ar].
  cbn. intros (-> & -> & -> & ->) ->.
  destruct doc as [c b da dc dt ma ts rb hd]. destruct hd.
  - right. split; reflexivity.
  - left. repeat split.
Qed.

Lemma finish_init (w : Page) :
  shape w = mkShape alerts_listeners [bound_events] (Some 0) true [] true ->
  in_stage Ready (final (App.initDashboard_resume InitAfterStats w)).
Proof.
  destruct w as [so l ss ind d]. unfold shape. cbn [listeners sockets socket app].
  intros E. injection E as -> Hb -> Hi Ha Hl.
  cbn [in_stage]. unfold shape.
  change (listeners (final (App.initDashboard_resume InitAfterStats
            (mkWorld (Some 0) alerts_listeners ss ind d)))) with all_listeners.
  change (sockets (final (App.initDashboard_resume InitAfterStats
            (mkWorld (Some 0) alerts_listeners ss ind d)))) with ss.
  change (socket (final (App.initDashboard_resume InitAfterStats
            (mkWorld (Some 0) alerts_listeners ss ind d)))) with (Some 0).
  change (app (final (App.initDashboard_resume InitAfterStats
            (mkWorld (Some 0) alerts_listeners ss ind d)))) with (set_autoRefresh true d).
  rewrite Hb. unfold awaited, layers_ready in *. cbn [pending set_autoRefresh heatLayer markerLayer
    dashboardInitialized]. rewrite Hi, Ha, Hl. reflexivity.
Qed.

Lemma next_loader (w : Page) (k k' : Cont) :
  (k = InitAfterHeatmap /\ k' = InitAfterIncidents) \/
  (k = InitAfterIncidents /\ k' = InitAfterStats) ->
  shape w = mkShape alerts_listeners [bound_events] (Some 0) true [] true ->
  in_stage (Loading k') (final (App.initDashboard_resume k w)).
Proof.
  intros Hk E. unfold shape in E. injection E as El Eb Es Ei Ea Ely.
  assert (Hd : is_detached k' = false) by (destruct Hk as [[_ ->]|[_ ->]]; reflexivity).
  split; [exact Hd|].
  destruct Hk as [[-> ->]|[-> ->]]; cbn [App.initDashboard_resume];
    unfold App.loadIncidents, App.loadStats, App.getSelectedHours; unfold shape;
    cbn [in_app bind gets fetch modify result final listeners sockets socket app set_app];
    rewrite El, Eb, Es; cbn [dashboardInitialized set_pending];
    rewrite awaited_fetch by reflexivity; rewrite Ei, Ea;
    unfold layers_ready in *; cbn [heatLayer markerLayer set_pending]; rewrite Ely; reflexivity.
Qed.

Lemma settle_runs (w : Page) (i : nat) (r : Response) (p : Pending) :
  nth_error (pending (app w)) i = Some p ->
  App.step (App.Settle i r) w =
  let o := App.initDashboard_resume (cont p) (settled w i r p) in
  mkOutcome (result o) (final o) (trace (App.loader_resume (pull p) r (unqueued w i)) ++ trace o).
Proof.
  intros E. unfold App.step. rewrite E.
  erewrite bind_runs by reflexivity.
  assert (El : in_app (App.loader_resume (pull p) r) (set_app (unqueued w i) w) =
               mkOutcome (Ok tt) (settled w i r p)
                         (trace (App.loader_resume (pull p) r (unqueued w i)))).
  { unfold in_app, settled. cbn [app set_app]. rewrite loader_resume_ok. reflexivity. }
  erewrite bind_runs by exact El. reflexivity.
Qed.

Lemma settled_shape (w : Page) (i : nat) (r : Response) (p : Pending) :
  shape (settled w i r p) = shape (set_app (unqueued w i) w).
Proof.
  apply (keeps_in_app _ (keeps_loader_resume (pull p) r) (set_app (unqueued w i) w)).
Qed.

Lemma stage_settle (s : Stage) (w : Page) (i : nat) (r : Response) :
  in_stage s w -> exists s', in_stage s' (final (App.step (App.Settle i r) w)).
Proof.
  intros H.
  destruct (nth_error (pending (app w)) i) as [p|] eqn:E.
  2:{ exists s. unfold App.step. rewrite E. exact H. }
  rewrite (settle_runs w i r p E). cbn [final].
  pose proof (settled_shape w i r p) as Hs. set (w2 := settled w i r p) in *.
  assert (Hs' : shape w2 =
                mkShape (listeners w) (map bound (sockets w)) (socket w)
                        (dashboardInitialized (app w))
                        (filter (fun k => negb (is_detached k))
                                (map cont (App.remove_nth i (pending (app w)))))
                        (layers_ready (app w))) by (rewrite Hs; reflexivity).
  clear Hs.
  destruct s as [|k|]; cbn [in_stage] in H.
  - destruct H as (_ & _ & Hp & _). rewrite Hp in E. destruct i; discriminate.
  - destruct H as [Hk H]. unfold shape in H. injection H as Hl Hb Hso Hi Ha Hly.
    rewrite Hl, Hb, Hso, Hi, Hly in Hs'. unfold awaited in Ha.
    destruct (is_detached (cont p)) eqn:Hp.
    + assert (Hc : cont p = Detached) by (destruct (cont p); try discriminate; reflexivity).
      rewrite (awaited_remove_detached _ _ _ E Hc), Ha in Hs'.
      exists (Loading k). rewrite Hc. cbn [App.initDashboard_resume ret final].
      split; assumption.
    + destruct (awaited_remove_awaited _ _ _ _ E Hp Ha) as [Hc Hnil].
      rewrite Hnil in Hs'. rewrite Hc.
      destruct k; try discriminate.
      * exists (Loading InitAfterIncidents). apply (next_loader w2); auto.
      * exists (Loading InitAfterStats). apply (next_loader w2); auto.
      * exists Ready. apply finish_init. exact Hs'.
  - unfold shape in H. injection H as Hl Hb Hso Hi Ha Hly.
    rewrite Hl, Hb, Hso, Hi, Hly in Hs'. unfold awaited in Ha.
    pose proof (awaited_none_detached _ _ _ E Ha) as Hc.
    rewrite (awaited_remove_detached _ _ _ E Hc), Ha in Hs'.
    exists Ready. rewrite Hc. exact Hs'.
Qed.

Lemma stage_step (e : App.Event) (s : Stage) (w : Page) :
  in_stage s w -> exists s', in_stage s' (final (App.step e w)).
Proof.
  intros H. destruct e as [|k name data|i r| | |h].
  - (* EnterDashboard *)
    destruct (dashboardInitialized (app w)) eqn:Hi.
    + exists s. unfold App.step. rewrite Hi. exact H.
    + destruct s as [|k|].
      * destruct (idle_enter w H Hi) as [H'|H']; eauto.
      * destruct H as [_ H]. unfold shape in H. injection H as _ _ _ Hi' _ _. congruence.
      * unfold shape in H. injection H as _ _ _ Hi' _ _. congruence.
  - (* Frame *)
    destruct s as [|c|].
    + exists Idle. destruct H as (Hl & Hs & Hp & Ha).
      unfold App.step, deliver. rewrite Hs. destruct k; cbn; auto.
    + exists (Loading c). apply (in_stage_shape _ w); [discriminate| |exact H].
      apply keeps_deliver.
    + exists Ready. apply (in_stage_shape _ w); [discriminate| |exact H].
      apply keeps_deliver.
  - apply (stage_settle s); exact H.
  - (* Tick *)
    unfold App.step. destruct (autoRefresh (app w)) eqn:Ha; [|exists s; exact H].
    destruct s as [|c|].
    + destruct H as (_ & _ & _ & Ha'). congruence.
    + exists (Loading c). apply (in_stage_shape _ w); [discriminate| |exact H].
      apply (keeps_in_app _ keeps_refreshAll).
    + exists Ready. apply (in_stage_shape _ w); [discriminate| |exact H].
      apply (keeps_in_app _ keeps_refreshAll).
  - (* ClickRefresh *)
    unfold App.step.
    destruct (autoRefresh (app w) && refresh_btn (document (app w)))%bool eqn:Ha;
      [|exists s; exact H].
    apply andb_prop in Ha. destruct Ha as [Ha _].
    destruct s as [|c|].
    + destruct H as (_ & _ & _ & Ha'). congruence.
    + exists (Loading c). apply (in_stage_shape _ w); [discriminate| |exact H].
      apply (keeps_in_app _ keeps_refreshAll).
    + exists Ready. apply (in_stage_shape _ w); [discriminate| |exact H].
      apply (keeps_in_app _ keeps_refreshAll).
  - (* SelectHours *)
    unfold App.step.
    destruct (timerange_select (document (app w))) as [h0|] eqn:Ht; [|exists s; exact H].
    assert (Hk : keeps shape
              (bind (in_app (modify (fun d => set_document (set_timerange_select h (document d)) d)))
                    (fun _ => if autoRefresh (app w) then in_app App.refreshAll else ret tt))).
    { apply keeps_bind.
      - apply keeps_in_app. apply keeps_modify. reflexivity.
      - intros _. destruct (autoRefresh (app w)).
        + apply (keeps_in_app _ keeps_refreshAll).
        + apply keeps_ret. }
    destruct s as [|c|].
    + exists Idle. destruct H as (Hl & Hs & Hp & Ha). rewrite Ha.
      cbn. repeat split; assumption.
    + exists (Loading c). apply (in_stage_shape _ w); [discriminate| |exact H]. apply Hk.
    + exists Ready. apply (in_stage_shape _ w); [discriminate| |exact H]. apply Hk.
Qed.

Theorem reachable_stage (w : Page) : reachable w -> exists s, in_stage s w.
Proof.
  induction 1 as [doc|e w _ [s IH]].
  - exists Idle. repeat split.
  - apply (stage_step e s w IH).
Qed.

Lemma reachable_run (es : list App.Event) (w : Page) :
  reachable w -> reachable (App.run es w).
Proof.
  revert w. induction es as [|e es IH]; intros w H; cbn [App.run].
  - exact H.
  - apply IH. apply reachable_step. exact H.
Qed.
End Stages.

(** ** Runs of the page *)

Example ready_page_registry :
  DriveSightSocket.listeners ready_page = all_listeners /\
  map pull (pending (DriveSightSocket.app ready_page)) = [] /\
  autoRefresh (DriveSightSocket.app ready_page) = true.
Proof. repeat split. Qed.

Example refresh_starts_four_pulls :
  map pull (pending (DriveSightSocket.app (App.run [App.ClickRefresh] ready_page))) =
  [PullHeatmap 24; PullIncidents 24; PullStats; PullAlerts].
Proof. vm_compute. reflexivity. Qed.

Example stats_push_overwrites_counters :
  stats_view (App.run [App.Frame 0 "stats_update" (stats_body 3 120 7)] ready_page) =
  (Some (Shown 3), Some (Shown 120), Some (Shown 7), Some (Shown 7)).
Proof. vm_compute. reflexivity. Qed.

(** The selector goes from 24 h to 6 h while the 24 h pull is in flight; the
    6 h response arrives first, the 24 h response after it. *)
Example window_change_while_pull_in_flight :
  let hot := mkHeatPoint 34.5%float (-118.25)%float (Some 0.75%float) in
  let cold := mkHeatPoint 37.75%float (-122.5)%float (Some 0.25%float) in
  let w := App.run [App.Tick; App.SelectHours 6] ready_page in
  map pull (pending (DriveSightSocket.app w)) =
    [PullHeatmap 24; PullIncidents 24; PullStats; PullAlerts;
     PullHeatmap 6; PullIncidents 6; PullStats; PullAlerts] /\
  heatmap_view (App.run [App.Settle 4 (Json (heatmap_body [cold]))] w) =
    Some [(37.75%float, (-122.5)%float, 0.25%float)] /\
  heatmap_view (App.run [App.Settle 4 (Json (heatmap_body [cold]));
                         App.Settle 0 (Json (heatmap_body [hot]))] w) =
    Some [(34.5%float, (-118.25)%float, 0.75%float)].
Proof. cbv zeta. repeat split; vm_compute; reflexivity. Qed.

(** * The real-time core *)

(** C4.  Dispatch isolates a throwing handler.  For every table of callbacks,
    every event kind whose property of [listeners] is an array [cbs], every
    payload and every state: [_notify] completes normally; the callbacks it
    calls are exactly [cbs], each once, in registration order and with the
    payload, whether or not an earlier one threw; its [console.error] lines
    are the exceptions thrown, one line per throwing callback, in order; the
    state it leaves is the one the same dispatch leaves when every callback
    swallows its own exception, so a failure leaves nothing behind but its
    log line; and any later dispatch from that state again completes normally
    and calls, in order, every callback then registered for its kind. *)
Theorem notify_isolates_throwing_handlers :
  forall (Cb App : Type) (call : Cb -> Data -> DriveSightSocket.JS Cb App unit)
         (event : string) (cbs : list Cb) (data : Data) (w : DriveSightSocket.World Cb App),
    DriveSightSocket.get (DriveSightSocket.listeners w) event = DriveSightSocket.Own cbs ->
    let o := DriveSightSocket._notify call event data w in
    result o = Ok tt /\
    invoked (trace o) = map (fun cb => (cb, data)) cbs /\
    logged (trace o) =
      map (fun e => (DriveSightSocket.listener_error event, e)) (thrown (trace o)) /\
    final o = final (DriveSightSocket._notify (quiet call) event data w) /\
    forall (event' : string) (cbs' : list Cb) (data' : Data),
      DriveSightSocket.get (DriveSightSocket.listeners (final o)) event' = DriveSightSocket.Own cbs' ->
      let o' := DriveSightSocket._notify call event' data' (final o) in
      result o' = Ok tt /\ invoked (trace o') = map (fun cb => (cb, data')) cbs'.
Proof.
  intros Cb App call event cbs data w H o. subst o.
  rewrite (notify_own call _ _ _ _ H), (notify_own (quiet call) _ _ _ _ H).
  destruct (forEach_guarded call event data cbs w) as (Hr & Hi & Hl & Hf).
  repeat split; try assumption.
  - rewrite (notify_own call _ _ _ _ H0).
    apply (forEach_guarded call event' data' cbs').
  - rewrite (notify_own call _ _ _ _ H0).
    apply (forEach_guarded call event' data' cbs').
Qed.

Lemma notify_isolates_throwing_handlers_witness :
  DriveSightSocket.get (DriveSightSocket.listeners ready_page) "new_incident" =
    DriveSightSocket.Own [AlertsNewIncident; AppNewIncident] /\
  thrown (trace (DriveSightSocket._notify App.call "new_incident" Undefined ready_page)) =
    [TypeError "cannot read properties of undefined";
     TypeError "cannot read properties of undefined"] /\
  invoked (trace (DriveSightSocket._notify App.call "new_incident" Undefined ready_page)) =
    map (fun cb => (cb, Undefined)) [AlertsNewIncident; AppNewIncident].
Proof.
  assert (H : DriveSightSocket.get (DriveSightSocket.listeners ready_page) "new_incident" =
              DriveSightSocket.Own [AlertsNewIncident; AppNewIncident])
    by (vm_compute; reflexivity).
  split; [exact H|].
  split; [vm_compute; reflexivity|].
  pose proof (notify_isolates_throwing_handlers HandlerId Dashboard App.call "new_incident"
                [AlertsNewIncident; AppNewIncident] Undefined ready_page H) as P.
  cbv zeta in P. destruct P as (_ & Hi & _). exact Hi.
Defined.

(** C10.  The kinds outside the five that name a property every object
    inherits from [Object.prototype] ("constructor", "toString", "valueOf",
    "hasOwnProperty", "__proto__" and the others of [object_prototype_keys]):
    for each of them [listeners[event]] is truthy and no array, so in every
    state [on(event, cb)] throws a [TypeError] (storing nothing, calling
    nothing) and [_notify(event, data)] throws one too; neither is the
    silent no-op that [on_unknown_is_noop] below shows for a kind that is no
    property of [listeners] at all. *)
Theorem on_inherited_property_throws :
  forall (Cb App : Type) (call : Cb -> Data -> DriveSightSocket.JS Cb App unit)
         (cb : Cb) (data : Data) (w : DriveSightSocket.World Cb App),
    Forall
      (fun event =>
         DriveSightSocket.get (DriveSightSocket.listeners w) event = DriveSightSocket.Inherited /\
         DriveSightSocket.on event cb w =
           mkOutcome (Err (TypeError "listeners[event].push is not a function")) w [] /\
         DriveSightSocket._notify call event data w =
           mkOutcome (Err (TypeError "listeners[event].forEach is not a function")) w [])
      DriveSightSocket.object_prototype_keys.
Proof.
  intros Cb App call cb data w. unfold DriveSightSocket.object_prototype_keys.
  repeat (apply Forall_cons; [repeat split|]). apply Forall_nil.
Qed.

Lemma get_missing {Cb} (l : DriveSightSocket.Listeners Cb) (event : string) :
  ~ In event ["new_incident"; "alert_update"; "heatmap_update"; "stats_update"; "connection_change"] ->
  ~ In event DriveSightSocket.object_prototype_keys ->
  DriveSightSocket.get l event = DriveSightSocket.Missing.
Proof.
  intros H1 H2. unfold DriveSightSocket.get.
  repeat match goal with
         | |- context [if (event =? ?s) then _ else _] =>
             destruct (String.eqb_spec event s) as [->|_];
             [exfalso; apply H1; cbn; tauto|]
         end.
  destruct (existsb (String.eqb event) DriveSightSocket.object_prototype_keys) eqn:E; [|reflexivity].
  apply existsb_exists in E. destruct E as (x & Hx & Ex).
  apply String.eqb_eq in Ex. subst x. contradiction.
Qed.

Lemma on_unknown_is_noop {Cb App} (call : Cb -> Data -> DriveSightSocket.JS Cb App unit)
    (event : string) (cb : Cb) (data : Data) (w : DriveSightSocket.World Cb App) :
  DriveSightSocket.get (DriveSightSocket.listeners w) event = DriveSightSocket.Missing ->
  DriveSightSocket.on event cb w = mkOutcome (Ok tt) w [] /\
  DriveSightSocket._notify call event data w = mkOutcome (Ok tt) w [].
Proof.
  intros H. unfold DriveSightSocket.on, DriveSightSocket._notify, bind, gets. cbn.
  rewrite H. split; reflexivity.
Qed.

(** C7, as stated, fails: on the freshly loaded page a second [connect()]
    opens a second transport and moves [socket] to it, so the state after
    [connect(); connect()] differs from the state after one [connect()]. *)
Lemma connect_twice_opens_two_transports :
  let w0 : Page := App.boot full_document in
  let w1 := final (DriveSightSocket.connect w0) in
  let w2 := final (DriveSightSocket.connect w1) in
  List.length (DriveSightSocket.sockets w1) = 1 /\
  List.length (DriveSightSocket.sockets w2) = 2 /\
  DriveSightSocket.socket w1 = Some 0 /\
  DriveSightSocket.socket w2 = Some 1 /\
  w2 <> w1.
Proof.
  repeat split. intros H. apply (f_equal DriveSightSocket.socket) in H. discriminate H.
Qed.

(** C7, amended.  [connect()] has no guard: in every state it completes
    normally, opens one new transport with reconnection on, a delay of
    2000 ms and at most 20 attempts, binds its seven handlers on it, not yet
    connected and with nothing emitted, stores it in [socket], and leaves the
    transports opened before, the registry, the indicator and the page as
    they were.  The page calls it once, from [initDashboard], which the flag
    [dashboardInitialized] lets run once: no reachable page has opened more
    than one transport. *)
Theorem connect_opens_a_new_transport :
  (forall (Cb App : Type) (w : DriveSightSocket.World Cb App),
      let o := DriveSightSocket.connect w in
      let n := List.length (DriveSightSocket.sockets w) in
      result o = Ok n /\
      DriveSightSocket.socket (final o) = Some n /\
      DriveSightSocket.sockets (final o) =
        DriveSightSocket.sockets w ++
        [DriveSightSocket.mkTransport (DriveSightSocket.mkIoOptions true 2000 20)
                                      bound_events false []] /\
      DriveSightSocket.listeners (final o) = DriveSightSocket.listeners w /\
      DriveSightSocket.indicator (final o) = DriveSightSocket.indicator w /\
      DriveSightSocket.app (final o) = DriveSightSocket.app w) /\
  (forall (w : Page), reachable w -> List.length (DriveSightSocket.sockets w) <= 1).
Proof.
  split.
  - intros Cb App w o n. subst o n. rewrite connect_runs. repeat split.
  - intros w Hw. destruct (reachable_stage w Hw) as [s Hs].
    destruct s; cbn [in_stage] in Hs.
    + destruct Hs as (_ & -> & _). cbn. lia.
    + destruct Hs as [_ Hs]. unfold shape in Hs. injection Hs as _ Hb _ _ _ _.
      apply (f_equal (@List.length _)) in Hb. rewrite length_map in Hb. rewrite Hb. cbn. lia.
    + unfold shape in Hs. injection Hs as _ Hb _ _ _ _.
      apply (f_equal (@List.length _)) in Hb. rewrite length_map in Hb. rewrite Hb. cbn. lia.
Qed.

Lemma connect_opens_a_new_transport_witness :
  reachable ready_page /\ List.length (DriveSightSocket.sockets ready_page) <= 1.
Proof.
  assert (Hw : reachable ready_page) by (apply reachable_run, reachable_boot).
  split; [exact Hw|].
  exact (proj2 connect_opens_a_new_transport ready_page Hw).
Defined.

Section ConnectEvent.
Import DriveSightSocket.

Lemma socket_handler_connect {Cb App} (call : Cb -> Data -> JS Cb App unit) data :
  socket_handler call "connect" data = Some (on_connect call).
Proof. reflexivity. Qed.

Lemma socket_handler_disconnect {Cb App} (call : Cb -> Data -> JS Cb App unit) data :
  socket_handler call "disconnect" data = Some (on_disconnect call).
Proof. reflexivity. Qed.

Lemma notify_ok {Cb App} (call : Cb -> Data -> JS Cb App unit) event data (w : World Cb App) cbs :
  get (listeners w) event = Own cbs ->
  result (_notify call event data w) = Ok tt /\
  invoked (trace (_notify call event data w)) = map (fun cb => (cb, data)) cbs.
Proof.
  intros H. rewrite (notify_own call _ _ _ _ H).
  destruct (forEach_guarded call event data cbs w) as (Hr & Hi & _ & _). split; assumption.
Qed.

(** C5.  Every ["connect"] event, the first and each reconnect alike.  For
    every table of callbacks that leave the sockets alone, when ["connect"]
    fires on a socket [k] that has the handler bound and [socket] holds [s]:
    the handler completes normally; the sockets afterwards are the sockets
    before with [k] marked connected and with exactly [subscribe_alerts] and
    [subscribe_heatmap], once each and in this order, appended to what [s]
    has emitted; the callbacks called are exactly those registered for
    [connection_change], in order, each with [{connected: true}]; and the
    indicator shows "Live". *)
Theorem connect_event_announces_subscriptions :
  forall (Cb App : Type) (call : Cb -> Data -> JS Cb App unit)
         (w : World Cb App) (k s : nat) (t : Transport) (data : Data),
    (forall cb d w', sockets (final (call cb d w')) = sockets w') ->
    nth_error (sockets w) k = Some t ->
    In "connect" (bound t) ->
    socket w = Some s ->
    let o := deliver call k "connect" data w in
    result o = Ok tt /\
    sockets (final o) = update_nth s announce (update_nth k (set_connected true) (sockets w)) /\
    invoked (trace o) =
      map (fun cb => (cb, payload_connected true)) (connection_change (listeners w)) /\
    indicator (final o) = Some live.
Proof.
  intros Cb App call w k s t data Hcall Hk Hin Hs o. subst o.
  unfold deliver. rewrite Hk, (existsb_In _ _ Hin), socket_handler_connect.
  set (w0 := mark_connected k "connect" w).
  assert (Hs0 : socket w0 = Some s) by exact Hs.
  set (w1 := set_sockets (update_nth s announce (sockets w0)) w0).
  assert (Hl : get (listeners w1) "connection_change" = Own (connection_change (listeners w)))
    by reflexivity.
  destruct (notify_ok call "connection_change" (payload_connected true) w1 _ Hl) as [Hr Hi].
  rewrite (on_connect_runs call s w0 Hs0 Hr). cbn [result final trace].
  split; [reflexivity|]. split; [|split].
  - change (sockets (final (_notify call "connection_change" (payload_connected true) w1))
            = update_nth s announce (update_nth k (set_connected true) (sockets w))).
    rewrite (keeps_notify sockets call "connection_change" (payload_connected true)
               (fun cb => Hcall cb _) w1). reflexivity.
  - exact Hi.
  - reflexivity.
Qed.

Lemma call_keeps_sockets cb d (w : Page) : sockets (final (App.call cb d w)) = sockets w.
Proof. destruct cb; reflexivity. Qed.
End ConnectEvent.

Lemma connect_event_announces_subscriptions_witness :
  let o := DriveSightSocket.deliver App.call 0 "connect" Undefined ready_page in
  result o = Ok tt /\
  map DriveSightSocket.sent (DriveSightSocket.sockets (final o)) =
    [[("subscribe_alerts", Undefined); ("subscribe_heatmap", Undefined)]] /\
  DriveSightSocket.indicator (final o) = Some live.
Proof.
  assert (Hk : nth_error (DriveSightSocket.sockets ready_page) 0 =
               Some (DriveSightSocket.mkTransport (DriveSightSocket.mkIoOptions true 2000 20)
                       bound_events false []))
    by (vm_compute; reflexivity).
  assert (Hin : In "connect" bound_events) by (cbn; tauto).
  assert (Hs : DriveSightSocket.socket ready_page = Some 0) by (vm_compute; reflexivity).
  pose proof (connect_event_announces_subscriptions HandlerId Dashboard App.call ready_page 0 0 _
                Undefined call_keeps_sockets Hk Hin Hs) as P.
  cbv zeta in P. destruct P as (Hr & Hso & _ & Hind).
  cbv zeta. split; [exact Hr|]. split; [|exact Hind].
  rewrite Hso. vm_compute. reflexivity.
Defined.

Section Disconnect.
Import DriveSightSocket.

Lemma stage_no_connection_listeners (s : Stage) (w : Page) :
  in_stage s w -> connection_change (listeners w) = [].
Proof.
  destruct s; cbn [in_stage].
  - intros (-> & _). reflexivity.
  - intros [_ H]. unfold shape in H. injection H as -> _ _ _ _ _. reflexivity.
  - intros H. unfold shape in H. injection H as -> _ _ _ _ _. reflexivity.
Qed.

Lemma stage_socket_bound (s : Stage) (w : Page) (k : nat) (t : Transport) :
  in_stage s w -> nth_error (sockets w) k = Some t ->
  k = 0 /\ bound t = bound_events /\ socket w = Some 0.
Proof.
  intros H Hk.
  assert (Hb : sockets w = [] \/ (map bound (sockets w) = [bound_events] /\ socket w = Some 0)).
  { destruct s; cbn [in_stage] in H.
    - left. tauto.
    - right. destruct H as [_ H]. unfold shape in H. injection H as _ Hb Hs _ _ _. tauto.
    - right. unfold shape in H. injection H as _ Hb Hs _ _ _. tauto. }
  destruct Hb as [Hb|[Hb Hs]].
  - rewrite Hb in Hk. destruct k; discriminate.
  - destruct (sockets w) as [|t0 [|t1 ts]]; try discriminate.
    destruct k as [|[|k]]; try discriminate.
    cbn in Hk, Hb. injection Hk as ->. injection Hb as Hb. auto.
Qed.

(** C6.  A disconnect leaves the views alone.  The handler of
    ["disconnect"] completes normally, calls exactly the callbacks registered
    for [connection_change], each with [{connected: false}], and sets the
    indicator to "Reconnecting...".  On every reachable page no callback is
    registered for [connection_change], and when ["disconnect"] fires on any
    socket the alert list, the heat layer, the four counters and indeed the
    whole state of the page modules are what they were, the registry is
    unchanged, and on a socket that exists the indicator shows
    "Reconnecting...". *)
Theorem disconnect_retains_views :
  (forall (Cb App : Type) (call : Cb -> Data -> JS Cb App unit) (w : World Cb App),
      let o := on_disconnect call w in
      result o = Ok tt /\
      invoked (trace o) =
        map (fun cb => (cb, payload_connected false)) (connection_change (listeners w)) /\
      indicator (final o) = Some reconnecting) /\
  (forall (w : Page), reachable w ->
   forall (k : nat) (data : Data),
      let o := App.step (App.Frame k "disconnect" data) w in
      result o = Ok tt /\
      alert_view (final o) = alert_view w /\
      heatmap_view (final o) = heatmap_view w /\
      stats_view (final o) = stats_view w /\
      app (final o) = app w /\
      listeners (final o) = listeners w /\
      (k < List.length (sockets w) -> indicator (final o) = Some reconnecting)).
Proof.
  split.
  - intros Cb App call w o. subst o.
    destruct (notify_ok call "connection_change" (payload_connected false) w _ eq_refl)
      as [Hr Hi].
    rewrite (on_disconnect_runs call w Hr). cbn [result final trace].
    repeat split. exact Hi.
  - intros w Hw k data o. subst o.
    destruct (reachable_stage w Hw) as [s Hs].
    pose proof (stage_no_connection_listeners s w Hs) as Hc.
    unfold App.step, deliver.
    destruct (nth_error (sockets w) k) as [t|] eqn:Hk.
    2:{ repeat split. intros Hlt. apply nth_error_None in Hk. lia. }
    destruct (stage_socket_bound s w k t Hs Hk) as (-> & Hb & _).
    rewrite Hb. cbn [existsb bound_events]. 
    change (existsb (String.eqb "disconnect") bound_events) with true. cbn iota.
    rewrite socket_handler_disconnect.
    set (w0 := mark_connected 0 "disconnect" w).
    assert (Hn : _notify App.call "connection_change" (payload_connected false) w0 =
                 mkOutcome (Ok tt) w0 []).
    { rewrite (notify_own App.call "connection_change" _ w0 [])
        by (cbn; exact (f_equal (@Own HandlerId) Hc)).
      reflexivity. }
    rewrite (on_disconnect_runs App.call w0) by (rewrite Hn; reflexivity).
    rewrite Hn. cbn [result final trace].
    repeat split.
Qed.
End Disconnect.

Lemma reachable_ready_page : reachable ready_page.
Proof. apply reachable_run. apply reachable_boot. Qed.

Lemma disconnect_retains_views_witness :
  reachable ready_page /\
  let o := App.step (App.Frame 0 "disconnect" Undefined) ready_page in
  alert_view (final o) = alert_view ready_page /\
  DriveSightSocket.indicator (final o) = Some reconnecting.
Proof.
  split; [exact reachable_ready_page|].
  pose proof (proj2 disconnect_retains_views ready_page reachable_ready_page 0 Undefined) as P.
  cbv zeta in P. destruct P as (_ & Ha & _ & _ & _ & _ & Hi).
  cbv zeta. split; [exact Ha|]. apply Hi. vm_compute. lia.
Defined.

Section PullFailure.
Import DriveSightSocket.

Lemma fetchAlerts_resume_failed r e d :
  failed r = Some e ->
  DriveSightAlerts.fetchAlerts_resume r d =
  mkOutcome (Ok tt)
            (match alerts_container (document d) with
             | Some _ => set_document (set_alerts_container PanelError (document d)) d
             | None => d
             end)
            [ConsoleError "[Alerts] Fetch error:" e].
Proof.
  destruct r as [| |[|o]]; cbn [failed]; intros E; inversion E; subst e; reflexivity.
Qed.

Lemma keeps_initDashboard_resume {X} (f : Dashboard -> X) k :
  (forall d p, f (set_pending p d) = f d) ->
  (forall d b, f (set_autoRefresh b d) = f d) ->
  keeps (fun w : Page => f (app w)) (App.initDashboard_resume k).
Proof.
  intros Hp Ha w. destruct k; cbn; rewrite ?Hp, ?Ha; reflexivity.
Qed.

Lemma initDashboard_resume_ok k (w : Page) : result (App.initDashboard_resume k w) = Ok tt.
Proof. destruct k; reflexivity. Qed.

Lemma settle_result (w : Page) i r p :
  nth_error (pending (app w)) i = Some p ->
  result (App.step (App.Settle i r) w) = Ok tt.
Proof.
  intros E. rewrite (settle_runs w i r p E).
  cbn [result]. apply initDashboard_resume_ok.
Qed.

(** What a settled fetch leaves of an observation [f] of the page that
    neither the list of fetches in flight nor the timer flag is part of. *)
Lemma settle_view {X} (f : Dashboard -> X) (w : Page) i r p :
  (forall d p, f (set_pending p d) = f d) ->
  (forall d b, f (set_autoRefresh b d) = f d) ->
  nth_error (pending (app w)) i = Some p ->
  f (app (final (App.step (App.Settle i r) w))) =
  f (final (App.loader_resume (pull p) r (unqueued w i))).
Proof.
  intros Hp Ha E. rewrite (settle_runs w i r p E). cbn [final].
  rewrite (keeps_initDashboard_resume f (cont p) Hp Ha (settled w i r p)). reflexivity.
Qed.

(** C8.  A failed alerts pull.  When the fetch of an alerts pull in flight
    settles with a network error, an undecodable body or a body that is
    [null], the continuation of [fetchAlerts] completes normally (nothing
    reaches its caller); the alert list is the list before; the document is
    the document before except that [#alerts-container], when the document
    has it, shows the "Failed to load alerts. Retrying..." panel; the heat
    layer and the marker layer are unchanged; and the one [console.error]
    line is the fetch error. *)
Theorem alerts_pull_failure_keeps_alerts :
  forall (w : Page) (i : nat) (p : Pending) (r : Response) (e : Error),
    nth_error (pending (app w)) i = Some p ->
    pull p = PullAlerts ->
    failed r = Some e ->
    let o := App.step (App.Settle i r) w in
    result o = Ok tt /\
    alert_view (final o) = alert_view w /\
    document (app (final o)) = with_error_panel (document (app w)) /\
    heatmap_view (final o) = heatmap_view w /\
    markerLayer (app (final o)) = markerLayer (app w) /\
    logged (trace o) = [("[Alerts] Fetch error:", e)].
Proof.
  intros w i p r e E Hp Hr o. subst o.
  split; [exact (settle_result w i r p E)|].
  unfold alert_view, heatmap_view.
  rewrite (settle_view alerts w i r p) by (reflexivity || assumption).
  rewrite (settle_view document w i r p) by (reflexivity || assumption).
  rewrite (settle_view heatLayer w i r p) by (reflexivity || assumption).
  rewrite (settle_view markerLayer w i r p) by (reflexivity || assumption).
  rewrite (settle_runs w i r p E).
  rewrite Hp. cbn [App.loader_resume trace].
  rewrite (fetchAlerts_resume_failed r e _ Hr). cbn [final trace].
  unfold with_error_panel, unqueued. cbn [document set_pending].
  destruct (alerts_container (document (app w)));
    cbn [alerts heatLayer markerLayer document set_document set_pending];
    repeat split; destruct (cont p); reflexivity.
Qed.
End PullFailure.

Lemma alerts_pull_failure_keeps_alerts_witness :
  let w := App.run [App.Frame 0 "new_incident" (incident_push incident1 (Some a1));
                    App.Tick] ready_page in
  nth_error (pending (DriveSightSocket.app w)) 3 = Some (mkPending PullAlerts Detached) /\
  failed FetchRejected = Some NetworkError /\
  let o := App.step (App.Settle 3 FetchRejected) w in
  result o = Ok tt /\ alert_view (final o) = [a1] /\
  alerts_container (document (DriveSightSocket.app (final o))) = Some PanelError.
Proof.
  cbv zeta.
  set (w := App.run _ ready_page).
  assert (Hp : nth_error (pending (DriveSightSocket.app w)) 3 = Some (mkPending PullAlerts Detached))
    by (vm_compute; reflexivity).
  split; [exact Hp|]. split; [reflexivity|].
  pose proof (alerts_pull_failure_keeps_alerts w 3 _ FetchRejected NetworkError Hp eq_refl eq_refl) as P.
  cbv zeta in P. destruct P as (Hr & Ha & Hd & _).
  split; [exact Hr|]. split.
  - rewrite Ha. vm_compute. reflexivity.
  - rewrite Hd. vm_compute. reflexivity.
Defined.

Section Heatmap.
Import DriveSightSocket.

Lemma updateHeatmap_replaces (points : list HeatPoint) (d : Dashboard) (old : list (float * float * float)) :
  heatLayer d = Some old ->
  heatLayer (final (DriveSightMap.updateHeatmap (Some points) d)) =
    Some (map DriveSightMap.latLng points).
Proof.
  intros H. unfold DriveSightMap.updateHeatmap, bind, gets. cbn [result final].
  rewrite H. reflexivity.
Qed.

Lemma latLng_keeps_truthy_intensity (point : HeatPoint) (x : float) :
  intensity point = Some x -> truthy_number x = true ->
  DriveSightMap.latLng point = (lat point, lng point, x).
Proof.
  intros H Hx. unfold DriveSightMap.latLng. rewrite H, Hx. reflexivity.
Qed.

Lemma latLng_default (point : HeatPoint) :
  intensity point = None ->
  DriveSightMap.latLng point = (lat point, lng point, 0.5%float).
Proof.
  intros H. unfold DriveSightMap.latLng. rewrite H. reflexivity.
Qed.

(** C9.  A delivered intensity of [0].  [latLng] maps a point whose
    intensity is [0] to intensity [0.5], at every latitude and longitude,
    because [point.intensity || 0.5] takes [0] for a missing value.  On the
    ready page both a [heatmap_update] push and a heat-map pull that deliver
    the single point (34.5, -118.25) with intensity [0] leave the heat layer
    holding that point with intensity [0.5]. *)
Theorem zero_intensity_is_replaced_by_default :
  (forall (la ln : float),
      DriveSightMap.latLng (mkHeatPoint la ln (Some 0%float)) = (la, ln, 0.5%float)) /\
  heatmap_view
    (App.run [App.Frame 0 "heatmap_update"
                (heatmap_body [mkHeatPoint 34.5%float (-118.25)%float (Some 0%float)])]
             ready_page) =
    Some [(34.5%float, (-118.25)%float, 0.5%float)] /\
  heatmap_view
    (App.run [App.Tick;
              App.Settle 0 (Json (heatmap_body
                [mkHeatPoint 34.5%float (-118.25)%float (Some 0%float)]))]
             ready_page) =
    Some [(34.5%float, (-118.25)%float, 0.5%float)].
Proof.
  split; [intros la ln; reflexivity|].
  split; vm_compute; reflexivity.
Qed.
End Heatmap.

Section Pushes.
Import DriveSightSocket.

Lemma unshift_and_trim_firstn (a : Alert) (v : list Alert) :
  DriveSightAlerts.unshift_and_trim a v = firstn 30 (a :: v).
Proof.
  unfold DriveSightAlerts.unshift_and_trim.
  destruct (Nat.ltb 30 (List.length (a :: v))) eqn:E; [reflexivity|].
  apply Nat.ltb_ge in E. symmetry. apply firstn_all2. exact E.
Qed.

Lemma keeps_alerts_render : keeps alerts DriveSightAlerts._render.
Proof. keeps_auto. Qed.

Lemma prependAlert_alerts (a : Alert) (d : Dashboard) :
  alerts (final (DriveSightAlerts._prependAlert a d)) = firstn 30 (a :: alerts d).
Proof.
  unfold DriveSightAlerts._prependAlert.
  erewrite bind_runs by reflexivity. cbn [final].
  rewrite keeps_alerts_render. cbn [alerts set_alerts]. apply unshift_and_trim_firstn.
Qed.

Lemma alerts_on_new_incident (data : Data) (d : Dashboard) :
  alerts (final (DriveSightAlerts.on_new_incident data d)) =
  match pushed_alert data with
  | Some a => firstn 30 (a :: alerts d)
  | None => alerts d
  end.
Proof.
  destruct data as [|o]; [reflexivity|].
  unfold DriveSightAlerts.on_new_incident. erewrite bind_runs by reflexivity. cbn [final pushed_alert].
  destruct (o_alert o) as [a|]; [apply prependAlert_alerts|reflexivity].
Qed.

Lemma keeps_alerts_app_on_new_incident data : keeps alerts (App.on_new_incident data).
Proof. keeps_auto. Qed.

Lemma notify_final {Cb App} (call : Cb -> Data -> JS Cb App unit) event data cbs :
  forall (w : World Cb App),
  get (listeners w) event = Own cbs ->
  final (_notify call event data w) = fold_left (fun w cb => final (call cb data w)) cbs w.
Proof.
  intros w H. rewrite (notify_own call _ _ _ _ H). clear H. revert w.
  induction cbs as [|cb cbs IH]; intros w; [reflexivity|].
  cbn [forEach fold_left]. unfold bind. rewrite guarded_ok. cbn [final].
  rewrite IH. f_equal.
  unfold guarded, try_catch, invoke. destruct (result (call cb data w)); reflexivity.
Qed.

Lemma socket_handler_new_incident {Cb App} (call : Cb -> Data -> JS Cb App unit) data :
  socket_handler call "new_incident" data = Some (on_new_incident call data).
Proof. reflexivity. Qed.

Lemma stage_new_incident_listeners (s : Stage) (w : Page) (t : Transport) :
  in_stage s w -> nth_error (sockets w) 0 = Some t ->
  new_incident (listeners w) = [AlertsNewIncident] \/
  new_incident (listeners w) = [AlertsNewIncident; AppNewIncident].
Proof.
  destruct s; cbn [in_stage].
  - intros (_ & Hs & _) Hk. rewrite Hs in Hk. discriminate.
  - intros [_ H] _. unfold shape in H. injection H as -> _ _ _ _ _. left. reflexivity.
  - intros H _. unfold shape in H. injection H as -> _ _ _ _ _. right. reflexivity.
Qed.

(** A push of [new_incident] on a reachable page. *)
Lemma push_alert_view (w : Page) (k : nat) (data : Data) :
  reachable w ->
  alert_view (final (App.step (App.Frame k "new_incident" data) w)) = after_push w k data.
Proof.
  intros Hw. destruct (reachable_stage w Hw) as [s Hs].
  unfold after_push, App.step, deliver.
  destruct (nth_error (sockets w) k) as [t|] eqn:Hk; [|reflexivity].
  destruct (stage_socket_bound s w k t Hs Hk) as (-> & Hb & _).
  rewrite Hb. change (existsb (String.eqb "new_incident") bound_events) with true. cbn iota.
  rewrite socket_handler_new_incident.
  change (mark_connected 0 "new_incident" w) with w.
  unfold on_new_incident. erewrite bind_runs by reflexivity. cbn [final].
  unfold alert_view.
  destruct (stage_new_incident_listeners s w t Hs Hk) as [Hl|Hl];
    rewrite (notify_final App.call "new_incident" data _ w
               ltac:(cbn; rewrite Hl; reflexivity));
    cbn [fold_left App.call in_app final app set_app];
    rewrite ?keeps_alerts_app_on_new_incident; apply alerts_on_new_incident.
Qed.

Lemma after_push_length (w : Page) (k : nat) (data : Data) :
  List.length (after_push w k data) <= Nat.max 30 (List.length (alert_view w)).
Proof.
  unfold after_push.
  destruct (nth_error (sockets w) k); [destruct (pushed_alert data)|]; try lia.
  rewrite length_firstn. lia.
Qed.

(** C2, amended.  For every reachable page and every sequence of
    [new_incident] pushes applied to it, the alert view afterwards is no
    longer than the larger of 30 and its length before the sequence (hence
    at most 30 after every prefix when it starts at most 30 long); and a
    further push leaves the view as [after_push] says: unchanged when it
    carries no alert or fires on no socket, and otherwise the pushed alert in
    front of the alerts already present, in their order, cut to 30. *)
Theorem pushes_bound_alert_view :
  forall (w : Page), reachable w ->
  forall (pushes : list (nat * Data)),
    let w' := App.run (new_incident_frames pushes) w in
    List.length (alert_view w') <= Nat.max 30 (List.length (alert_view w)) /\
    forall (k : nat) (data : Data),
      let w'' := final (App.step (App.Frame k "new_incident" data) w') in
      alert_view w'' = after_push w' k data /\
      (forall a, pushed_alert data = Some a -> k < List.length (sockets w') ->
         alert_view w'' = firstn 30 (a :: alert_view w') /\ List.length (alert_view w'') <= 30).
Proof.
  intros w Hw pushes. cbv zeta. split.
  - revert w Hw. induction pushes as [|[k data] pushes IH]; intros w Hw.
    + cbn [new_incident_frames map App.run]. lia.
    + cbn [new_incident_frames map App.run fst snd].
      pose proof (reachable_step (App.Frame k "new_incident" data) w Hw) as Hw1.
      specialize (IH _ Hw1). unfold new_incident_frames in IH.
      rewrite (push_alert_view w k data Hw) in IH.
      pose proof (after_push_length w k data). lia.
  - intros k data.
    pose proof (reachable_run (new_incident_frames pushes) w Hw) as Hw'.
    split; [apply push_alert_view; exact Hw'|].
    intros a Ha Hk. rewrite (push_alert_view _ k data Hw'). unfold after_push.
    destruct (nth_error (sockets (App.run (new_incident_frames pushes) w)) k) eqn:E.
    + rewrite Ha. split; [reflexivity|]. rewrite length_firstn. lia.
    + apply nth_error_None in E. lia.
Qed.
End Pushes.

Section PushScenarios.
Import DriveSightSocket.

(** C2, as stated, fails: a pull stores the snapshot untruncated, so the
    page reached by a pull of 31 alerts shows 31 alerts, and still shows 31
    after a [new_incident] push that carries an incident but no alert. *)
Lemma pulled_view_exceeds_thirty :
  let w := App.run [App.EnterDashboard; App.Settle 0 (Json (alerts_body (burst 31)))]
                   (App.boot full_document) in
  let w' := App.run (new_incident_frames [(0, incident_push incident1 None)]) w in
  reachable w /\
  List.length (alert_view w) = 31 /\
  List.length (alert_view w') = 31 /\
  ~ List.length (alert_view w') <= 30.
Proof.
  cbv zeta. split; [apply reachable_run, reachable_boot|].
  split; [vm_compute; reflexivity|].
  split; [vm_compute; reflexivity|].
  vm_compute. intros H. repeat (apply le_S_n in H). inversion H.
Qed.

Lemma pushes_bound_alert_view_witness :
  reachable ready_page /\
  let w' := App.run (new_incident_frames [(0, alert_push a1)]) ready_page in
  List.length (alert_view w') <= Nat.max 30 (List.length (alert_view ready_page)) /\
  alert_view (final (App.step (App.Frame 0 "new_incident" (incident_push incident1 (Some a2))) w'))
    = [a2; a1].
Proof.
  split; [exact reachable_ready_page|].
  pose proof (pushes_bound_alert_view ready_page reachable_ready_page [(0, alert_push a1)]) as P.
  cbv zeta in P. destruct P as [Hl Hp]. cbv zeta. split; [exact Hl|].
  destruct (Hp 0 (incident_push incident1 (Some a2))) as [He _].
  rewrite He. vm_compute. reflexivity.
Defined.

Lemma firstn_app_firstn {X} (n : nat) (l l' : list X) :
  firstn n (l ++ firstn n l') = firstn n (l ++ l').
Proof.
  rewrite !firstn_app, firstn_firstn. f_equal. f_equal. lia.
Qed.

Lemma online_after_frame (w : Page) k name data t :
  nth_error (sockets w) 0 = Some t ->
  exists t', nth_error (sockets (final (App.step (App.Frame k name data) w))) 0 = Some t'.
Proof.
  intros H.
  pose proof (keeps_deliver k name data w) as E. apply (f_equal shape_bound) in E.
  cbn [shape shape_bound] in E. change (App.step (App.Frame k name data) w)
    with (deliver App.call k name data w).
  destruct (sockets (final (deliver App.call k name data w))) as [|t' ts].
  - destruct (sockets w); discriminate.
  - exists t'. reflexivity.
Qed.

(** Alerts pushed one after the other on socket 0. *)
Lemma pushes_prepend (payloads : list Data) : forall (es : list Alert) (w : Page) t,
  map pushed_alert payloads = map Some es ->
  reachable w -> nth_error (sockets w) 0 = Some t ->
  List.length (alert_view w) <= 30 ->
  alert_view (App.run (new_incident_frames (on_socket_0 payloads)) w) =
  firstn 30 (rev es ++ alert_view w).
Proof.
  induction payloads as [|data payloads IH]; intros es w t Hes Hw Ht Hlen.
  - destruct es; [|discriminate].
    cbn [on_socket_0 map new_incident_frames App.run rev app].
    symmetry. apply firstn_all2. exact Hlen.
  - destruct es as [|a es]; [discriminate|]. cbn [map] in Hes. injection Hes as Ha Hes.
    set (e := App.Frame 0 "new_incident" data).
    change (alert_view (App.run (new_incident_frames (on_socket_0 payloads))
                                (final (App.step e w)))
            = firstn 30 (rev (a :: es) ++ alert_view w)).
    pose proof (reachable_step e w Hw) as Hw1.
    destruct (online_after_frame w 0 "new_incident" data t Ht) as [t' Ht'].
    pose proof (push_alert_view w 0 data Hw) as Hv.
    unfold after_push in Hv. rewrite Ht, Ha in Hv.
    fold e in Hv, Ht'.
    rewrite (IH es _ t' Hes Hw1 Ht') by (rewrite Hv, length_firstn; lia).
    rewrite Hv. cbn [rev]. rewrite <- app_assoc. cbn [app].
    apply firstn_app_firstn.
Qed.

Lemma stage_online (s : Stage) (w : Page) :
  in_stage s w -> pending (app w) <> [] ->
  (exists t, nth_error (sockets w) 0 = Some t) /\
  (exists pts, heatLayer (app w) = Some pts).
Proof.
  intros H Hp.
  assert (E : map bound (sockets w) = [bound_events] /\ layers_ready (app w) = true).
  { destruct s; cbn [in_stage] in H.
    - destruct H as (_ & _ & H & _). contradiction.
    - destruct H as [_ H]. unfold shape in H. injection H as _ Hb _ _ _ Hl. tauto.
    - unfold shape in H. injection H as _ Hb _ _ _ Hl. tauto. }
  destruct E as [Eb El]. split.
  - destruct (sockets w) as [|t ts]; [discriminate|]. exists t. reflexivity.
  - unfold layers_ready in El. destruct (heatLayer (app w)) as [pts|]; [|discriminate].
    exists pts. reflexivity.
Qed.

Lemma keeps_sockets_initDashboard_resume k :
  keeps (fun w : Page => sockets w) (App.initDashboard_resume k).
Proof. intros w. destruct k; reflexivity. Qed.

Lemma settle_sockets (w : Page) i r :
  sockets (final (App.step (App.Settle i r) w)) = sockets w.
Proof.
  destruct (nth_error (pending (app w)) i) as [p|] eqn:E.
  - rewrite (settle_runs w i r p E). cbn [final].
    rewrite keeps_sockets_initDashboard_resume. reflexivity.
  - unfold App.step. rewrite E. reflexivity.
Qed.
End PushScenarios.

Section PullArrival.
Import DriveSightSocket.

Lemma nth_error_remove_nth_lt {X} (ps : list X) (i j : nat) :
  i < j -> nth_error (App.remove_nth j ps) i = nth_error ps i.
Proof.
  revert i j. induction ps as [|p ps IH]; intros i j H.
  - destruct j; reflexivity.
  - destruct j as [|j]; [lia|]. destruct i as [|i]; [reflexivity|].
    cbn. apply IH. lia.
Qed.

Lemma nth_error_app_some {X} (l extra : list X) (i : nat) (x : X) :
  nth_error l i = Some x -> nth_error (l ++ extra) i = Some x.
Proof.
  intros H. rewrite nth_error_app1; [exact H|].
  apply nth_error_Some. congruence.
Qed.

Lemma keeps_pending_loader_resume p r : keeps pending (App.loader_resume p r).
Proof. destruct p; cbn [App.loader_resume]; keeps_auto. Qed.

Lemma settle_pending (w : Page) (j : nat) (r : Response) (p : Pending) :
  nth_error (pending (app w)) j = Some p ->
  exists extra,
    pending (app (final (App.step (App.Settle j r) w))) =
    App.remove_nth j (pending (app w)) ++ extra.
Proof.
  intros E. rewrite (settle_runs w j r p E). cbn [final].
  assert (Hp : pending (app (settled w j r p)) = App.remove_nth j (pending (app w))).
  { unfold settled. cbn [app set_app]. rewrite keeps_pending_loader_resume. reflexivity. }
  rewrite <- Hp. generalize (settled w j r p). intros w2.
  destruct (cont p).
  - exists []. rewrite app_nil_r. reflexivity.
  - eexists. reflexivity.
  - eexists. reflexivity.
  - exists []. rewrite app_nil_r. reflexivity.
Qed.

Lemma render_ok d : result (DriveSightAlerts._render d) = Ok tt.
Proof. apply succeeds_unit. succeeds_auto. Qed.

Lemma fetchAlerts_resume_alerts (o : Obj) (d : Dashboard) :
  alerts (final (DriveSightAlerts.fetchAlerts_resume (Json (Object o)) d)) = or_empty (o_alerts o).
Proof.
  unfold DriveSightAlerts.fetchAlerts_resume, try_catch.
  set (d' := set_alerts (or_empty (o_alerts o)) d).
  assert (Hb : bind (await_json (Json (Object o)))
                 (fun data => bind (properties data)
                    (fun o0 => bind (modify (set_alerts (or_empty (o_alerts o0))))
                       (fun _ => DriveSightAlerts._render))) d =
               mkOutcome (Ok tt) (final (DriveSightAlerts._render d'))
                         (trace (DriveSightAlerts._render d'))).
  { erewrite bind_runs by reflexivity. erewrite bind_runs by reflexivity.
    erewrite bind_runs by reflexivity. cbn [result final trace app].
    fold d'. rewrite render_ok. reflexivity. }
  rewrite Hb. cbn [result final]. rewrite keeps_alerts_render. reflexivity.
Qed.

Lemma loadHeatmapData_resume_heat (o : Obj) (d : Dashboard) (old : list (float * float * float)) :
  heatLayer d = Some old ->
  heatLayer (final (App.loadHeatmapData_resume (Json (Object o)) d)) =
    Some (map DriveSightMap.latLng (or_empty (o_heatmap o))).
Proof.
  intros H. unfold App.loadHeatmapData_resume, try_catch.
  erewrite bind_runs by reflexivity. erewrite bind_runs by reflexivity.
  cbn [result final trace app].
  unfold DriveSightMap.updateHeatmap, bind, gets. cbn [result final]. rewrite H.
  reflexivity.
Qed.

Lemma loadStats_resume_counters (o : Obj) (d : Dashboard) (a c t : Z) :
  o_active_alerts o = Some a -> o_cameras_active o = Some c -> o_incidents_today o = Some t ->
  let doc := document (final (App.loadStats_resume (Json (Object o)) d)) in
  shows (dash_active_alerts doc) a /\ shows (dash_cameras_online doc) c /\
  shows (dash_incidents_today doc) t /\ shows (mockup_alerts doc) t.
Proof.
  intros Ha Hc Ht. unfold App.loadStats_resume, try_catch, App.updateStatDisplays.
  erewrite bind_runs by reflexivity. erewrite bind_runs by reflexivity.
  rewrite Ha, Hc, Ht. cbn [App.show].
  destruct d as [al hl ml doc pe di ar]. destruct doc as [co b [x1|] [x2|] [x3|] [x4|] ts rb hd];
    cbn; repeat split.
Qed.
End PullArrival.

Section Reconciliation.
Import DriveSightSocket.

(** A pull whose body is an object, settling on any page. *)
Lemma settle_views (w : Page) (i : nat) (p : Pending) (o : Obj) :
  reachable w ->
  nth_error (pending (app w)) i = Some p ->
  let w' := final (App.step (App.Settle i (Json (Object o))) w) in
  (pull p = PullAlerts -> alert_view w' = or_empty (o_alerts o)) /\
  (forall h, pull p = PullHeatmap h ->
     heatmap_view w' = Some (map DriveSightMap.latLng (or_empty (o_heatmap o)))) /\
  (pull p = PullStats ->
     forall a c t,
       o_active_alerts o = Some a -> o_cameras_active o = Some c ->
       o_incidents_today o = Some t ->
       shows (dash_active_alerts (document (app w'))) a /\
       shows (dash_cameras_online (document (app w'))) c /\
       shows (dash_incidents_today (document (app w'))) t /\
       shows (mockup_alerts (document (app w'))) t).
Proof.
  intros Hw E. cbv zeta. unfold alert_view, heatmap_view.
  rewrite (settle_view alerts w i _ p) by (reflexivity || assumption).
  rewrite (settle_view heatLayer w i _ p) by (reflexivity || assumption).
  rewrite (settle_view document w i _ p) by (reflexivity || assumption).
  split; [|split].
  - intros ->. apply fetchAlerts_resume_alerts.
  - intros h ->.
    destruct (reachable_stage w Hw) as [s Hs].
    destruct (stage_online s w Hs) as [_ [pts Hpts]].
    { intros Hnil. rewrite Hnil in E. destruct i; discriminate. }
    apply (loadHeatmapData_resume_heat o _ pts). exact Hpts.
  - intros ->. intros a c t Ha Hc Ht.
    apply (loadStats_resume_counters o (unqueued w i) a c t Ha Hc Ht).
Qed.

(** C1, as stated, fails: [fetchAlerts] is started twice (P1 by
    [DriveSightAlerts.init], P2 by an [alert_update] push); P2's response
    [a2] arrives first and P1's response [a1] second; the alert view then
    holds P1's [a1] and not P2's [a2]. *)
Lemma stale_pull_overwrites_alert_view :
  let issued := App.run [App.EnterDashboard; App.Frame 0 "alert_update" Undefined]
                        (App.boot full_document) in
  let w := App.run [App.Settle 2 (Json (alerts_body [a2]));
                    App.Settle 0 (Json (alerts_body [a1]))] issued in
  map pull (pending (app issued)) = [PullAlerts; PullHeatmap 24; PullAlerts] /\
  alert_view w = [a1] /\
  alert_view w <> [a2].
Proof.
  cbv zeta. split; [vm_compute; reflexivity|].
  assert (E : alert_view
                (App.run [App.Settle 2 (Json (alerts_body [a2]));
                          App.Settle 0 (Json (alerts_body [a1]))]
                   (App.run [App.EnterDashboard; App.Frame 0 "alert_update" Undefined]
                      (App.boot full_document))) = [a1]) by (vm_compute; reflexivity).
  split; [exact E|]. rewrite E. intros H. discriminate H.
Qed.

(** C1, amended.  The response that arrives last wins.  On every reachable
    page with two fetches in flight, P1 started before P2, when P2's response
    arrives first and P1's second (both JSON objects), the view of P1's
    domain afterwards shows P1's result: the alert view is P1's [alerts] (or
    empty), the heat layer holds P1's [heatmap] points (or none) after
    [latLng], and every counter the document has shows P1's number for it.
    No response is discarded. *)
Theorem last_arrival_wins :
  forall (w : Page) (i j : nat) (p1 p2 : Pending) (o1 o2 : Obj),
    reachable w ->
    nth_error (pending (app w)) i = Some p1 ->
    nth_error (pending (app w)) j = Some p2 ->
    i < j ->
    let w' := App.run [App.Settle j (Json (Object o2)); App.Settle i (Json (Object o1))] w in
    (pull p1 = PullAlerts -> alert_view w' = or_empty (o_alerts o1)) /\
    (forall h, pull p1 = PullHeatmap h ->
       heatmap_view w' = Some (map DriveSightMap.latLng (or_empty (o_heatmap o1)))) /\
    (pull p1 = PullStats ->
       forall a c t,
         o_active_alerts o1 = Some a -> o_cameras_active o1 = Some c ->
         o_incidents_today o1 = Some t ->
         shows (dash_active_alerts (document (app w'))) a /\
         shows (dash_cameras_online (document (app w'))) c /\
         shows (dash_incidents_today (document (app w'))) t /\
         shows (mockup_alerts (document (app w'))) t).
Proof.
  intros w i j p1 p2 o1 o2 Hw E1 E2 Hlt. cbn [App.run].
  set (w1 := final (App.step (App.Settle j (Json (Object o2))) w)).
  assert (Hw1 : reachable w1) by (apply reachable_step; exact Hw).
  assert (E1' : nth_error (pending (app w1)) i = Some p1).
  { destruct (settle_pending w j (Json (Object o2)) p2 E2) as [extra Hx].
    subst w1. rewrite Hx. apply nth_error_app_some.
    rewrite nth_error_remove_nth_lt by exact Hlt. exact E1. }
  exact (settle_views w1 i p1 o1 Hw1 E1').
Qed.

Lemma last_arrival_wins_witness :
  let w := App.run [App.EnterDashboard; App.Frame 0 "alert_update" Undefined]
                   (App.boot full_document) in
  reachable w /\
  nth_error (pending (app w)) 0 = Some (mkPending PullAlerts Detached) /\
  nth_error (pending (app w)) 2 = Some (mkPending PullAlerts Detached) /\
  0 < 2 /\
  alert_view (App.run [App.Settle 2 (Json (alerts_body [a2]));
                       App.Settle 0 (Json (alerts_body [a1]))] w) = [a1].
Proof.
  cbv zeta.
  set (w := App.run _ (App.boot full_document)).
  assert (Hw : reachable w) by (apply reachable_run, reachable_boot).
  assert (E1 : nth_error (pending (app w)) 0 = Some (mkPending PullAlerts Detached))
    by (vm_compute; reflexivity).
  assert (E2 : nth_error (pending (app w)) 2 = Some (mkPending PullAlerts Detached))
    by (vm_compute; reflexivity).
  assert (Hlt : 0 < 2) by lia.
  repeat (split; [assumption|]).
  pose proof (last_arrival_wins w 0 2 _ _
                (mkObj (Some [a1]) None None None None None None None None None None)
                (mkObj (Some [a2]) None None None None None None None None None None)
                Hw E1 E2 Hlt) as P.
  cbv zeta in P. destruct P as [Ha _]. exact (Ha eq_refl).
Defined.

Lemma firstn_rev_31 {X} (es : list X) :
  List.length es = 31 -> firstn 30 (rev es) = rev (skipn 1 es).
Proof.
  intros H. rewrite firstn_rev, H. reflexivity.
Qed.

(** C3.  A push prepends and trims.  [_prependAlert a] leaves the alert
    list [a] followed by the alerts before, cut to the first 30.  On every
    reachable page, an alerts pull that returns [[x1]] followed by a
    [new_incident] push that carries the alert [x2] leaves the view
    [[x2; x1]].  And on every reachable page with a socket and an empty view,
    31 pushes that carry an alert each, one after the other, leave the view
    30 long, holding the 2nd to the 31st of these alerts, newest first. *)
Theorem push_prepends_and_trims :
  (forall (d : Dashboard) (a : Alert),
      alerts (final (DriveSightAlerts._prependAlert a d)) = firstn 30 (a :: alerts d)) /\
  (forall (w : Page) (i : nat) (p : Pending) (x1 x2 : Alert) (push : Data),
      reachable w ->
      nth_error (pending (app w)) i = Some p -> pull p = PullAlerts ->
      pushed_alert push = Some x2 ->
      alert_view (App.run [App.Settle i (Json (alerts_body [x1]));
                           App.Frame 0 "new_incident" push] w) = [x2; x1]) /\
  (forall (w : Page) (payloads : list Data) (es : list Alert),
      reachable w -> sockets w <> nil -> alert_view w = nil ->
      map pushed_alert payloads = map Some es ->
      List.length es = 31 ->
      let w' := App.run (new_incident_frames (on_socket_0 payloads)) w in
      alert_view w' = rev (skipn 1 es) /\ List.length (alert_view w') = 30).
Proof.
  split; [|split].
  - intros d a. apply prependAlert_alerts.
  - intros w i p x1 x2 push Hw E Hp Hx. cbn [App.run].
    set (w1 := final (App.step (App.Settle i (Json (alerts_body [x1]))) w)).
    assert (Hw1 : reachable w1) by (apply reachable_step; exact Hw).
    rewrite (push_alert_view w1 0 push Hw1). unfold after_push. rewrite Hx.
    destruct (settle_views w i p
                (mkObj (Some [x1]) None None None None None None None None None None) Hw E)
      as [Ha _]. cbv zeta in Ha.
    change (alert_view w1 = or_empty (Some [x1])) in Ha || idtac.
    specialize (Ha Hp). cbn [or_empty o_alerts] in Ha.
    change (alert_view w1 = [x1]) in Ha. rewrite Ha.
    destruct (reachable_stage w Hw) as [s Hs].
    destruct (stage_online s w Hs) as [[t Ht] _].
    { intros Hnil. rewrite Hnil in E. destruct i; discriminate. }
    subst w1. rewrite settle_sockets, Ht. reflexivity.
  - intros w payloads es Hw Hs Hv Hes Hlen. cbv zeta.
    destruct (sockets w) as [|t ts] eqn:Et; [contradiction|].
    assert (E : alert_view (App.run (new_incident_frames (on_socket_0 payloads)) w)
                = rev (skipn 1 es)).
    { rewrite (pushes_prepend payloads es w t Hes Hw)
        by (rewrite ?Et, ?Hv; cbn; (reflexivity || lia)).
      rewrite Hv, app_nil_r. apply firstn_rev_31. exact Hlen. }
    split; [exact E|]. rewrite E, length_rev, length_skipn, Hlen. reflexivity.
Qed.

Lemma push_prepends_and_trims_witness :
  let w := App.run [App.Tick] ready_page in
  reachable w /\
  nth_error (pending (app w)) 3 = Some (mkPending PullAlerts Detached) /\
  alert_view (App.run [App.Settle 3 (Json (alerts_body [a1]));
                       App.Frame 0 "new_incident" (incident_push incident1 (Some a2))] w)
    = [a2; a1] /\
  List.length (burst 31) = 31 /\
  alert_view (App.run (new_incident_frames (on_socket_0 (map alert_push (burst 31))))
                      ready_page)
    = rev (map alert_no (seq 2 30)) /\
  alert_view (App.run (new_incident_frames (on_socket_0 (map alert_push (burst 31))))
                      ready_page)
    = rev (skipn 1 (burst 31)).
Proof.
  cbv zeta.
  set (w := App.run [App.Tick] ready_page).
  assert (Hw : reachable w) by (apply reachable_run, reachable_ready_page).
  assert (E : nth_error (pending (app w)) 3 = Some (mkPending PullAlerts Detached))
    by (vm_compute; reflexivity).
  destruct push_prepends_and_trims as (_ & Hb & Hc).
  split; [exact Hw|]. split; [exact E|].
  split; [exact (Hb w 3 _ a1 a2 (incident_push incident1 (Some a2)) Hw E eq_refl eq_refl)|].
  assert (Hlen : List.length (burst 31) = 31) by reflexivity.
  split; [exact Hlen|].
  assert (Hs : sockets ready_page <> nil) by (vm_compute; discriminate).
  assert (Hv : alert_view ready_page = nil) by (vm_compute; reflexivity).
  destruct (Hc ready_page (map alert_push (burst 31)) (burst 31)
              reachable_ready_page Hs Hv eq_refl Hlen) as [Hr _].
  split; [|exact Hr].
  rewrite Hr. vm_compute. reflexivity.
Defined.
End Reconciliation.

(** * The rest of the client *)

(** ** The connection indicator *)

Section Wire.
Import DriveSightSocket.

Lemma keeps_wire_in_app {A} (m : D A) : keeps wire (in_app m).
Proof. intros w. reflexivity. Qed.

Lemma keeps_wire_on event cb : keeps wire (on (Cb:=HandlerId) (App:=Dashboard) event cb).
Proof.
  intros w. unfold on, bind, gets. cbn [result final].
  destruct (get (listeners w) event); reflexivity.
Qed.

Lemma keeps_wire_call cb data : keeps wire (App.call cb data).
Proof. destruct cb; apply keeps_wire_in_app. Qed.

Lemma keeps_wire_notify event data : keeps wire (_notify App.call event data).
Proof. apply keeps_notify. intros cb. apply keeps_wire_call. Qed.

Lemma keeps_wire_initDashboard_resume k : keeps wire (App.initDashboard_resume k).
Proof.
  destruct k; cbn [App.initDashboard_resume].
  - apply keeps_ret.
  - apply keeps_wire_in_app.
  - apply keeps_wire_in_app.
  - apply keeps_bind; [apply keeps_wire_in_app|intros _].
    apply keeps_bind; [apply keeps_wire_on|intros _].
    apply keeps_bind; [apply keeps_wire_on|intros _].
    apply keeps_wire_on.
Qed.

Lemma wire_settle (w : Page) i r : wire (final (App.step (App.Settle i r) w)) = wire w.
Proof.
  destruct (nth_error (pending (app w)) i) as [p|] eqn:E.
  - rewrite (settle_runs w i r p E). cbn [final].
    rewrite keeps_wire_initDashboard_resume. reflexivity.
  - unfold App.step. rewrite E. reflexivity.
Qed.

Lemma wire_refresh (w : Page) :
  wire (final (App.step App.Tick w)) = wire w /\
  wire (final (App.step App.ClickRefresh w)) = wire w /\
  forall h, wire (final (App.step (App.SelectHours h) w)) = wire w.
Proof.
  unfold App.step. repeat split.
  - destruct (autoRefresh (app w)); reflexivity.
  - destruct (autoRefresh (app w) && refresh_btn (document (app w)))%bool; reflexivity.
  - intros h. destruct (timerange_select (document (app w))); [|reflexivity].
    unfold bind. cbn [in_app modify result final].
    destruct (autoRefresh (app w)); reflexivity.
Qed.

(** A frame that is neither [connect] nor [disconnect]. *)
Lemma wire_other_frame (w : Page) k name data :
  name <> "connect" -> name <> "disconnect" ->
  wire (final (deliver App.call k name data w)) = wire w.
Proof.
  intros H1 H2. unfold deliver.
  destruct (nth_error (sockets w) k) as [t|]; [|reflexivity].
  destruct (existsb (String.eqb name) (bound t)); [|reflexivity].
  unfold socket_handler, mark_connected.
  destruct (String.eqb_spec name "connect") as [->|_]; [congruence|].
  destruct (String.eqb_spec name "disconnect") as [->|_]; [congruence|].
  repeat match goal with
         | |- context [if ?c then _ else _] => destruct c
         end; try reflexivity.
  - destruct data; reflexivity.
  - unfold on_new_incident. unfold bind. cbn [tell result final].
    apply keeps_wire_notify.
  - unfold on_alert_update. unfold bind. cbn [tell result final].
    apply keeps_wire_notify.
  - unfold on_heatmap_update. unfold bind. cbn [tell result final].
    apply keeps_wire_notify.
  - unfold on_stats_update. apply keeps_wire_notify.
Qed.

Lemma notify_no_listeners {Cb App} (call : Cb -> Data -> JS Cb App unit) event data (w : World Cb App) :
  get (listeners w) event = Own [] ->
  _notify call event data w = mkOutcome (Ok tt) w [].
Proof.
  intros H. rewrite (notify_own call event data w []) by exact H. reflexivity.
Qed.

Lemma connect_frame (w : Page) t data :
  sockets w = [t] -> bound t = bound_events -> socket w = Some 0 ->
  connection_change (listeners w) = [] ->
  deliver App.call 0 "connect" data w =
  mkOutcome (Ok tt)
    (set_indicator (Some live) (set_sockets [announce (set_connected true t)] w))
    [ConsoleLog "[WS] Connected to DriveSight server"].
Proof.
  intros Hs Hb Hso Hl. unfold deliver. rewrite Hs. cbn [nth_error]. rewrite Hb.
  replace (existsb (String.eqb "connect") bound_events) with true by reflexivity.
  rewrite socket_handler_connect.
  change (mark_connected 0 "connect" w)
    with (set_sockets (update_nth 0 (set_connected true) (sockets w)) w).
  rewrite Hs. cbn [update_nth].
  set (w1 := set_sockets [set_connected true t] w).
  assert (Hn : _notify App.call "connection_change" (payload_connected true)
                 (set_sockets (update_nth 0 announce (sockets w1)) w1) =
               mkOutcome (Ok tt) (set_sockets [announce (set_connected true t)] w) []).
  { rewrite notify_no_listeners.
    - reflexivity.
    - cbn. rewrite Hl. reflexivity. }
  pose proof (on_connect_runs App.call 0 w1 Hso) as H. cbv zeta in H.
  rewrite Hn in H. cbn [result final trace] in H. rewrite (H eq_refl). reflexivity.
Qed.

Lemma disconnect_frame (w : Page) t data :
  sockets w = [t] -> bound t = bound_events ->
  connection_change (listeners w) = [] ->
  deliver App.call 0 "disconnect" data w =
  mkOutcome (Ok tt)
    (set_indicator (Some reconnecting) (set_sockets [set_connected false t] w))
    [ConsoleLog "[WS] Disconnected"].
Proof.
  intros Hs Hb Hl. unfold deliver. rewrite Hs. cbn [nth_error]. rewrite Hb.
  replace (existsb (String.eqb "disconnect") bound_events) with true by reflexivity.
  rewrite socket_handler_disconnect.
  change (mark_connected 0 "disconnect" w)
    with (set_sockets (update_nth 0 (set_connected false) (sockets w)) w).
  rewrite Hs. cbn [update_nth].
  set (w1 := set_sockets [set_connected false t] w).
  assert (Hn : _notify App.call "connection_change" (payload_connected false) w1 =
               mkOutcome (Ok tt) w1 []).
  { apply notify_no_listeners. cbn. rewrite Hl. reflexivity. }
  pose proof (on_disconnect_runs App.call w1) as H. cbv zeta in H.
  rewrite Hn in H. cbn [result final trace] in H. rewrite (H eq_refl). reflexivity.
Qed.

(** One socket at most, and [connect] bound on it. *)
Lemma stage_sockets (s : Stage) (w : Page) :
  in_stage s w ->
  sockets w = [] \/
  exists t, sockets w = [t] /\ bound t = bound_events /\ socket w = Some 0.
Proof.
  intros H. destruct (sockets w) as [|t [|t' ts]] eqn:E.
  - left. reflexivity.
  - right. exists t. split; [reflexivity|].
    destruct (stage_socket_bound s w 0 t H) as (_ & Hb & Hso); [rewrite E; reflexivity|].
    split; assumption.
  - exfalso. destruct (stage_socket_bound s w 1 t' H) as (Hk & _); [rewrite E; reflexivity|].
    discriminate.
Qed.

Lemma connection_shown_wire (w w' : Page) :
  wire w' = wire w -> connection_shown w -> connection_shown w'.
Proof.
  unfold wire, connection_shown. intros E. injection E as -> ->. exact (fun H => H).
Qed.

Lemma enter_wire (w : Page) :
  in_stage Idle w -> indicator w = None ->
  connection_shown (final (App.step App.EnterDashboard w)).
Proof.
  destruct w as [so l ss ind d]. destruct d as [al hl ml doc pe di ar].
  cbn. intros (-> & -> & -> & ->) ->.
  destruct di; [exact I|].
  destruct doc as [c b da dc dt ma ts rb hd]. destruct hd; cbn.
  - reflexivity.
  - exact I.
Qed.

Lemma step_connection_shown (e : App.Event) (s : Stage) (w : Page) :
  in_stage s w -> connection_shown w -> connection_shown (final (App.step e w)).
Proof.
  intros Hst H. destruct e as [|k name data|i r| | |h].
  - destruct (dashboardInitialized (app w)) eqn:Hi.
    + unfold App.step. rewrite Hi. exact H.
    + destruct s as [|c|].
      * apply enter_wire; [exact Hst|].
        destruct Hst as (_ & Hs & _). unfold connection_shown in H. rewrite Hs in H.
        destruct (indicator w); [destruct H|reflexivity].
      * destruct Hst as [_ Hst]. unfold shape in Hst. injection Hst as _ _ _ Hi' _ _. congruence.
      * unfold shape in Hst. injection Hst as _ _ _ Hi' _ _. congruence.
  - cbn [App.step].
    destruct (nth_error (sockets w) k) as [t|] eqn:Ek.
    2:{ unfold deliver. rewrite Ek. exact H. }
    destruct (stage_socket_bound s w k t Hst Ek) as (-> & Hb & Hso).
    destruct (stage_sockets s w Hst) as [Hs|(t' & Hs & _)]; [rewrite Hs in Ek; discriminate|].
    rewrite Hs in Ek. injection Ek as ->.
    pose proof (stage_no_connection_listeners s w Hst) as Hl.
    destruct (String.eqb_spec name "connect") as [->|Hc].
    { rewrite (connect_frame w t data Hs Hb Hso Hl). cbn [final].
      unfold connection_shown. cbn. reflexivity. }
    destruct (String.eqb_spec name "disconnect") as [->|Hd].
    { rewrite (disconnect_frame w t data Hs Hb Hl). cbn [final].
      unfold connection_shown. cbn. reflexivity. }
    apply (connection_shown_wire w); [|exact H]. apply wire_other_frame; assumption.
  - apply (connection_shown_wire w); [|exact H]. apply wire_settle.
  - apply (connection_shown_wire w); [|exact H]. apply wire_refresh.
  - apply (connection_shown_wire w); [|exact H]. apply wire_refresh.
  - apply (connection_shown_wire w); [|exact H]. apply wire_refresh.
Qed.

Lemma reachable_connection_shown (w : Page) : reachable w -> connection_shown w.
Proof.
  induction 1 as [doc|e w Hr IH].
  - exact I.
  - destruct (reachable_stage w Hr) as [s Hs]. apply (step_connection_shown e s w Hs IH).
Qed.
(** X1.  The connection indicator follows the socket.  On every page the
    events can produce: as long as the indicator has not been written, no
    socket is connected; and once it has been written there is exactly one
    socket, and the indicator shows "Live" when that socket is connected and
    "Reconnecting..." when it is not. *)
Theorem indicator_tracks_connection :
  forall (w : Page), reachable w ->
    (indicator w = None -> forall t, In t (sockets w) -> connected t = false) /\
    (forall i, indicator w = Some i ->
       exists t, sockets w = [t] /\ i = (if connected t then live else reconnecting)).
Proof.
  intros w Hw. pose proof (reachable_connection_shown w Hw) as H.
  unfold connection_shown, shown_connection in H.
  destruct (sockets w) as [|t [|t' ts]]; destruct (indicator w) as [i|];
    try contradiction.
  - split; [intros _ t []|discriminate].
  - split; [discriminate|]. intros i' E. injection E as <-. exists t. split; [reflexivity|exact H].
  - split; [|discriminate]. intros _ t' [<-|[]]. exact H.
Qed.

(** X2.  [emit] sends only on a connected socket, and never throws.  On
    every page the events can produce, [emit] completes normally and leaves
    the registry, the page modules and the indicator alone; when the
    indicator shows "Live" the message is appended to what the one socket has
    sent, and otherwise the page is left exactly as it was: the message is
    dropped, not queued. *)
Theorem emit_sends_only_when_live :
  forall (w : Page), reachable w ->
  forall (event : string) (data : Data),
    let o := emit event data w in
    result o = Ok tt /\
    listeners (final o) = listeners w /\
    app (final o) = app w /\
    indicator (final o) = indicator w /\
    (indicator w = Some live ->
       exists t, sockets w = [t] /\
         sockets (final o) =
           [mkTransport (opts t) (bound t) (connected t) (sent t ++ [(event, data)])]) /\
    (indicator w <> Some live -> final o = w).
Proof.
  intros w Hw event data o. subst o.
  pose proof (reachable_connection_shown w Hw) as H.
  destruct (reachable_stage w Hw) as [s Hs].
  unfold connection_shown, shown_connection in H.
  destruct (stage_sockets s w Hs) as [E|(t & E & _ & Hso)].
  - rewrite E in H. destruct (indicator w) as [i|] eqn:Ei; [destruct H|].
    unfold emit, bind, gets. cbn [result final]. rewrite E.
    destruct (socket w) as [[|k]|]; cbn [nth_error ret result final];
      repeat split; try discriminate; auto.
  - rewrite E in H.
    unfold emit, bind, gets. cbn [result final]. rewrite E, Hso. cbn [nth_error].
    destruct (connected t) eqn:Ec.
    + rewrite (socket_emit_at event data w 0 Hso). cbn [result final]. rewrite E.
      cbn [update_nth listeners app indicator set_sockets sockets]. rewrite Ec.
      repeat split.
      * intros _. exists t. rewrite Ec. split; reflexivity.
      * intros Hn. destruct (indicator w); [subst; congruence | discriminate].
    + cbn [ret result final]. repeat split.
      intros Hl. rewrite Hl in H. discriminate.
Qed.
End Wire.

(** ** Pushes on a page that is online *)

Section PushFrames.
Import DriveSightSocket.

Lemma push_frame (s : Stage) (w : Page) k t name data cbs :
  in_stage s w -> nth_error (sockets w) k = Some t ->
  In name push_events -> get (listeners w) name = Own cbs ->
  let o := App.step (App.Frame k name data) w in
  result o = Ok tt /\
  final o = fold_left (fun w cb => final (App.call cb data w)) cbs w /\
  invoked (trace o) = map (fun cb => (cb, data)) cbs /\
  logged (trace o) = map (fun e => (listener_error name, e)) (thrown (trace o)) /\
  thrown (trace o) = thrown (trace (forEach cbs (guarded App.call name data) w)).
Proof.
  intros Hs Hk Hn Hl o. subst o.
  destruct (stage_socket_bound s w k t Hs Hk) as (-> & Hb & _).
  pose proof (notify_final App.call name data cbs w Hl) as Hf.
  pose proof (notify_own App.call name data w cbs Hl) as Ho.
  destruct (forEach_guarded App.call name data cbs w) as (Hr & Hi & Hlg & _).
  rewrite <- Ho in Hr, Hi, Hlg |- *. clear Ho.
  unfold App.step, deliver. rewrite Hk, Hb.
  unfold push_events in Hn. cbn [In] in Hn.
  destruct Hn as [<-|[<-|[<-|[<-|[]]]]].
  - change (existsb (String.eqb "new_incident") bound_events) with true. cbn iota.
    change (socket_handler App.call "new_incident" data)
      with (Some (on_new_incident App.call data)).
    change (mark_connected 0 "new_incident" w) with w.
    unfold on_new_incident. erewrite bind_runs by reflexivity. cbn [result final trace app].
    rewrite Hr, Hf. cbn [invoked logged thrown]. auto.
  - change (existsb (String.eqb "alert_update") bound_events) with true. cbn iota.
    change (socket_handler App.call "alert_update" data)
      with (Some (on_alert_update App.call data)).
    change (mark_connected 0 "alert_update" w) with w.
    unfold on_alert_update. erewrite bind_runs by reflexivity. cbn [result final trace app].
    rewrite Hr, Hf. cbn [invoked logged thrown]. auto.
  - change (existsb (String.eqb "heatmap_update") bound_events) with true. cbn iota.
    change (socket_handler App.call "heatmap_update" data)
      with (Some (on_heatmap_update App.call data)).
    change (mark_connected 0 "heatmap_update" w) with w.
    unfold on_heatmap_update. erewrite bind_runs by reflexivity. cbn [result final trace app].
    rewrite Hr, Hf. cbn [invoked logged thrown]. auto.
  - change (existsb (String.eqb "stats_update") bound_events) with true. cbn iota.
    change (socket_handler App.call "stats_update" data)
      with (Some (on_stats_update App.call data)).
    change (mark_connected 0 "stats_update" w) with w.
    unfold on_stats_update. rewrite Hr, Hf. auto.
Qed.

Lemma stage_listeners (s : Stage) (w : Page) :
  in_stage s w ->
  listeners w = match s with
                | Idle => no_listeners
                | Loading _ => alerts_listeners
                | Ready => all_listeners
                end.
Proof.
  destruct s; cbn [in_stage].
  - tauto.
  - intros [_ H]. unfold shape in H. injection H as -> _ _ _ _ _. reflexivity.
  - intros H. unfold shape in H. injection H as -> _ _ _ _ _. reflexivity.
Qed.

Lemma stage_layers (s : Stage) (w : Page) :
  in_stage s w -> s <> Idle ->
  exists pts ms, heatLayer (app w) = Some pts /\ markerLayer (app w) = Some ms.
Proof.
  intros H Hs.
  assert (Hl : layers_ready (app w) = true).
  { destruct s; cbn [in_stage] in H; [congruence| |].
    - destruct H as [_ H]. unfold shape in H. injection H as _ _ _ _ _ Hl. exact Hl.
    - unfold shape in H. injection H as _ _ _ _ _ Hl. exact Hl. }
  unfold layers_ready in Hl.
  destruct (heatLayer (app w)) as [pts|]; [|discriminate].
  destruct (markerLayer (app w)) as [ms|]; [|discriminate].
  eauto.
Qed.

(** X3.  An [alert_update] push pulls the alert list again.  On every page
    the events can produce, when [alert_update] fires on a socket that
    exists, the handler completes normally and no listener throws, whatever
    the payload is (even none); exactly one alerts fetch is added behind the
    fetches already in flight and nothing else of the page modules changes:
    the alert list on display stays until that fetch settles. *)
Theorem alert_update_starts_one_pull :
  forall (w : Page), reachable w ->
  forall (k : nat) (data : Data) (t : Transport),
    nth_error (sockets w) k = Some t ->
    let o := App.step (App.Frame k "alert_update" data) w in
    result o = Ok tt /\
    thrown (trace o) = [] /\
    app (final o) =
      set_pending (pending (app w) ++ [mkPending PullAlerts Detached]) (app w) /\
    alert_view (final o) = alert_view w /\
    listeners (final o) = listeners w.
Proof.
  intros w Hw k data t Hk o.
  destruct (reachable_stage w Hw) as [s Hs].
  pose proof (stage_listeners s w Hs) as Hl.
  assert (Hg : get (listeners w) "alert_update" = Own [AlertsAlertUpdate]).
  { rewrite Hl. destruct s; try reflexivity.
    destruct Hs as (_ & Hso & _). rewrite Hso in Hk. destruct k; discriminate. }
  destruct (push_frame s w k t "alert_update" data _ Hs Hk
              ltac:(cbn; tauto) Hg) as (Hr & Hf & Hi & Hlg & Ht).
  subst o. repeat split.
  - exact Hr.
  - rewrite Ht. reflexivity.
  - rewrite Hf. reflexivity.
  - rewrite Hf. reflexivity.
  - rewrite Hf. reflexivity.
Qed.
End PushFrames.

Section MapPushes.
Import DriveSightSocket.




(** X5.  Heat-map and stats pushes that arrive before the initialisation has
    finished are lost.  [initDashboard] registers its [heatmap_update] and
    [stats_update] listeners only after its three awaited loaders; until
    then such a frame completes normally and leaves the whole page exactly
    as it was (the client only logs the heat-map frame). *)
Theorem pushes_before_ready_are_dropped :
  forall (s : Stage) (w : Page) (k : nat) (name : string) (data : Data),
    in_stage s w -> s <> Ready ->
    name = "heatmap_update" \/ name = "stats_update" ->
    App.step (App.Frame k name data) w =
    mkOutcome (Ok tt) w
      (match nth_error (sockets w) k with
       | Some _ => if name =? "heatmap_update" then [ConsoleLog "[WS] Heatmap update"] else []
       | None => []
       end).
Proof.
  intros s w k name data Hs Hn Hname.
  destruct (nth_error (sockets w) k) as [t|] eqn:Hk.
  2:{ unfold App.step, deliver. rewrite Hk. reflexivity. }
  destruct (stage_socket_bound s w k t Hs Hk) as (-> & Hb & _).
  pose proof (stage_listeners s w Hs) as Hl.
  assert (Hg : get (listeners w) name = Own []).
  { rewrite Hl. destruct Hname as [-> | ->]; destruct s; try reflexivity; congruence. }
  unfold App.step, deliver. rewrite Hk, Hb.
  destruct Hname as [-> | ->].
  - change (existsb (String.eqb "heatmap_update") bound_events) with true. cbn iota.
    change (socket_handler App.call "heatmap_update" data)
      with (Some (on_heatmap_update App.call data)).
    change (mark_connected 0 "heatmap_update" w) with w.
    unfold on_heatmap_update. erewrite bind_runs by reflexivity.
    rewrite (notify_no_listeners App.call _ data w Hg). reflexivity.
  - change (existsb (String.eqb "stats_update") bound_events) with true. cbn iota.
    change (socket_handler App.call "stats_update" data)
      with (Some (on_stats_update App.call data)).
    change (mark_connected 0 "stats_update" w) with w.
    unfold on_stats_update.
    rewrite (notify_no_listeners App.call _ data w Hg). reflexivity.
Qed.

Lemma app_on_heatmap_update_heat data d pts :
  heatLayer d = Some pts ->
  heatLayer (final (App.on_heatmap_update data d)) =
  match pushed_heatmap data with
  | Some l => Some (map DriveSightMap.latLng l)
  | None => Some pts
  end.
Proof.
  intros H. destruct data as [|o]; [cbn; exact H|].
  unfold App.on_heatmap_update, pushed_heatmap. cbn [properties].
  erewrite bind_runs by reflexivity. cbn [final].
  destruct (o_heatmap o); [|exact H].
  unfold DriveSightMap.updateHeatmap, bind, gets. cbn [result final]. rewrite H. reflexivity.
Qed.

(** X6.  A heat-map push replaces the heat layer wholesale.  On a page whose
    initialisation has finished, when [heatmap_update] fires on a socket that
    exists: a payload with a [heatmap] array, even an empty one, makes the
    layer exactly the delivered points (through [latLng]); a payload without
    it leaves the layer as it was; a missing payload makes the listener throw
    a [TypeError], which the registry catches, and leaves the layer as it
    was.  The alert list, the markers and the document are not touched. *)
Theorem heatmap_push_replaces_layer :
  forall (w : Page) (k : nat) (t : Transport) (data : Data),
    in_stage Ready w ->
    nth_error (sockets w) k = Some t ->
    let o := App.step (App.Frame k "heatmap_update" data) w in
    result o = Ok tt /\
    heatmap_view (final o) =
      match pushed_heatmap data with
      | Some l => Some (map DriveSightMap.latLng l)
      | None => heatmap_view w
      end /\
    thrown (trace o) =
      match data with
      | Undefined => [TypeError "cannot read properties of undefined"]
      | Object _ => []
      end /\
    alert_view (final o) = alert_view w /\
    markerLayer (app (final o)) = markerLayer (app w) /\
    document (app (final o)) = document (app w).
Proof.
  intros w k t data Hs Hk o.
  pose proof (stage_listeners Ready w Hs) as Hl.
  destruct (push_frame _ w k t "heatmap_update" data [AppHeatmapUpdate] Hs Hk
              ltac:(cbn; tauto) ltac:(rewrite Hl; reflexivity)) as (Hr & Hf & _ & _ & Ht).
  destruct (stage_layers Ready w Hs ltac:(discriminate)) as (pts & ms & Hh & Hm).
  subst o. rewrite Hf, Ht. cbn [fold_left App.call in_app final app set_app].
  split; [exact Hr|]. unfold heatmap_view, alert_view. cbn [app set_app].
  split; [|split; [|split; [|split]]].
  - rewrite (app_on_heatmap_update_heat data _ pts Hh).
    destruct (pushed_heatmap data); [reflexivity|]. symmetry. exact Hh.
  - destruct data as [|ob]; [reflexivity|].
    cbn [forEach guarded]. unfold bind, guarded, try_catch, invoke.
    cbn [App.call in_app result final trace App.on_heatmap_update properties bind ret].
    destruct (o_heatmap ob); cbn.
    + unfold DriveSightMap.updateHeatmap, bind, gets. cbn. rewrite Hh. reflexivity.
    + reflexivity.
  - assert (K : keeps alerts (App.on_heatmap_update data)).
    { unfold App.on_heatmap_update. keeps_auto. }
    apply K.
  - assert (K : keeps markerLayer (App.on_heatmap_update data)).
    { unfold App.on_heatmap_update. keeps_auto. }
    apply K.
  - assert (K : keeps document (App.on_heatmap_update data)).
    { unfold App.on_heatmap_update. keeps_auto. }
    apply K.
Qed.
End MapPushes.

(** ** The stats push *)

Section StatsPush.
Import DriveSightSocket.

Lemma updateStatDisplays_runs (o : Obj) (d : Dashboard) :
  let d' := final (App.updateStatDisplays (Object o) d) in
  let doc := document d in
  result (App.updateStatDisplays (Object o) d) = Ok tt /\
  trace (App.updateStatDisplays (Object o) d) = [] /\
  document d' =
    mkDocument (alerts_container doc) (alert_count_badge doc)
               (counter_after (dash_active_alerts doc) (o_active_alerts o))
               (counter_after (dash_cameras_online doc) (o_cameras_active o))
               (counter_after (dash_incidents_today doc) (o_incidents_today o))
               (counter_after (mockup_alerts doc) (o_incidents_today o))
               (timerange_select doc) (refresh_btn doc) (heatmap_div doc) /\
  d' = set_document (document d') d.
Proof.
  destruct d as [al hl ml doc pe di ar]. destruct doc as [c b da dc dt ma ts rb hd].
  destruct o as [? ? ? ? ? ? ? ? oa oc ot].
  destruct oa, oc, ot, da, dc, dt, ma; cbn; auto.
Qed.

(** X7.  A stats push writes only the counters it carries.  On a page whose
    initialisation has finished, when [stats_update] fires on a socket that
    exists with an object, each of the four counters that is in the document
    and whose field is present shows that field ([#mockup-alerts] shows
    [incidents_today]); a counter whose field is absent keeps its text, and
    nothing else of the page modules changes.  Without a payload the listener
    throws a [TypeError], which the registry catches, and nothing changes. *)
Theorem stats_push_updates_present_counters :
  forall (w : Page) (k : nat) (t : Transport) (data : Data),
    in_stage Ready w ->
    nth_error (sockets w) k = Some t ->
    let o := App.step (App.Frame k "stats_update" data) w in
    let doc := document (app w) in
    result o = Ok tt /\
    match data with
    | Object ob =>
        app (final o) =
          set_document
            (mkDocument (alerts_container doc) (alert_count_badge doc)
               (counter_after (dash_active_alerts doc) (o_active_alerts ob))
               (counter_after (dash_cameras_online doc) (o_cameras_active ob))
               (counter_after (dash_incidents_today doc) (o_incidents_today ob))
               (counter_after (mockup_alerts doc) (o_incidents_today ob))
               (timerange_select doc) (refresh_btn doc) (heatmap_div doc))
            (app w) /\
        thrown (trace o) = []
    | Undefined =>
        app (final o) = app w /\
        thrown (trace o) = [TypeError "cannot read properties of undefined"]
    end.
Proof.
  intros w k t data Hs Hk o doc.
  pose proof (stage_listeners Ready w Hs) as Hl.
  destruct (push_frame _ w k t "stats_update" data [AppStatsUpdate] Hs Hk
              ltac:(cbn; tauto) ltac:(rewrite Hl; reflexivity)) as (Hr & Hf & _ & _ & Ht).
  subst o. rewrite Hf, Ht. cbn [fold_left App.call in_app final app set_app].
  split; [exact Hr|].
  destruct data as [|ob].
  - split; reflexivity.
  - destruct (updateStatDisplays_runs ob (app w)) as (R & T & Hd & He).
    cbv zeta in Hd, He. unfold App.on_stats_update. split.
    + rewrite He, Hd. reflexivity.
    + cbn [forEach guarded]. unfold bind, guarded, try_catch, invoke.
      cbn [App.call in_app result final trace]. unfold App.on_stats_update.
      rewrite R. reflexivity.
Qed.
End StatsPush.

(** ** The pulls of the map and the stats *)

Section OtherPulls.
Import DriveSightSocket.

Lemma loader_resume_failed p r e d :
  failed r = Some e -> p <> PullAlerts ->
  App.loader_resume p r d = mkOutcome (Ok tt) d [ConsoleError (load_error p) e].
Proof.
  intros Hf Hp.
  destruct p; [congruence| | |];
    destruct r as [| |[|o]]; try discriminate; injection Hf as <-; reflexivity.
Qed.

Lemma initDashboard_resume_trace k (w : Page) : trace (App.initDashboard_resume k w) = [].
Proof. destruct k; reflexivity. Qed.

(** X8.  A failed heat-map, incidents or stats pull changes nothing on
    display.  When such a fetch is rejected, or its body cannot be parsed or
    is [null], the continuation completes normally; the alert list, the heat
    layer, the markers and the whole document are as before (unlike the
    alerts pull, no failure text is shown), and the only trace is the one
    [console.error] line of that loader with the error. *)
Theorem failed_pull_leaves_views :
  forall (w : Page) (i : nat) (p : Pending) (r : Response) (e : Error),
    nth_error (pending (app w)) i = Some p ->
    pull p <> PullAlerts ->
    failed r = Some e ->
    let o := App.step (App.Settle i r) w in
    result o = Ok tt /\
    alert_view (final o) = alert_view w /\
    heatmap_view (final o) = heatmap_view w /\
    markerLayer (app (final o)) = markerLayer (app w) /\
    document (app (final o)) = document (app w) /\
    trace o = [ConsoleError (load_error (pull p)) e].
Proof.
  intros w i p r e Hi Hp Hf o. subst o.
  pose proof (loader_resume_failed (pull p) r e (unqueued w i) Hf Hp) as Hl.
  split; [apply (settle_result w i r p Hi)|].
  unfold alert_view, heatmap_view.
  rewrite (settle_view alerts w i r p) by (reflexivity || assumption).
  rewrite (settle_view heatLayer w i r p) by (reflexivity || assumption).
  rewrite (settle_view markerLayer w i r p) by (reflexivity || assumption).
  rewrite (settle_view document w i r p) by (reflexivity || assumption).
  rewrite Hl. cbn [final].
  repeat split.
  rewrite (settle_runs w i r p Hi). cbn [trace]. rewrite Hl, initDashboard_resume_trace.
  reflexivity.
Qed.


End OtherPulls.

(** ** What the alert panel shows *)

Section Render.
Import DriveSightSocket.

Lemma render_runs (d : Dashboard) :
  DriveSightAlerts._render d =
  mkOutcome (Ok tt) (set_document (rendered (alerts d) (document d)) d) [].
Proof.
  destruct d as [al hl ml doc pe di ar]. destruct doc as [c b da dc dt ma ts rb hd].
  unfold rendered, alerts_panel.
  destruct c, b, da; cbn; destruct (Nat.eqb (List.length al) 0); reflexivity.
Qed.

Lemma alerts_on_new_incident_document data a d :
  pushed_alert data = Some a ->
  document (final (DriveSightAlerts.on_new_incident data d)) =
  rendered (firstn 30 (a :: alerts d)) (document d).
Proof.
  destruct data as [|o]; [discriminate|]. cbn [pushed_alert]. intros H.
  unfold DriveSightAlerts.on_new_incident. cbn [properties].
  erewrite bind_runs by reflexivity. cbn [final]. rewrite H.
  unfold DriveSightAlerts._prependAlert. erewrite bind_runs by reflexivity. cbn [final].
  rewrite render_runs. cbn [final document set_document alerts set_alerts].
  rewrite unshift_and_trim_firstn. reflexivity.
Qed.

Lemma fetchAlerts_resume_document o d :
  document (final (DriveSightAlerts.fetchAlerts_resume (Json (Object o)) d)) =
  rendered (or_empty (o_alerts o)) (document d).
Proof.
  unfold DriveSightAlerts.fetchAlerts_resume, try_catch, bind.
  cbn [await_json properties ret result final modify].
  rewrite render_runs. reflexivity.
Qed.

(** X10.  The alert panel and its two counters always show the list that was
    just stored.  On every page the events can produce: after a
    [new_incident] push that carries an alert, on a socket that exists, and
    after an alerts fetch that settles with an object, the document is the
    one before with the panel drawn from the new alert list ("all clear" when
    it is empty) and with [#alert-count-badge] and [#dash-active-alerts]
    showing its length.  In a document without [#alerts-container] nothing is
    written, not even the two counters. *)
Theorem alert_panel_shows_the_alert_list :
  forall (w : Page), reachable w ->
    (forall (k : nat) (t : Transport) (data : Data) (a : Alert),
        nth_error (sockets w) k = Some t ->
        pushed_alert data = Some a ->
        let w' := final (App.step (App.Frame k "new_incident" data) w) in
        alert_view w' = firstn 30 (a :: alert_view w) /\
        document (app w') = rendered (alert_view w') (document (app w))) /\
    (forall (i : nat) (p : Pending) (o : Obj),
        nth_error (pending (app w)) i = Some p ->
        pull p = PullAlerts ->
        let w' := final (App.step (App.Settle i (Json (Object o))) w) in
        alert_view w' = or_empty (o_alerts o) /\
        document (app w') = rendered (alert_view w') (document (app w))).
Proof.
  intros w Hw. split.
  - intros k t data a Hk Ha w'.
    destruct (reachable_stage w Hw) as [s Hs].
    assert (Hv : alert_view w' = firstn 30 (a :: alert_view w)).
    { subst w'. rewrite (push_alert_view w k data Hw). unfold after_push.
      rewrite Hk, Ha. reflexivity. }
    split; [exact Hv|]. rewrite Hv. subst w'.
    pose proof (stage_listeners s w Hs) as Hl.
    destruct s as [|c|].
    + destruct Hs as (_ & Hso & _). rewrite Hso in Hk. destruct k; discriminate.
    + destruct (push_frame _ w k t "new_incident" data [AlertsNewIncident] Hs Hk
                  ltac:(cbn; tauto) ltac:(rewrite Hl; reflexivity)) as (_ & Hf & _).
      rewrite Hf. cbn [fold_left App.call in_app final app set_app].
      apply alerts_on_new_incident_document. exact Ha.
    + destruct (push_frame _ w k t "new_incident" data [AlertsNewIncident; AppNewIncident] Hs Hk
                  ltac:(cbn; tauto) ltac:(rewrite Hl; reflexivity)) as (_ & Hf & _).
      rewrite Hf. cbn [fold_left App.call in_app final app set_app].
      assert (K : keeps document (App.on_new_incident data)).
      { unfold App.on_new_incident. keeps_auto. }
      rewrite K. apply alerts_on_new_incident_document. exact Ha.
  - intros i p o Hi Hp w'. subst w'. unfold alert_view.
    rewrite (settle_view alerts w i _ p) by (reflexivity || assumption).
    rewrite (settle_view document w i _ p) by (reflexivity || assumption).
    rewrite Hp. cbn [App.loader_resume].
    rewrite fetchAlerts_resume_alerts, fetchAlerts_resume_document. split; reflexivity.
Qed.
End Render.

(** ** Refreshing *)

Section Refresh.
Import DriveSightSocket.

Lemma refreshAll_runs (d : Dashboard) :
  App.refreshAll d =
  mkOutcome (Ok tt) (set_pending (pending d ++ refresh_pulls (selected_hours d)) d) [].
Proof.
  destruct d as [al hl ml doc pe di ar].
  unfold App.refreshAll, App.loadHeatmapData, App.loadIncidents, App.loadStats,
    DriveSightAlerts.fetchAlerts, App.getSelectedHours, fetch, bind, gets, modify,
    selected_hours, refresh_pulls.
  cbn [result final trace pending set_pending document alerts heatLayer markerLayer
       dashboardInitialized autoRefresh app].
  rewrite <- !app_assoc. reflexivity.
Qed.

Lemma tick_runs (w : Page) :
  autoRefresh (app w) = true ->
  App.step App.Tick w =
  mkOutcome (Ok tt)
    (set_app (set_pending (pending (app w) ++ refresh_pulls (selected_hours (app w))) (app w)) w)
    [].
Proof.
  intros Ha. unfold App.step. rewrite Ha. unfold in_app. rewrite refreshAll_runs. reflexivity.
Qed.

(** X11.  Refreshes pile up.  On a page where the timer runs, [n] ticks of
    the 30-second timer leave the page as it was except that [4 n] fetches
    have been added behind those already in flight: per tick one heat-map,
    one incidents, one stats and one alerts fetch, in this order, for the
    window that is selected.  A tick never cancels or replaces a fetch in
    flight and does not change anything on display. *)
Theorem refreshes_pile_up :
  forall (w : Page) (n : nat),
    autoRefresh (app w) = true ->
    let w' := App.run (repeat App.Tick n) w in
    w' = set_app (set_pending
                    (pending (app w) ++
                     List.concat (repeat (refresh_pulls (selected_hours (app w))) n))
                    (app w)) w.
Proof.
  intros w n. revert w. induction n as [|n IH]; intros w Ha w'; subst w'.
  - cbn [repeat App.run List.concat]. rewrite app_nil_r.
    destruct w as [so l ss ind d]. destruct d. reflexivity.
  - cbn [repeat App.run List.concat]. rewrite (tick_runs w Ha). cbn [final].
    rewrite IH by exact Ha. cbn [app set_app pending set_pending].
    unfold selected_hours. cbn [document set_pending]. rewrite <- app_assoc.
    reflexivity.
Qed.

Lemma window_change_result (w : Page) (h h0 : Z) :
  timerange_select (document (DriveSightSocket.app w)) = Some h0 ->
  result (App.step (App.SelectHours h) w) = Ok tt.
Proof.
  intros Ht. unfold App.step. rewrite Ht.
  erewrite bind_runs by reflexivity. cbn [result].
  destruct (autoRefresh (app w)); [|reflexivity].
  unfold in_app. rewrite refreshAll_runs. reflexivity.
Qed.

(** X12.  Changing the time window refreshes with the new window.  In a
    document that has the selector, choosing [h] hours completes normally and
    stores [h]; once the initialisation has finished it also starts the four
    fetches of a refresh, the heat-map and incidents ones for [h] hours,
    behind the fetches already in flight, which keep the window they were
    issued with.  Before that the choice is stored and nothing is fetched. *)
Theorem window_change_refreshes_with_new_window :
  forall (w : Page) (h h0 : Z),
    timerange_select (document (app w)) = Some h0 ->
    let o := App.step (App.SelectHours h) w in
    let d := set_document (set_timerange_select h (document (app w))) (app w) in
    result o = Ok tt /\
    final o = set_app (if autoRefresh (app w)
                       then set_pending (pending (app w) ++ refresh_pulls h) d
                       else d) w.
Proof.
  intros w h h0 Ht o d. subst o d. unfold App.step. rewrite Ht.
  erewrite bind_runs by reflexivity. cbn [result final].
  destruct (autoRefresh (app w)); [|split; reflexivity].
  unfold in_app. rewrite refreshAll_runs. cbn [result final app set_app]. split; reflexivity.
Qed.
End Refresh.

(** ** The course of the initialisation *)

Section InitCompletes.
Import DriveSightSocket.


End InitCompletes.

Section InitOutcomes.
Import DriveSightSocket.



(** X14.  A failed map puts the dashboard out of action for good.  In a
    document without the map container, entering the page throws out of
    [initDashboard] before the socket is opened; and after any further
    events, entering again included, the page still has no socket, no
    listener, no indicator, no fetch in flight, no timer, no layers and an
    empty alert list, and its document is the one loaded up to the selected
    window. *)
Theorem failed_map_init_is_never_retried :
  forall (doc : Document) (es : list App.Event),
    heatmap_div doc = false ->
    result (App.step App.EnterDashboard (App.boot doc)) = Err (Raised "Map container not found.") /\
    exists sel : option Z,
      App.run (App.EnterDashboard :: es) (App.boot doc) =
      mkWorld None no_listeners [] None
        (mkDashboard [] None None
           (mkDocument (alerts_container doc) (alert_count_badge doc) (dash_active_alerts doc)
                       (dash_cameras_online doc) (dash_incidents_today doc) (mockup_alerts doc)
                       sel (refresh_btn doc) false)
           [] true false).
Proof.
  intros doc es Hd.
  destruct doc as [c b da dc dt ma ts rb hd]. cbn [heatmap_div] in Hd. subst hd.
  split; [reflexivity|].
  cbn [App.run alerts_container alert_count_badge dash_active_alerts dash_cameras_online
       dash_incidents_today mockup_alerts refresh_btn].
  change (final (App.step App.EnterDashboard (App.boot (mkDocument c b da dc dt ma ts rb false))))
    with (mkWorld (Cb:=HandlerId) None no_listeners [] None
            (mkDashboard [] None None (mkDocument c b da dc dt ma ts rb false) [] true false)).
  generalize ts as sel. induction es as [|e es IH]; intros sel.
  - exists sel. reflexivity.
  - cbn [App.run]. destruct e as [|k name data|i r| | |h].
    + apply IH.
    + destruct k; apply IH.
    + destruct i; apply IH.
    + apply IH.
    + apply IH.
    + destruct sel; apply IH.
Qed.

End InitOutcomes.

(** ** The registry *)

Section Unregister.
Context {Cb App : Type}.
Import DriveSightSocket.
Variable cb_eqb : Cb -> Cb -> bool.
Hypothesis cb_eqb_spec : forall a b, cb_eqb a b = true <-> a = b.

Lemma filter_others_absent (cb : Cb) (cbs : list Cb) :
  ~ In cb cbs -> filter (fun c => negb (cb_eqb c cb)) cbs = cbs.
Proof.
  induction cbs as [|c cbs IH]; intros H; [reflexivity|]. cbn.
  destruct (cb_eqb c cb) eqn:E.
  - apply cb_eqb_spec in E. subst. exfalso. apply H. left. reflexivity.
  - cbn. rewrite IH; [reflexivity|]. intros Hin. apply H. right. exact Hin.
Qed.

Lemma filter_others_spec (cb c : Cb) (cbs : list Cb) :
  In c (filter (fun c => negb (cb_eqb c cb)) cbs) <-> In c cbs /\ c <> cb.
Proof.
  rewrite filter_In. split; intros [H1 H2]; split; try exact H1.
  - intros ->. destruct (cb_eqb cb cb) eqn:E; [discriminate|].
    assert (cb_eqb cb cb = true) by (apply cb_eqb_spec; reflexivity). congruence.
  - destruct (cb_eqb c cb) eqn:E; [|reflexivity]. apply cb_eqb_spec in E. contradiction.
Qed.
End Unregister.

Section Registry.
Context {Cb App : Type}.
Import DriveSightSocket.
Implicit Types (l : Listeners Cb) (w : World Cb App).

Lemma get_own_kind l event cbs :
  get l event = Own cbs ->
  In event ["new_incident"; "alert_update"; "heatmap_update"; "stats_update"; "connection_change"].
Proof.
  unfold get.
  repeat match goal with
         | |- context [if (event =? ?s) then _ else _] =>
             destruct (String.eqb_spec event s) as [->|_]; [intros _; cbn; tauto|]
         end.
  destruct (existsb _ _); discriminate.
Qed.

Lemma get_set_same l event cbs cbs' :
  get l event = Own cbs -> get (set l event cbs') event = Own cbs'.
Proof.
  intros H. apply get_own_kind in H. cbn in H.
  destruct H as [<-|[<-|[<-|[<-|[<-|[]]]]]]; reflexivity.
Qed.

Lemma get_set_other l event other cbs' :
  other <> event -> get (set l event cbs') other = get l other.
Proof.
  intros Hne. unfold set.
  repeat match goal with
         | |- context [if (event =? ?s) then _ else _] =>
             destruct (String.eqb_spec event s) as [->|_]
         end; try reflexivity;
  unfold get;
  repeat match goal with
         | |- context [if (other =? ?s) then _ else _] =>
             destruct (String.eqb_spec other s) as [->|_]
         end; try reflexivity; congruence.
Qed.

Lemma set_get l event cbs : get l event = Own cbs -> set l event cbs = l.
Proof.
  intros H. pose proof (get_own_kind _ _ _ H) as Hin. cbn in Hin.
  destruct l as [a b c d e].
  destruct Hin as [<-|[<-|[<-|[<-|[<-|[]]]]]]; cbn in H; injection H as ->; reflexivity.
Qed.

Lemma on_runs event cb cbs w :
  get (listeners w) event = Own cbs ->
  on event cb w = mkOutcome (Ok tt) (set_listeners (set (listeners w) event (cbs ++ [cb])) w) [].
Proof. intros H. unfold on, bind, gets. cbn [result final trace]. rewrite H. reflexivity. Qed.

Lemma off_runs cb_eqb event cb cbs w :
  get (listeners w) event = Own cbs ->
  off cb_eqb event cb w =
  mkOutcome (Ok tt)
    (set_listeners (set (listeners w) event (filter (fun c => negb (cb_eqb c cb)) cbs)) w) [].
Proof. intros H. unfold off, bind, gets. cbn [result final trace]. rewrite H. reflexivity. Qed.

Lemma set_set l event cbs cbs' : set (set l event cbs) event cbs' = set l event cbs'.
Proof.
  unfold set.
  repeat match goal with
         | |- context [if (event =? ?s) then _ else _] =>
             destruct (event =? s); [reflexivity|]
         end.
  reflexivity.
Qed.
End Registry.

(** X15.  [on] appends.  For an event whose entry of the registry is one of
    the five arrays, [on] completes normally, puts the callback behind the
    callbacks already registered (a callback registered twice is there
    twice), and leaves the other events, the sockets and the page alone; a
    dispatch of the event then calls the old callbacks in their order and the
    new one last. *)
Theorem on_registers_last :
  forall (Cb App : Type) (call : Cb -> Data -> DriveSightSocket.JS Cb App unit)
         (event : string) (cb : Cb) (cbs : list Cb) (data : Data)
         (w : DriveSightSocket.World Cb App),
    DriveSightSocket.get (DriveSightSocket.listeners w) event = DriveSightSocket.Own cbs ->
    let o := DriveSightSocket.on event cb w in
    result o = Ok tt /\
    DriveSightSocket.get (DriveSightSocket.listeners (final o)) event =
      DriveSightSocket.Own (cbs ++ [cb]) /\
    (forall other, other <> event ->
       DriveSightSocket.get (DriveSightSocket.listeners (final o)) other =
       DriveSightSocket.get (DriveSightSocket.listeners w) other) /\
    DriveSightSocket.sockets (final o) = DriveSightSocket.sockets w /\
    DriveSightSocket.app (final o) = DriveSightSocket.app w /\
    invoked (trace (DriveSightSocket._notify call event data (final o))) =
      map (fun c => (c, data)) (cbs ++ [cb]).
Proof.
  intros Cb App call event cb cbs data w H o. subst o.
  rewrite (on_runs event cb cbs w H).
  cbn [result final trace DriveSightSocket.listeners DriveSightSocket.set_listeners
       DriveSightSocket.sockets DriveSightSocket.app].
  pose proof (get_set_same _ _ _ (cbs ++ [cb]) H) as Hs.
  repeat split; try assumption.
  - intros other Hne. apply get_set_other. exact Hne.
  - rewrite (notify_own call event data _ (cbs ++ [cb])) by exact Hs.
    apply (forEach_guarded call event data (cbs ++ [cb])).
Qed.

(** X16.  [off] removes every registration of a callback.  When [===] on
    callbacks is equality, for an event whose entry of the registry is one of
    the five arrays, [off] completes normally and leaves exactly the
    callbacks other than the one given, in their order; the other events are
    untouched.  Removing a callback that is not registered changes nothing,
    and [off] after [on] of a callback that was not registered gives back the
    page as it was. *)
Theorem off_removes_every_registration :
  forall (Cb App : Type) (cb_eqb : Cb -> Cb -> bool),
    (forall a b, cb_eqb a b = true <-> a = b) ->
  forall (event : string) (cb : Cb) (cbs : list Cb) (w : DriveSightSocket.World Cb App),
    DriveSightSocket.get (DriveSightSocket.listeners w) event = DriveSightSocket.Own cbs ->
    let o := DriveSightSocket.off cb_eqb event cb w in
    let rest := filter (fun c => negb (cb_eqb c cb)) cbs in
    result o = Ok tt /\
    DriveSightSocket.get (DriveSightSocket.listeners (final o)) event = DriveSightSocket.Own rest /\
    (forall c, In c rest <-> In c cbs /\ c <> cb) /\
    (forall other, other <> event ->
       DriveSightSocket.get (DriveSightSocket.listeners (final o)) other =
       DriveSightSocket.get (DriveSightSocket.listeners w) other) /\
    (~ In cb cbs -> final o = w) /\
    (~ In cb cbs ->
       final (DriveSightSocket.off cb_eqb event cb (final (DriveSightSocket.on event cb w))) = w).
Proof.
  intros Cb App cb_eqb Hspec event cb cbs w H o rest. subst o rest.
  rewrite (off_runs cb_eqb event cb cbs w H).
  cbn [result final DriveSightSocket.listeners DriveSightSocket.set_listeners].
  assert (Hid : DriveSightSocket.set_listeners (DriveSightSocket.listeners w) w = w)
    by (destruct w; reflexivity).
  split; [reflexivity|]. split; [apply (get_set_same _ _ cbs); exact H|].
  split; [intros c; apply filter_others_spec; exact Hspec|].
  split; [intros other Hne; apply get_set_other; exact Hne|].
  split.
  - intros Hn. rewrite (filter_others_absent cb_eqb Hspec cb cbs Hn).
    rewrite (set_get _ _ _ H). exact Hid.
  - intros Hn. rewrite (on_runs event cb cbs w H). cbn [final].
    rewrite (off_runs cb_eqb event cb (cbs ++ [cb])).
    2:{ cbn [DriveSightSocket.listeners DriveSightSocket.set_listeners].
        apply (get_set_same _ _ cbs). exact H. }
    cbn [final DriveSightSocket.listeners DriveSightSocket.set_listeners].
    rewrite set_set, filter_app, (filter_others_absent cb_eqb Hspec cb cbs Hn).
    cbn [filter].
    replace (cb_eqb cb cb) with true by (symmetry; apply Hspec; reflexivity).
    cbn [negb]. rewrite app_nil_r, (set_get _ _ _ H).
    destruct w; reflexivity.
Qed.

(** ** What the heat layer is given *)

(** X17.  What [updateHeatmap] hands to the heat layer.  The points drawn are
    as many as delivered, in the same order and at the same coordinates; the
    intensity of a drawn point is never 0 and never [NaN]; and a delivered
    intensity other than these is drawn as it is. *)
Theorem heat_points_are_never_falsy :
  forall (points : list HeatPoint),
    let pts := map DriveSightMap.latLng points in
    List.length pts = List.length points /\
    map (fun p => fst p) pts = map (fun p => (lat p, lng p)) points /\
    Forall (fun p => truthy_number (snd p) = true) pts /\
    Forall2 (fun p q => forall x, intensity p = Some x -> truthy_number x = true -> snd q = x)
            points pts.
Proof.
  intros points pts. subst pts. repeat split.
  - apply length_map.
  - rewrite map_map. apply map_ext. intros p. reflexivity.
  - apply Forall_map. apply Forall_forall. intros p _.
    unfold DriveSightMap.latLng. cbn [snd].
    destruct (intensity p) as [x|]; [|reflexivity].
    destruct (truthy_number x) eqn:E; [exact E|reflexivity].
  - induction points as [|p points IH]; cbn [map]; constructor; [|exact IH].
    intros x Hx Ht. unfold DriveSightMap.latLng. rewrite Hx, Ht. reflexivity.
Qed.

(** ** Relative times *)


(** ** The info panel *)

Section Focus.

Lemma find_first {X} (p : X -> bool) (l : list X) (x : X) :
  find p l = Some x ->
  exists j, nth_error l j = Some x /\ p x = true /\
    forall j' y, j' < j -> nth_error l j' = Some y -> p y = false.
Proof.
  induction l as [|y l IH]; cbn [find]; [discriminate|].
  destruct (p y) eqn:E.
  - intros H. injection H as <-. exists 0. repeat split; [exact E|]. intros j' z Hj. lia.
  - intros H. destruct (IH H) as (j & Hn & Hp & Hf). exists (S j). repeat split; auto.
    intros [|j'] z Hj Hz; cbn in Hz.
    + injection Hz as <-. exact E.
    + apply (Hf j'); [lia|exact Hz].
Qed.

Lemma find_some_of {X} (p : X -> bool) (l : list X) (i : nat) (x : X) :
  nth_error l i = Some x -> p x = true -> exists y, find p l = Some y.
Proof.
  intros Hn Hp. destruct (find p l) as [y|] eqn:E; [eauto|].
  exfalso. pose proof (find_none p l E x (nth_error_In l i Hn)). congruence.
Qed.

(** X19.  A click on an alert shows the first alert at its coordinates.  On a
    site whose info panel is complete, a click on the [i]-th alert of the
    list, when its coordinates are numbers, completes normally, shows the
    panel and writes the title and the details of the first alert of the list
    that has the same coordinates: the alert clicked when no alert before it
    is at that place, an earlier one otherwise.  The alert list and the
    camera roster are not touched. *)
Theorem click_shows_first_alert_at_the_coordinates :
  forall (s : Site) (i : nat) (a : Alert) (shown : bool) (heading : option string)
         (body : Details),
    let lat := AlertPanel.through_text (latitude a) in
    let lng := AlertPanel.through_text (longitude a) in
    nth_error (alerts (dashboard s)) i = Some a ->
    info s = mkInfoPanel (Some shown) (Some heading) (Some body) ->
    AlertPanel.at_coordinates lat lng a = true ->
    let o := AlertPanel.click_item i s in
    result o = Ok tt /\
    dashboard (final o) = dashboard s /\
    roster (final o) = roster s /\
    exists (j : nat) (first : Alert),
      j <= i /\
      nth_error (alerts (dashboard s)) j = Some first /\
      AlertPanel.at_coordinates lat lng first = true /\
      (forall j' y, j' < j -> nth_error (alerts (dashboard s)) j' = Some y ->
         AlertPanel.at_coordinates lat lng y = false) /\
      info (final o) =
        mkInfoPanel (Some true) (Some (Some (title first))) (Some (AlertDetails first lat lng)).
Proof.
  intros s i a shown heading body lat lng Hn Hi Ha o. subst o.
  destruct (find_some_of _ _ i a Hn Ha) as [first Hf].
  destruct (find_first _ _ _ Hf) as (j & Hj & Hp & Hmin).
  assert (Hle : j <= i).
  { destruct (Nat.le_gt_cases j i) as [H|H]; [exact H|].
    rewrite (Hmin i a H Hn) in Ha. discriminate. }
  destruct s as [d l r inf]. cbn [info dashboard] in *. subst inf.
  unfold AlertPanel.click_item, bind, gets. cbn [result final dashboard]. rewrite Hn.
  fold lat lng.
  unfold AlertPanel.focusAlert, MapView.flyTo, bind, gets, modify.
  cbn [result final info dashboard map_info_panel set_info set_leaflet leaflet roster].
  destruct (leaflet_map l);
    cbn [result final info dashboard map_info_panel set_info set_leaflet leaflet roster
         info_panel_title info_panel_body];
    rewrite Hf;
    cbn [result final info dashboard map_info_panel set_info set_leaflet leaflet roster
         info_panel_title info_panel_body];
    (split; [reflexivity|]); (split; [reflexivity|]); (split; [reflexivity|]);
    exists j, first; auto.
Qed.
End Focus.

(** ** The camera markers *)

Section Markers.

Lemma marker_of_app id m m' :
  MapView.marker_of id (m ++ m') =
  match MapView.marker_of id m with
  | Some c => Some c
  | None => MapView.marker_of id m'
  end.
Proof.
  induction m as [|[k c] m IH]; [reflexivity|]. cbn [app MapView.marker_of].
  destruct (k =? id)%Z; [reflexivity|exact IH].
Qed.

Lemma marker_of_place id m camera :
  MapView.marker_of id (place m camera) =
  match MapView.marker_of id m with
  | Some c => Some c
  | None => if has_id id camera then Some camera else None
  end.
Proof.
  unfold place, has_id.
  destruct (MapView.marker_of (cam_id camera) m) as [c0|] eqn:E.
  - destruct (MapView.marker_of id m) as [c|] eqn:E'; [reflexivity|].
    destruct (Z.eqb_spec (cam_id camera) id) as [Heq|_]; [rewrite Heq in E; congruence|reflexivity].
  - rewrite marker_of_app. cbn [MapView.marker_of]. reflexivity.
Qed.

Lemma marker_of_places id cs : forall m,
  MapView.marker_of id (fold_left place cs m) =
  match MapView.marker_of id m with
  | Some c => Some c
  | None => find (has_id id) cs
  end.
Proof.
  induction cs as [|c cs IH]; intros m; cbn [fold_left find].
  - destruct (MapView.marker_of id m); reflexivity.
  - rewrite IH, marker_of_place.
    destruct (MapView.marker_of id m); [reflexivity|].
    destruct (has_id id c); reflexivity.
Qed.

Lemma addCameraMarkers_runs cs : forall (s : Site) v,
  leaflet_map (leaflet s) = Some v ->
  MapView.addCameraMarkers cs s =
  mkOutcome (Ok tt)
    (set_leaflet (mkLeaflet (Some v) (fold_left place cs (cameraMarkers (leaflet s)))) s) [].
Proof.
  unfold MapView.addCameraMarkers.
  induction cs as [|c cs IH]; intros s v Hv.
  - cbn. destruct s as [d [m ms] r i]. cbn in Hv. subst m. reflexivity.
  - cbn [forEach fold_left].
    match goal with
    | |- bind ?m _ _ = _ =>
        assert (Hstep : m s =
                  mkOutcome (Ok tt)
                    (set_leaflet (mkLeaflet (Some v) (place (cameraMarkers (leaflet s)) c)) s) [])
    end.
    { unfold bind, gets, place. cbn [result final trace]. rewrite Hv.
      destruct (MapView.marker_of (cam_id c) (cameraMarkers (leaflet s))); cbn.
      - destruct s as [d [m ms] r i]. cbn in Hv. subst m. reflexivity.
      - rewrite Hv. reflexivity. }
    rewrite (bind_runs _ _ _ _ _ _ Hstep).
    rewrite (IH _ v) by reflexivity. reflexivity.
Qed.

Lemma fold_place_fixed cs : forall m,
  (forall c, In c cs -> MapView.marker_of (cam_id c) m <> None) ->
  fold_left place cs m = m.
Proof.
  induction cs as [|c cs IH]; intros m H; [reflexivity|]. cbn [fold_left].
  assert (E : place m c = m).
  { unfold place. destruct (MapView.marker_of (cam_id c) m) eqn:E; [reflexivity|].
    exfalso. apply (H c); [left; reflexivity|exact E]. }
  rewrite E. apply IH. intros c' Hc'. apply H. right. exact Hc'.
Qed.

Lemma find_has_id_in cs c : In c cs -> find (has_id (cam_id c)) cs <> None.
Proof.
  intros Hin E. pose proof (find_none _ _ E c Hin) as H. unfold has_id in H.
  rewrite Z.eqb_refl in H. discriminate.
Qed.

(** X20.  The first marker of a camera wins.  With the map initialised,
    [addCameraMarkers] completes normally; afterwards every camera given has
    a marker; a camera id that had a marker keeps that marker, and a new id
    gets the marker of the first camera given with this id; the view of the
    map and the rest of the site are not touched; and giving the same cameras
    again changes nothing. *)
Theorem first_marker_of_a_camera_wins :
  forall (s : Site) (cs : list Camera) (v : View),
    leaflet_map (leaflet s) = Some v ->
    let o := MapView.addCameraMarkers cs s in
    let markers := cameraMarkers (leaflet (final o)) in
    result o = Ok tt /\
    (forall id, MapView.marker_of id markers =
                match MapView.marker_of id (cameraMarkers (leaflet s)) with
                | Some placed => Some placed
                | None => find (has_id id) cs
                end) /\
    (forall c, In c cs -> MapView.marker_of (cam_id c) markers <> None) /\
    leaflet_map (leaflet (final o)) = Some v /\
    dashboard (final o) = dashboard s /\ roster (final o) = roster s /\
    info (final o) = info s /\
    final (MapView.addCameraMarkers cs (final o)) = final o.
Proof.
  intros s cs v Hv o markers. subst markers o.
  rewrite (addCameraMarkers_runs cs s v Hv).
  cbn [result final leaflet set_leaflet cameraMarkers leaflet_map dashboard roster info].
  assert (Hall : forall c, In c cs ->
            MapView.marker_of (cam_id c) (fold_left place cs (cameraMarkers (leaflet s))) <> None).
  { intros c Hc. rewrite marker_of_places.
    destruct (MapView.marker_of (cam_id c) (cameraMarkers (leaflet s))); [discriminate|].
    apply find_has_id_in. exact Hc. }
  repeat split; auto.
  - intros id. apply marker_of_places.
  - rewrite (addCameraMarkers_runs cs _ v) by reflexivity.
    cbn [final leaflet set_leaflet cameraMarkers].
    rewrite fold_place_fixed by exact Hall. reflexivity.
Qed.
End Markers.

(** ** The camera roster *)

Section RosterFacts.

Lemma shows_cameras_panel (l : list Camera) : shows_cameras (cameras_panel l) l.
Proof.
  unfold cameras_panel.
  destruct l as [|c l]; [reflexivity|].
  cbn [List.length Nat.eqb]. unfold shows_cameras.
  split; [discriminate|]. split; [reflexivity|].
  rewrite length_firstn. cbn [List.length].
  destruct (Nat.ltb_spec 50 (S (List.length l))) as [H|H]; cbn [noted].
  - repeat split; try lia. discriminate.
  - repeat split; try lia.
Qed.

Lemma cameras_render_runs (s : Site) :
  DriveSightCameras._render s =
  mkOutcome (Ok tt)
    (match cameras_container (roster s) with
     | None => s
     | Some _ =>
         set_roster
           (DriveSightCameras.set_container
              (if Nat.eqb (List.length (filteredCameras (roster s))) 0 then NoCamerasFound
               else CameraItems (firstn 50 (filteredCameras (roster s)))
                      (if Nat.ltb 50 (List.length (filteredCameras (roster s)))
                       then Some (List.length (filteredCameras (roster s)) - 50) else None))
              (roster s)) s
     end) [].
Proof.
  unfold DriveSightCameras._render, modify. f_equal.
  destruct (cameras_container (roster s)); [|reflexivity].
  destruct (Nat.eqb (List.length (filteredCameras (roster s))) 0); reflexivity.
Qed.

(** X21.  Searching the roster.  In a document that has the camera panel,
    [_filterCameras] completes normally and keeps the roster; a blank query
    selects every camera, any other query exactly the cameras of the roster
    that match it; the panel shows the first 50 of the selection, with a note
    that counts the others, or "No cameras found"; the counters, the map and
    the alert flows are not touched; and the outcome does not depend on the
    query that was applied before. *)
Theorem search_shows_at_most_fifty_cameras :
  forall (ops : StringOps) (query : string) (s : Site) (c : CameraPanel),
    cameras_container (roster s) = Some c ->
    let o := DriveSightCameras._filterCameras ops query s in
    let r := roster (final o) in
    result o = Ok tt /\
    cameras r = cameras (roster s) /\
    (trim ops query = EmptyString -> filteredCameras r = cameras r) /\
    (trim ops query <> EmptyString ->
       forall cam, In cam (filteredCameras r) <->
                   In cam (cameras r) /\
                   DriveSightCameras.matches ops (toLowerCase ops query) cam = true) /\
    (exists panel, cameras_container r = Some panel /\ shows_cameras panel (filteredCameras r)) /\
    camera_count_text r = camera_count_text (roster s) /\
    mockup_cameras r = mockup_cameras (roster s) /\
    stat_cameras r = stat_cameras (roster s) /\
    dashboard (final o) = dashboard s /\ leaflet (final o) = leaflet s /\
    info (final o) = info s /\
    forall earlier,
      final (DriveSightCameras._filterCameras ops query
               (final (DriveSightCameras._filterCameras ops earlier s))) = final o.
Proof.
  intros ops query s c Hc o r. subst r o.
  assert (Hrun : forall q s0, (exists c0, cameras_container (roster s0) = Some c0) ->
    DriveSightCameras._filterCameras ops q s0 =
    let l := match trim ops q with
             | EmptyString => cameras (roster s0)
             | _ => filter (DriveSightCameras.matches ops (toLowerCase ops q)) (cameras (roster s0))
             end in
    mkOutcome (Ok tt)
      (set_roster
         (mkRoster (cameras (roster s0)) l
            (Some (if Nat.eqb (List.length l) 0 then NoCamerasFound
                   else CameraItems (firstn 50 l)
                          (if Nat.ltb 50 (List.length l) then Some (List.length l - 50)
                           else None)))
            (camera_count_text (roster s0)) (mockup_cameras (roster s0))
            (stat_cameras (roster s0))) s0) []).
  { intros q s0 [c0 Hc0]. unfold DriveSightCameras._filterCameras.
    erewrite bind_runs by reflexivity. rewrite cameras_render_runs.
    cbn [result final trace roster set_roster cameras_container filteredCameras cameras
         camera_count_text mockup_cameras stat_cameras app].
    rewrite Hc0. reflexivity. }
  rewrite (Hrun query s) by eauto. cbv zeta.
  cbn [result final roster set_roster cameras filteredCameras cameras_container
       camera_count_text mockup_cameras stat_cameras dashboard leaflet info].
  split; [reflexivity|]. split; [reflexivity|].
  split; [intros ->; reflexivity|].
  split.
  { intros Hq cam. destruct (trim ops query); [congruence|]. apply filter_In. }
  split.
  { eexists. split; [reflexivity|]. apply shows_cameras_panel. }
  repeat (split; [reflexivity|]).
  intros earlier. rewrite (Hrun earlier s) by eauto. cbv zeta. cbn [final].
  rewrite Hrun by (cbn; eauto). reflexivity.
Qed.
End RosterFacts.

Section CameraPull.

Lemma write_camera_count_text_runs n (s : Site) :
  DriveSightCameras.write_count camera_count_text DriveSightCameras.set_camera_count_text n s =
  mkOutcome (Ok tt)
    (set_roster (mkRoster (cameras (roster s)) (filteredCameras (roster s))
                          (cameras_container (roster s))
                          (counter_after (camera_count_text (roster s)) (Some n))
                          (mockup_cameras (roster s)) (stat_cameras (roster s))) s) [].
Proof. destruct s as [d le [ca fc cc [t|] mc sc] inf]; reflexivity. Qed.

Lemma write_mockup_cameras_runs n (s : Site) :
  DriveSightCameras.write_count mockup_cameras DriveSightCameras.set_mockup_cameras n s =
  mkOutcome (Ok tt)
    (set_roster (mkRoster (cameras (roster s)) (filteredCameras (roster s))
                          (cameras_container (roster s)) (camera_count_text (roster s))
                          (counter_after (mockup_cameras (roster s)) (Some n))
                          (stat_cameras (roster s))) s) [].
Proof. destruct s as [d le [ca fc cc ct [t|] sc] inf]; reflexivity. Qed.

Lemma write_stat_cameras_runs n (s : Site) :
  DriveSightCameras.write_count stat_cameras DriveSightCameras.set_stat_cameras n s =
  mkOutcome (Ok tt)
    (set_roster (mkRoster (cameras (roster s)) (filteredCameras (roster s))
                          (cameras_container (roster s)) (camera_count_text (roster s))
                          (mockup_cameras (roster s))
                          (counter_after (stat_cameras (roster s)) (Some n))) s) [].
Proof. destruct s as [d le [ca fc cc ct mc [t|]] inf]; reflexivity. Qed.

Lemma write_dash_cameras_online_runs n (s : Site) :
  in_dashboard (write_text dash_cameras_online set_dash_cameras_online n) s =
  mkOutcome (Ok tt)
    (set_dashboard
       (set_document
          (let doc := document (dashboard s) in
           mkDocument (alerts_container doc) (alert_count_badge doc) (dash_active_alerts doc)
                      (counter_after (dash_cameras_online doc) (Some n))
                      (dash_incidents_today doc) (mockup_alerts doc)
                      (timerange_select doc) (refresh_btn doc) (heatmap_div doc))
          (dashboard s)) s) [].
Proof.
  destruct s as [d le ro inf]. destruct d as [al hl ml doc pe di ar].
  destruct doc as [c b da [t|] dt ma ts rb hd]; reflexivity.
Qed.

Lemma cameras_render_panel (s : Site) :
  DriveSightCameras._render s =
  mkOutcome (Ok tt)
    (set_roster
       (mkRoster (cameras (roster s)) (filteredCameras (roster s))
                 (match cameras_container (roster s) with
                  | Some _ => Some (cameras_panel (filteredCameras (roster s)))
                  | None => None
                  end)
                 (camera_count_text (roster s)) (mockup_cameras (roster s))
                 (stat_cameras (roster s))) s) [].
Proof.
  unfold DriveSightCameras._render, modify, cameras_panel. f_equal.
  destruct s as [d le [ca fc [c|] ct mc sc] inf]; [|reflexivity].
  cbn. destruct (Nat.eqb (List.length fc) 0); reflexivity.
Qed.

Lemma try_catch_from {S Act A} (m m' : M S Act A) (h : Error -> M S Act A) (s s' : S) :
  m s = m' s' -> try_catch m h s = try_catch m' h s'.
Proof. intros E. unfold try_catch. rewrite E. reflexivity. Qed.

(** The body of [fetchCameras] up to the markers. *)
Lemma fetchCameras_before_markers (s : Site) (l : option (list Camera)) :
  let cs := or_empty l in
  let n := Some (Z.of_nat (List.length cs)) in
  exists s3,
    DriveSightCameras.fetchCameras_resume (CamerasBody l) s =
      try_catch (MapView.addCameraMarkers cs)
                (fun err =>
                   tell (DriveSightSocket.ConsoleError "[Cameras] Fetch error:" err) ;;
                   DriveSightCameras._renderError) s3 /\
    roster s3 =
      mkRoster cs cs
        (match cameras_container (roster s) with
         | Some _ => Some (cameras_panel cs)
         | None => None
         end)
        (counter_after (camera_count_text (roster s)) n)
        (counter_after (mockup_cameras (roster s)) n)
        (counter_after (stat_cameras (roster s)) n) /\
    dash_cameras_online (document (dashboard s3)) =
      counter_after (dash_cameras_online (document (dashboard s))) n /\
    leaflet s3 = leaflet s /\ info s3 = info s.
Proof.
  intros cs n. subst n. eexists.
  split.
  - unfold DriveSightCameras.fetchCameras_resume.
    apply try_catch_from.
    cbn [DriveSightCameras.await_cameras].
    erewrite bind_runs by reflexivity. erewrite bind_runs by reflexivity.
    erewrite bind_runs by apply cameras_render_panel.
    erewrite bind_runs by reflexivity.
    erewrite bind_runs by apply write_camera_count_text_runs.
    erewrite bind_runs by apply write_dash_cameras_online_runs.
    erewrite bind_runs by apply write_mockup_cameras_runs.
    erewrite bind_runs by apply write_stat_cameras_runs.
    erewrite bind_runs by reflexivity.
    cbn [final roster cameras set_roster set_dashboard result trace app].
    fold cs.
    match goal with
    | |- context [MapView.addCameraMarkers cs ?S] =>
        match goal with |- _ = MapView.addCameraMarkers cs ?E => unify E S end
    end.
    reflexivity.
  - cbn [roster set_roster set_dashboard dashboard document set_document leaflet info
         dash_cameras_online cameras filteredCameras cameras_container camera_count_text
         mockup_cameras stat_cameras].
    repeat split.
Qed.

Lemma addCameraMarkers_no_map cs : forall (s : Site),
  leaflet_map (leaflet s) = None ->
  MapView.addCameraMarkers cs s =
  mkOutcome (if forallb (marked (cameraMarkers (leaflet s))) cs then Ok tt
             else Err (TypeError "cannot read properties of null (reading 'addLayer')"))
            s [].
Proof.
  unfold MapView.addCameraMarkers.
  induction cs as [|c cs IH]; intros s Hv; [reflexivity|].
  cbn [forEach forallb]. unfold marked at 1.
  destruct (MapView.marker_of (cam_id c) (cameraMarkers (leaflet s))) eqn:E.
  - match goal with
    | |- bind ?m _ _ = _ => assert (Hstep : m s = mkOutcome (Ok tt) s [])
    end.
    { unfold bind, gets. cbn [result final trace]. rewrite E. reflexivity. }
    rewrite (bind_runs _ _ _ _ _ _ Hstep). rewrite (IH _ Hv). reflexivity.
  - unfold bind at 1. unfold bind, gets. cbn [result final trace]. rewrite E, Hv. reflexivity.
Qed.

(** X22.  A successful camera pull.  With the map initialised, when the camera
    fetch settles with an object the continuation completes normally without
    a trace; the roster and the selection are the delivered cameras (none
    when the property is absent); the panel, when in the document, shows the
    first 50 with a note that counts the others; each of the four camera
    counters in the document shows the number of all the cameras, not of
    those listed; every delivered camera has a marker, and the markers placed
    before are kept. *)
Theorem camera_pull_counts_every_camera :
  forall (s : Site) (l : option (list Camera)) (v : View),
    leaflet_map (leaflet s) = Some v ->
    let o := DriveSightCameras.fetchCameras_resume (CamerasBody l) s in
    let r := roster (final o) in
    let n := Some (Z.of_nat (List.length (or_empty l))) in
    result o = Ok tt /\ trace o = [] /\
    cameras r = or_empty l /\
    filteredCameras r = or_empty l /\
    cameras_container r =
      match cameras_container (roster s) with
      | Some _ => Some (cameras_panel (or_empty l))
      | None => None
      end /\
    shows_cameras (cameras_panel (or_empty l)) (or_empty l) /\
    camera_count_text r = counter_after (camera_count_text (roster s)) n /\
    mockup_cameras r = counter_after (mockup_cameras (roster s)) n /\
    stat_cameras r = counter_after (stat_cameras (roster s)) n /\
    dash_cameras_online (document (dashboard (final o))) =
      counter_after (dash_cameras_online (document (dashboard s))) n /\
    (forall cam, In cam (or_empty l) ->
       MapView.marker_of (cam_id cam) (cameraMarkers (leaflet (final o))) <> None) /\
    (forall id placed, MapView.marker_of id (cameraMarkers (leaflet s)) = Some placed ->
       MapView.marker_of id (cameraMarkers (leaflet (final o))) = Some placed).
Proof.
  intros s l v Hv o r n. subst r o n.
  destruct (fetchCameras_before_markers s l) as (s3 & Hrun & Hr & Hd & Hl & _).
  cbv zeta in Hrun, Hr, Hd. rewrite Hrun. unfold try_catch.
  rewrite (addCameraMarkers_runs _ s3 v) by (rewrite Hl; exact Hv).
  cbn [result final trace roster leaflet dashboard cameraMarkers set_leaflet].
  rewrite Hr, Hd, Hl.
  cbn [cameras filteredCameras cameras_container camera_count_text mockup_cameras stat_cameras].
  repeat (split; [reflexivity|]).
  split; [apply shows_cameras_panel|].
  repeat (split; [reflexivity|]).
  split.
  - intros cam Hc. rewrite marker_of_places.
    destruct (MapView.marker_of (cam_id cam) (cameraMarkers (leaflet s))); [discriminate|].
    apply find_has_id_in. exact Hc.
  - intros id placed Hp. rewrite marker_of_places, Hp. reflexivity.
Qed.

(** X23.  A camera pull never throws, and what its failures leave.  Whatever
    the response and the site, the continuation of [fetchCameras] completes
    normally.  When the fetch is rejected, or its body cannot be parsed or is
    [null], it logs one [console.error] line with the error and writes the
    failure text into the camera panel, when the document has it; the roster,
    the selection, the counters and the markers are as before.  When the map
    was never initialised and a delivered camera has no marker yet, the
    roster and the counters are written as for a success, but placing the
    marker throws a [TypeError]: it is logged, the failure text replaces the
    list, and no marker is added. *)
Theorem camera_pull_failures_are_caught :
  (forall (s : Site) (r : CamerasResponse),
      result (DriveSightCameras.fetchCameras_resume r s) = Ok tt) /\
  (forall (s : Site) (r : CamerasResponse) (e : Error),
      failed_cameras r = Some e ->
      DriveSightCameras.fetchCameras_resume r s =
      mkOutcome (Ok tt)
        (match cameras_container (roster s) with
         | Some _ => set_roster (DriveSightCameras.set_container CamerasFailed (roster s)) s
         | None => s
         end)
        [DriveSightSocket.ConsoleError "[Cameras] Fetch error:" e]) /\
  (forall (s : Site) (l : option (list Camera)),
      leaflet_map (leaflet s) = None ->
      forallb (marked (cameraMarkers (leaflet s))) (or_empty l) = false ->
      let o := DriveSightCameras.fetchCameras_resume (CamerasBody l) s in
      let r := roster (final o) in
      let n := Some (Z.of_nat (List.length (or_empty l))) in
      trace o =
        [DriveSightSocket.ConsoleError "[Cameras] Fetch error:"
           (TypeError "cannot read properties of null (reading 'addLayer')")] /\
      cameras r = or_empty l /\
      cameras_container r =
        match cameras_container (roster s) with
        | Some _ => Some CamerasFailed
        | None => None
        end /\
      camera_count_text r = counter_after (camera_count_text (roster s)) n /\
      leaflet (final o) = leaflet s).
Proof.
  assert (Hfail : forall (s : Site) (r : CamerasResponse) (e : Error),
      failed_cameras r = Some e ->
      DriveSightCameras.fetchCameras_resume r s =
      mkOutcome (Ok tt)
        (match cameras_container (roster s) with
         | Some _ => set_roster (DriveSightCameras.set_container CamerasFailed (roster s)) s
         | None => s
         end)
        [DriveSightSocket.ConsoleError "[Cameras] Fetch error:" e]).
  { intros s r e Hf. destruct r; try discriminate; injection Hf as <-; reflexivity. }
  assert (Hnomap : forall (s : Site) (l : option (list Camera)),
      leaflet_map (leaflet s) = None ->
      forallb (marked (cameraMarkers (leaflet s))) (or_empty l) = false ->
      exists s3,
        DriveSightCameras.fetchCameras_resume (CamerasBody l) s =
          mkOutcome (Ok tt)
            (match cameras_container (roster s3) with
             | Some _ => set_roster (DriveSightCameras.set_container CamerasFailed (roster s3)) s3
             | None => s3
             end)
            [DriveSightSocket.ConsoleError "[Cameras] Fetch error:"
               (TypeError "cannot read properties of null (reading 'addLayer')")] /\
        roster s3 =
          mkRoster (or_empty l) (or_empty l)
            (match cameras_container (roster s) with
             | Some _ => Some (cameras_panel (or_empty l))
             | None => None
             end)
            (counter_after (camera_count_text (roster s))
                           (Some (Z.of_nat (List.length (or_empty l)))))
            (counter_after (mockup_cameras (roster s))
                           (Some (Z.of_nat (List.length (or_empty l)))))
            (counter_after (stat_cameras (roster s))
                           (Some (Z.of_nat (List.length (or_empty l))))) /\
        leaflet s3 = leaflet s).
  { intros s l Hv Hm.
    destruct (fetchCameras_before_markers s l) as (s3 & Hrun & Hr & _ & Hl & _).
    cbv zeta in Hrun, Hr. exists s3. split; [|split; assumption].
    rewrite Hrun. unfold try_catch.
    rewrite (addCameraMarkers_no_map _ s3) by (rewrite Hl; exact Hv).
    rewrite Hl, Hm. reflexivity. }
  split; [|split].
  - intros s r. destruct (failed_cameras r) as [e|] eqn:Hf.
    + rewrite (Hfail s r e Hf). reflexivity.
    + destruct r as [| | |l]; try discriminate.
      destruct (leaflet_map (leaflet s)) as [v|] eqn:Hv.
      * destruct (fetchCameras_before_markers s l) as (s3 & Hrun & _ & _ & Hl & _).
        cbv zeta in Hrun. rewrite Hrun. unfold try_catch.
        rewrite (addCameraMarkers_runs _ s3 v) by (rewrite Hl; exact Hv). reflexivity.
      * destruct (forallb (marked (cameraMarkers (leaflet s))) (or_empty l)) eqn:Hm.
        -- destruct (fetchCameras_before_markers s l) as (s3 & Hrun & _ & _ & Hl & _).
           cbv zeta in Hrun. rewrite Hrun. unfold try_catch.
           rewrite (addCameraMarkers_no_map _ s3) by (rewrite Hl; exact Hv).
           rewrite Hl, Hm. reflexivity.
        -- destruct (Hnomap s l Hv Hm) as (s3 & Hrun & _). rewrite Hrun. reflexivity.
  - exact Hfail.
  - intros s l Hv Hm o r n. subst r o n.
    destruct (Hnomap s l Hv Hm) as (s3 & Hrun & Hr & Hl). rewrite Hrun.
    cbn [trace final]. split; [reflexivity|].
    destruct (cameras_container (roster s3)) eqn:Ec;
      cbn [roster set_roster DriveSightCameras.set_container cameras cameras_container
           camera_count_text leaflet];
      rewrite ?Hr, ?Hl; rewrite Hr in Ec;
      cbn [cameras cameras_container camera_count_text] in Ec |- *;
      destruct (cameras_container (roster s)); try discriminate; repeat split.
Qed.
End CameraPull.

(** ** The charts *)

Section ChartFacts.
Import Charts.

(** X24.  The charts miss the stats pulled before them.  [initDashboard]
    awaits [loadStats], whose [updateCharts] finds no chart yet, and creates
    the charts afterwards: whatever that first body holds, the charts are
    those of a page that never received it, and every chart the document has
    a canvas for starts with zeros only (the trend chart with no point). *)
Theorem charts_miss_the_snapshot_pulled_before_them :
  forall (short_date : string -> string) (data : ChartData) (doc : Canvases),
    let c := initCharts doc (updateCharts short_date data no_charts) in
    c = initCharts doc no_charts /\
    forall chart,
      In (Some chart) [incidentTypeChart c; severityChart c; trendChart c] ->
      Forall (fun n => n = 0%Z) (dataset chart).
Proof.
  intros short_date data doc c. subst c. split.
  - destruct data as [[t|] [s|] [d|]]; reflexivity.
  - intros chart Hin.
    destruct doc as [[|] [|] [|]]; cbn in Hin;
      repeat match goal with
             | H : _ \/ _ |- _ => destruct H
             | H : Some _ = Some _ |- _ => injection H as <-
             | H : None = Some _ |- _ => discriminate H
             | H : False |- _ => destruct H
             end; cbn; repeat constructor.
Qed.

(** X25.  The charts keep their shape.  After [initCharts] and any number of
    [updateCharts], a chart exists exactly when the document has its canvas;
    the incident-type chart has its five labels and five numbers, the
    severity chart its four labels and four numbers, and the trend chart as
    many labels as points.  A body without one of the three sections leaves
    the chart of that section as the previous body drew it; a body with a
    trend redraws the trend chart with exactly its counts. *)
Theorem charts_keep_their_shape :
  forall (short_date : string -> string) (doc : Canvases) (bodies : list ChartData),
    let c := fold_left (fun c data => updateCharts short_date data c) bodies
                       (initCharts doc no_charts) in
    charts_well_formed doc c /\
    forall (data : ChartData),
      let c' := updateCharts short_date data c in
      (type_counts data = None -> incidentTypeChart c' = incidentTypeChart c) /\
      (severity_counts data = None -> severityChart c' = severityChart c) /\
      (daily_trend data = None -> trendChart c' = trendChart c) /\
      (forall trend chart, daily_trend data = Some trend -> trendChart c' = Some chart ->
         dataset chart = List.map tp_count trend /\
         List.length (labels chart) = List.length trend).
Proof.
  intros short_date doc bodies c.
  assert (Hwf : charts_well_formed doc c).
  { subst c.
    assert (H0 : charts_well_formed doc (initCharts doc no_charts)).
    { destruct doc as [[|] [|] [|]]; cbn; repeat split. }
    revert H0. generalize (initCharts doc no_charts).
    induction bodies as [|data bodies IH]; intros c0 H0; cbn [fold_left]; [exact H0|].
    apply IH. destruct H0 as (H1 & H2 & H3).
    unfold charts_well_formed, updateCharts. cbn [incidentTypeChart severityChart trendChart].
    repeat split.
    - destruct (incidentTypeChart c0) as [ch|]; [|exact H1].
      destruct (type_counts data); [|exact H1]. cbn. tauto.
    - destruct (severityChart c0) as [ch|]; [|exact H2].
      destruct (severity_counts data); [|exact H2]. cbn. tauto.
    - destruct (trendChart c0) as [ch|]; [|exact H3].
      destruct (daily_trend data); [|exact H3]. cbn. rewrite !length_map. tauto. }
  split; [exact Hwf|].
  intros data c'. subst c'. unfold updateCharts.
  cbn [incidentTypeChart severityChart trendChart].
  split; [intros ->; destruct (incidentTypeChart c); reflexivity|].
  split; [intros ->; destruct (severityChart c); reflexivity|].
  split; [intros ->; destruct (trendChart c); reflexivity|].
  intros trend chart Ht Hc. rewrite Ht in Hc.
  destruct (trendChart c); [|discriminate].
  injection Hc as <-. cbn [dataset labels]. split; [reflexivity|apply length_map].
Qed.
End ChartFacts.

(** ** The exceptions that escape *)

Section Uncaught.
Import DriveSightSocket.

Lemma stage_push_listeners (s : Stage) (w : Page) (name : string) :
  in_stage s w -> In name push_events -> exists cbs, get (listeners w) name = Own cbs.
Proof.
  intros Hs Hn. rewrite (stage_listeners s w Hs).
  unfold push_events in Hn. cbn [In] in Hn.
  destruct Hn as [<-|[<-|[<-|[<-|[]]]]]; destruct s; cbn; eauto.
Qed.

Lemma enter_result (w : Page) :
  in_stage Idle w -> dashboardInitialized (app w) = false ->
  result (App.step App.EnterDashboard w) =
  if heatmap_div (document (app w)) then Ok tt else Err (Raised "Map container not found.").
Proof.
  destruct w as [so l ss ind d]. destruct d as [al hl ml doc pe di ar].
  cbn. intros (-> & -> & -> & ->) ->.
  destruct doc as [c b da dc dt ma ts rb hd]. destruct hd; reflexivity.
Qed.

Lemma other_frame_result (w : Page) (t : Transport) (name : string) (data : Data) :
  nth_error (sockets w) 0 = Some t ->
  ~ In name bound_events ->
  deliver App.call 0 name data w = mkOutcome (Ok tt) w [].
Proof.
  intros Hk Hn. unfold deliver. rewrite Hk.
  destruct (existsb (String.eqb name) (bound t)); [|reflexivity].
  assert (E : socket_handler App.call name data = None).
  { unfold socket_handler.
    repeat match goal with
           | |- context [if (name =? ?s) then _ else _] =>
               destruct (String.eqb_spec name s) as [->|_];
               [exfalso; apply Hn; cbn; tauto|]
           end.
    reflexivity. }
  rewrite E. reflexivity.
Qed.

(** X26.  Only two events can end with an exception.  On every page the
    events can produce, an event completes normally, with two exceptions:
    entering a page that is not initialised and has no map container, which
    ends with the error of the map; and a [connection_ack] frame without a
    payload on a socket that exists, whose handler reads [data.message] and
    throws a [TypeError].  Every other frame, whatever its name and payload,
    every settled fetch, tick, click and change of the window completes
    normally. *)
Theorem only_two_events_can_throw :
  forall (w : Page), reachable w ->
  forall (e : App.Event),
    result (App.step e w) =
    match uncaught w e with
    | Some err => Err err
    | None => Ok tt
    end.
Proof.
  intros w Hw e. destruct (reachable_stage w Hw) as [s Hs].
  destruct e as [|k name data|i r| | |h]; cbn [uncaught].
  - destruct (dashboardInitialized (app w)) eqn:Hi; cbn [orb].
    + unfold App.step. rewrite Hi. reflexivity.
    + destruct s as [|c|].
      * rewrite (enter_result w Hs Hi). destruct (heatmap_div (document (app w))); reflexivity.
      * destruct Hs as [_ Hs]. unfold shape in Hs. injection Hs as _ _ _ Hi' _ _. congruence.
      * unfold shape in Hs. injection Hs as _ _ _ Hi' _ _. congruence.
  - cbn [App.step].
    destruct (nth_error (sockets w) k) as [t|] eqn:Hk.
    2:{ unfold deliver. rewrite Hk. reflexivity. }
    destruct (stage_socket_bound s w k t Hs Hk) as (-> & Hb & Hso).
    destruct (stage_sockets s w Hs) as [E|(t' & E & _)]; [rewrite E in Hk; discriminate|].
    pose proof Hk as Hk'. rewrite E in Hk'. injection Hk' as ->.
    pose proof (stage_no_connection_listeners s w Hs) as Hl.
    destruct (String.eqb_spec name "connection_ack") as [->|Hack].
    { unfold deliver. rewrite Hk, Hb.
      change (existsb (String.eqb "connection_ack") bound_events) with true. cbn iota.
      destruct data; reflexivity. }
    assert (Hgoal : result (deliver App.call 0 name data w) = Ok tt).
    { destruct (String.eqb_spec name "connect") as [->|Hc].
      { rewrite (connect_frame w t data E Hb Hso Hl). reflexivity. }
      destruct (String.eqb_spec name "disconnect") as [->|Hd].
      { rewrite (disconnect_frame w t data E Hb Hl). reflexivity. }
      destruct (in_dec string_dec name push_events) as [Hin|Hnin].
      { destruct (stage_push_listeners s w name Hs Hin) as [cbs Hg].
        apply (push_frame s w 0 t name data cbs Hs Hk Hin Hg). }
      rewrite (other_frame_result w t name data Hk); [reflexivity|].
      intros Hin. unfold bound_events in Hin. cbn [In] in Hin.
      unfold push_events in Hnin. cbn [In] in Hnin.
      destruct Hin as [<-|[<-|[<-|[<-|[<-|[<-|[<-|[]]]]]]]]; try congruence; tauto. }
    rewrite Hgoal. destruct data; reflexivity.
  - destruct (nth_error (pending (app w)) i) as [p|] eqn:E.
    + apply (settle_result w i r p E).
    + unfold App.step. rewrite E. reflexivity.
  - unfold App.step. destruct (autoRefresh (app w)); [|reflexivity].
    unfold in_app. rewrite refreshAll_runs. reflexivity.
  - unfold App.step.
    destruct (autoRefresh (app w) && refresh_btn (document (app w)))%bool; [|reflexivity].
    unfold in_app. rewrite refreshAll_runs. reflexivity.
  - destruct (timerange_select (document (app w))) as [h0|] eqn:Ht.
    + apply (window_change_result w h h0 Ht).
    + unfold App.step. rewrite Ht. reflexivity.
Qed.
End Uncaught.

(** ** The detail of a camera *)

Section CameraDetail.

End CameraDetail.

(** ** The properties at sample pages *)

Lemma reachable_live_page : reachable live_page.
Proof. apply reachable_run. exact reachable_ready_page. Qed.

Lemma reachable_loading_page : reachable loading_page.
Proof. apply reachable_run. apply reachable_boot. Qed.

Lemma ready_page_stage : in_stage Ready ready_page.
Proof. vm_compute. reflexivity. Qed.

Lemma loading_page_stage : in_stage (Loading InitAfterHeatmap) loading_page.
Proof. split; vm_compute; reflexivity. Qed.

Lemma alert_update_starts_one_pull_witness :
  reachable ready_page /\
  nth_error (DriveSightSocket.sockets ready_page) 0 = Some socket_0 /\
  pending (DriveSightSocket.app
             (final (App.step (App.Frame 0 "alert_update" Undefined) ready_page))) =
    [mkPending PullAlerts Detached].
Proof.
  assert (Hn : nth_error (DriveSightSocket.sockets ready_page) 0 = Some socket_0)
    by reflexivity.
  pose proof (alert_update_starts_one_pull ready_page reachable_ready_page 0 Undefined
                socket_0 Hn) as P.
  cbv zeta in P. destruct P as (_ & _ & Ha & _).
  split; [exact reachable_ready_page|]. split; [exact Hn|].
  rewrite Ha. reflexivity.
Defined.


Lemma pushes_before_ready_are_dropped_witness :
  in_stage (Loading InitAfterHeatmap) loading_page /\
  final (App.step (App.Frame 0 "stats_update" (stats_body 3 120 7)) loading_page) =
    loading_page.
Proof.
  assert (Hne : Loading InitAfterHeatmap <> Ready) by discriminate.
  pose proof (pushes_before_ready_are_dropped (Loading InitAfterHeatmap) loading_page 0
                "stats_update" (stats_body 3 120 7) loading_page_stage Hne
                (or_intror eq_refl)) as P.
  split; [exact loading_page_stage|]. rewrite P. reflexivity.
Defined.

Lemma heatmap_push_replaces_layer_witness :
  in_stage Ready ready_page /\
  nth_error (DriveSightSocket.sockets ready_page) 0 = Some socket_0 /\
  heatmap_view (final (App.step (App.Frame 0 "heatmap_update" (heatmap_body [])) ready_page)) =
    Some [].
Proof.
  assert (Hn : nth_error (DriveSightSocket.sockets ready_page) 0 = Some socket_0)
    by reflexivity.
  pose proof (heatmap_push_replaces_layer ready_page 0 socket_0 (heatmap_body [])
                ready_page_stage Hn) as P.
  cbv zeta in P. destruct P as (_ & Hh & _).
  split; [exact ready_page_stage|]. split; [exact Hn|]. exact Hh.
Defined.

Lemma stats_push_updates_present_counters_witness :
  in_stage Ready ready_page /\
  nth_error (DriveSightSocket.sockets ready_page) 0 = Some socket_0 /\
  stats_view
    (final (App.step
              (App.Frame 0 "stats_update"
                 (Object (mkObj None None None None None None None None None (Some 120%Z) None)))
              ready_page)) =
    (Some (Shown 0), Some (Shown 120), Some (Shown 0), Some Static).
Proof.
  assert (Hn : nth_error (DriveSightSocket.sockets ready_page) 0 = Some socket_0)
    by reflexivity.
  pose proof (stats_push_updates_present_counters ready_page 0 socket_0
                (Object (mkObj None None None None None None None None None (Some 120%Z) None))
                ready_page_stage Hn) as P.
  cbv zeta in P. destruct P as (_ & Ha & _).
  split; [exact ready_page_stage|]. split; [exact Hn|].
  unfold stats_view. rewrite Ha. reflexivity.
Defined.

Lemma failed_pull_leaves_views_witness :
  let w := App.run [App.Tick] ready_page in
  nth_error (pending (DriveSightSocket.app w)) 0 = Some (mkPending (PullHeatmap 24) Detached) /\
  failed FetchRejected = Some NetworkError /\
  trace (App.step (App.Settle 0 FetchRejected) w) =
    [DriveSightSocket.ConsoleError "[App] Heatmap load error:" NetworkError].
Proof.
  intros w.
  assert (Hn : nth_error (pending (DriveSightSocket.app w)) 0 =
               Some (mkPending (PullHeatmap 24) Detached)) by reflexivity.
  assert (Hp : pull (mkPending (PullHeatmap 24) Detached) <> PullAlerts) by discriminate.
  pose proof (failed_pull_leaves_views w 0 _ FetchRejected NetworkError Hn Hp eq_refl) as P.
  cbv zeta in P. destruct P as (_ & _ & _ & _ & _ & Ht).
  split; [exact Hn|]. split; [reflexivity|]. exact Ht.
Defined.


Lemma alert_panel_shows_the_alert_list_witness :
  reachable ready_page /\
  nth_error (DriveSightSocket.sockets ready_page) 0 = Some socket_0 /\
  let w' := final (App.step (App.Frame 0 "new_incident" (alert_push a1)) ready_page) in
  alerts_container (document (DriveSightSocket.app w')) = Some (PanelList [a1]) /\
  alert_count_badge (document (DriveSightSocket.app w')) = Some (Shown 1).
Proof.
  assert (Hn : nth_error (DriveSightSocket.sockets ready_page) 0 = Some socket_0)
    by reflexivity.
  pose proof (alert_panel_shows_the_alert_list ready_page reachable_ready_page) as P.
  destruct P as [P _].
  pose proof (P 0 socket_0 (alert_push a1) a1 Hn eq_refl) as Q.
  cbv zeta in Q. destruct Q as [Hv Hd].
  split; [exact reachable_ready_page|]. split; [exact Hn|].
  cbv zeta. rewrite Hd, Hv. split; reflexivity.
Defined.

Lemma refreshes_pile_up_witness :
  autoRefresh (DriveSightSocket.app ready_page) = true /\
  map pull (pending (DriveSightSocket.app (App.run (repeat App.Tick 2) ready_page))) =
    [PullHeatmap 24; PullIncidents 24; PullStats; PullAlerts;
     PullHeatmap 24; PullIncidents 24; PullStats; PullAlerts].
Proof.
  assert (Ha : autoRefresh (DriveSightSocket.app ready_page) = true) by reflexivity.
  pose proof (refreshes_pile_up ready_page 2 Ha) as P. cbv zeta in P.
  split; [exact Ha|]. rewrite P. reflexivity.
Defined.

Lemma window_change_refreshes_with_new_window_witness :
  timerange_select (document (DriveSightSocket.app ready_page)) = Some 24%Z /\
  map pull (pending (DriveSightSocket.app (final (App.step (App.SelectHours 6) ready_page)))) =
    [PullHeatmap 6; PullIncidents 6; PullStats; PullAlerts].
Proof.
  assert (Ht : timerange_select (document (DriveSightSocket.app ready_page)) = Some 24%Z)
    by reflexivity.
  pose proof (window_change_refreshes_with_new_window ready_page 6 24 Ht) as P.
  cbv zeta in P. destruct P as [_ Hf].
  split; [exact Ht|]. rewrite Hf. reflexivity.
Defined.


Lemma failed_map_init_is_never_retried_witness :
  heatmap_div mapless_document = false /\
  let w := App.run [App.EnterDashboard; App.Tick; App.Frame 0 "connect" Undefined;
                    App.EnterDashboard] (App.boot mapless_document) in
  DriveSightSocket.sockets w = [] /\ pending (DriveSightSocket.app w) = [].
Proof.
  pose proof (failed_map_init_is_never_retried mapless_document
                [App.Tick; App.Frame 0 "connect" Undefined; App.EnterDashboard] eq_refl) as P.
  destruct P as (_ & sel & Hw).
  split; [reflexivity|]. cbv zeta. rewrite Hw. split; reflexivity.
Defined.

Lemma indicator_tracks_connection_witness :
  reachable live_page /\
  DriveSightSocket.indicator live_page = Some live /\
  map DriveSightSocket.connected (DriveSightSocket.sockets live_page) = [true].
Proof.
  pose proof (indicator_tracks_connection live_page reachable_live_page) as P.
  destruct P as [_ P].
  assert (Hi : DriveSightSocket.indicator live_page = Some live) by reflexivity.
  destruct (P live Hi) as (t & Hs & Hl).
  split; [exact reachable_live_page|]. split; [exact Hi|].
  rewrite Hs. cbn [map]. destruct (DriveSightSocket.connected t); [reflexivity|discriminate Hl].
Defined.

Lemma emit_sends_only_when_live_witness :
  reachable live_page /\ reachable ready_page /\
  map DriveSightSocket.sent
      (DriveSightSocket.sockets (final (DriveSightSocket.emit "ping" Undefined live_page))) =
    [[("subscribe_alerts", Undefined); ("subscribe_heatmap", Undefined); ("ping", Undefined)]] /\
  final (DriveSightSocket.emit "ping" Undefined ready_page) = ready_page.
Proof.
  pose proof (emit_sends_only_when_live live_page reachable_live_page "ping" Undefined) as P.
  pose proof (emit_sends_only_when_live ready_page reachable_ready_page "ping" Undefined) as Q.
  cbv zeta in P, Q.
  destruct P as (_ & _ & _ & _ & P & _). destruct Q as (_ & _ & _ & _ & _ & Q).
  destruct (P eq_refl) as (t & Hs & Hf).
  split; [exact reachable_live_page|]. split; [exact reachable_ready_page|].
  split.
  - rewrite Hf. cbn [map DriveSightSocket.sent].
    assert (Ht : DriveSightSocket.sockets live_page =
                 [DriveSightSocket.mkTransport (DriveSightSocket.mkIoOptions true 2000 20)
                    bound_events true
                    [("subscribe_alerts", Undefined); ("subscribe_heatmap", Undefined)]])
      by reflexivity.
    rewrite Ht in Hs. injection Hs as <-. reflexivity.
  - apply Q. intros H. vm_compute in H. discriminate H.
Defined.

Lemma on_registers_last_witness :
  DriveSightSocket.get (DriveSightSocket.listeners ready_page) "new_incident" =
    DriveSightSocket.Own [AlertsNewIncident; AppNewIncident] /\
  DriveSightSocket.get
    (DriveSightSocket.listeners (final (DriveSightSocket.on "new_incident" AppStatsUpdate ready_page)))
    "new_incident" = DriveSightSocket.Own [AlertsNewIncident; AppNewIncident; AppStatsUpdate].
Proof.
  assert (Hg : DriveSightSocket.get (DriveSightSocket.listeners ready_page) "new_incident" =
               DriveSightSocket.Own [AlertsNewIncident; AppNewIncident]) by reflexivity.
  pose proof (on_registers_last HandlerId Dashboard App.call "new_incident" AppStatsUpdate _
                Undefined ready_page Hg) as P.
  cbv zeta in P. destruct P as (_ & Ho & _).
  split; [exact Hg|]. exact Ho.
Defined.

Lemma HandlerId_eqb_spec (a b : HandlerId) : HandlerId_eqb a b = true <-> a = b.
Proof. destruct a, b; split; intros H; try reflexivity; discriminate H. Qed.

Lemma off_removes_every_registration_witness :
  DriveSightSocket.get (DriveSightSocket.listeners ready_page) "new_incident" =
    DriveSightSocket.Own [AlertsNewIncident; AppNewIncident] /\
  DriveSightSocket.get
    (DriveSightSocket.listeners
       (final (DriveSightSocket.off HandlerId_eqb "new_incident" AppNewIncident ready_page)))
    "new_incident" = DriveSightSocket.Own [AlertsNewIncident].
Proof.
  assert (Hg : DriveSightSocket.get (DriveSightSocket.listeners ready_page) "new_incident" =
               DriveSightSocket.Own [AlertsNewIncident; AppNewIncident]) by reflexivity.
  pose proof (off_removes_every_registration HandlerId Dashboard HandlerId_eqb
                HandlerId_eqb_spec "new_incident" AppNewIncident _ ready_page Hg) as P.
  cbv zeta in P. destruct P as (_ & Ho & _).
  split; [exact Hg|]. exact Ho.
Defined.

Lemma click_shows_first_alert_at_the_coordinates_witness :
  nth_error (alerts (dashboard (full_site [a2; a1; a3]))) 2 = Some a3 /\
  AlertPanel.at_coordinates (AlertPanel.through_text (latitude a3))
                            (AlertPanel.through_text (longitude a3)) a3 = true /\
  result (AlertPanel.click_item 2 (full_site [a2; a1; a3])) = Ok tt /\
  info_panel_title (info (final (AlertPanel.click_item 2 (full_site [a2; a1; a3])))) =
    Some (Some "a1").
Proof.
  pose proof (click_shows_first_alert_at_the_coordinates (full_site [a2; a1; a3]) 2 a3
                false None DetailsStatic eq_refl eq_refl eq_refl) as P.
  cbv zeta in P. destruct P as (Hr & _).
  split; [reflexivity|]. split; [reflexivity|]. split; [exact Hr|]. reflexivity.
Defined.

Lemma first_marker_of_a_camera_wins_witness :
  let moved := mkCamera 101 "US-101 at Elm St" 37.5%float (-122.25)%float (Some "US-101")
                        (Some "S") (Some "District 4") (Some "C101") true in
  let o := MapView.addCameraMarkers [camera_101; camera_no 1; moved] (full_site []) in
  leaflet_map (leaflet (full_site [])) = Some InitialView /\
  MapView.marker_of 101 (cameraMarkers (leaflet (final o))) = Some camera_101 /\
  List.length (cameraMarkers (leaflet (final o))) = 2.
Proof.
  intros moved o.
  pose proof (first_marker_of_a_camera_wins (full_site []) [camera_101; camera_no 1; moved]
                InitialView eq_refl) as P.
  cbv zeta in P. destruct P as (_ & Hm & _).
  split; [reflexivity|]. split; [|reflexivity].
  subst o. rewrite Hm. reflexivity.
Defined.

Lemma search_shows_at_most_fifty_cameras_witness :
  let s := final (DriveSightCameras.fetchCameras_resume
                    (CamerasBody (Some [camera_no 1; camera_101])) (full_site [])) in
  cameras_container (roster s) = Some (CameraItems [camera_no 1; camera_101] None) /\
  cameras (roster (final (DriveSightCameras._filterCameras ascii_ops " Oak" s))) =
    [camera_no 1; camera_101] /\
  filteredCameras (roster (final (DriveSightCameras._filterCameras ascii_ops " Oak" s))) =
    [camera_101] /\
  filteredCameras (roster (final (DriveSightCameras._filterCameras ascii_ops "  " s))) =
    [camera_no 1; camera_101].
Proof.
  intros s.
  assert (Hc : cameras_container (roster s) = Some (CameraItems [camera_no 1; camera_101] None))
    by reflexivity.
  pose proof (search_shows_at_most_fifty_cameras ascii_ops " Oak" s _ Hc) as P.
  pose proof (search_shows_at_most_fifty_cameras ascii_ops "  " s _ Hc) as Q.
  cbv zeta in P, Q. destruct P as (_ & Hr & _). destruct Q as (_ & Hr' & Hb & _).
  split; [exact Hc|]. split; [rewrite Hr; reflexivity|]. split; [reflexivity|].
  rewrite (Hb eq_refl), Hr'. reflexivity.
Defined.

Lemma camera_pull_counts_every_camera_witness :
  let o := DriveSightCameras.fetchCameras_resume
             (CamerasBody (Some (map camera_no (seq 1 60)))) (full_site []) in
  leaflet_map (leaflet (full_site [])) = Some InitialView /\
  cameras_container (roster (final o)) =
    Some (CameraItems (map camera_no (seq 1 50)) (Some 10)) /\
  camera_count_text (roster (final o)) = Some (Shown 60) /\
  List.length (cameraMarkers (leaflet (final o))) = 60.
Proof.
  intros o.
  pose proof (camera_pull_counts_every_camera (full_site [])
                (Some (map camera_no (seq 1 60))) InitialView eq_refl) as P.
  cbv zeta in P. destruct P as (_ & _ & _ & _ & Hc & _ & Ht & _).
  split; [reflexivity|]. split; [|split].
  - subst o. rewrite Hc. reflexivity.
  - subst o. rewrite Ht. reflexivity.
  - vm_compute. reflexivity.
Defined.

Lemma camera_pull_failures_are_caught_witness :
  failed_cameras CamerasJsonRejected = Some SyntaxError /\
  cameras_container
    (roster (final (DriveSightCameras.fetchCameras_resume CamerasJsonRejected (full_site [])))) =
    Some CamerasFailed /\
  leaflet_map (leaflet mapless_site) = None /\
  forallb (marked (cameraMarkers (leaflet mapless_site))) (or_empty (Some [camera_101])) = false /\
  let o := DriveSightCameras.fetchCameras_resume (CamerasBody (Some [camera_101])) mapless_site in
  result o = Ok tt /\
  cameras_container (roster (final o)) = Some CamerasFailed /\
  camera_count_text (roster (final o)) = Some (Shown 1).
Proof.
  pose proof camera_pull_failures_are_caught as P. destruct P as (P1 & P2 & P3).
  pose proof (P2 (full_site []) CamerasJsonRejected SyntaxError eq_refl) as Q2.
  pose proof (P3 mapless_site (Some [camera_101]) eq_refl eq_refl) as Q3.
  cbv zeta in Q3. destruct Q3 as (_ & _ & Hc & Ht & _).
  split; [reflexivity|]. split; [rewrite Q2; reflexivity|].
  split; [reflexivity|]. split; [reflexivity|].
  cbv zeta. split; [apply P1|]. split; [rewrite Hc; reflexivity|rewrite Ht; reflexivity].
Defined.

Lemma only_two_events_can_throw_witness :
  reachable ready_page /\
  result (App.step (App.Frame 0 "connection_ack" Undefined) ready_page) =
    Err (TypeError "cannot read properties of undefined") /\
  result (App.step (App.Frame 0 "new_incident" Undefined) ready_page) = Ok tt.
Proof.
  pose proof (only_two_events_can_throw ready_page reachable_ready_page
                (App.Frame 0 "connection_ack" Undefined)) as P.
  pose proof (only_two_events_can_throw ready_page reachable_ready_page
                (App.Frame 0 "new_incident" Undefined)) as Q.
  split; [exact reachable_ready_page|]. split.
  - rewrite P. reflexivity.
  - rewrite Q. reflexivity.
Defined.

